(** * Wishday backend: birthday contacts and the assistant tool

    A shallow embedding of the request handlers of the service
    (contacts controller, users controller, assistant controller) over
    an explicit model of the relational store, followed by the
    properties of the specification.

    Modelling conventions.
    - The relational store is a pair of row lists (tables [users] and
      [contacts_birthdays]); a query is a [filter] over the rows.  Uuid
      columns are written as their canonical text, text columns are
      strings, integer columns are [Z], timestamps are [Z] instants and
      the nullable columns are options.  The store refuses a statement
      that carries a value its column types cannot hold: a text that is
      no uuid compared with a uuid column, an integer outside the 32-bit
      range, a text holding the NUL character.  Rows are listed in the
      order in which a select returns them; an update is written as
      leaving a row in its place, an order the store itself does not
      promise after an update.
    - [gen_random_uuid()] and [new Date()] are inputs of a request: the
      environment [Env] carries the uuid drawn for an insert and the
      clock reading.
    - Handlers run in a small state-and-exception monad over the store
      and a log of the statements sent to it; a [try]/[catch] turns a
      thrown store error into the 500 response.
    - JavaScript truthiness is written out where the code relies on it
      ([!userId], [contact.birthdayYear ? .. : ..]). *)

From Stdlib Require Import String Ascii List ZArith QArith Bool Lia.
From Stdlib Require Import DecimalString.
Import ListNotations.

Local Open Scope string_scope.
Local Open Scope Z_scope.

Set Implicit Arguments.

(* ================================================================== *)
(** ** JavaScript values *)

Module Js.

(** A parsed JSON value. An object is the list of its members, each
    key once in a parsed object; a property read takes the first member
    with that key.  A number is a rational, as every finite number
    the parser produces is. *)
#[local] Unset Elimination Schemes.
Inductive json : Type :=
| JNull
| JBool (b : bool)
| JNum (q : Q)
| JStr (s : string)
| JArr (items : list json)
| JObj (members : list (string * json)).
#[local] Set Elimination Schemes.

Fixpoint assoc {A : Type} (k : string) (l : list (string * A)) : option A :=
  match l with
  | [] => None
  | (k', v) :: rest => if String.eqb k k' then Some v else assoc k rest
  end.

(** [obj.k] on a value that is not [null]: [None] is [undefined]. *)
Definition prop (j : json) (k : string) : option json :=
  match j with
  | JObj members => assoc k members
  | _ => None
  end.

(** Truthiness of a string or of a number. *)
Definition truthy_string (s : string) : bool :=
  match s with EmptyString => false | _ => true end.

Definition truthy_int (z : Z) : bool := negb (z =? 0).

(** Truthiness of a JSON value (a possibly [undefined] one below). *)
Definition truthy (j : json) : bool :=
  match j with
  | JNull => false
  | JBool b => b
  | JNum q => negb (Qeq_bool q 0)
  | JStr s => truthy_string s
  | JArr _ | JObj _ => true
  end.

Definition truthy_opt (v : option json) : bool :=
  match v with None => false | Some j => truthy j end.

(** [Array.isArray]. *)
Definition isArray (v : option json) : bool :=
  match v with Some (JArr _) => true | _ => false end.

(** Template-literal rendering of an integer and of a length. *)
Definition show_int (z : Z) : string := NilZero.string_of_int (Z.to_int z).
Definition show_nat (n : nat) : string := show_int (Z.of_nat n).

(** [Array.prototype.join]. *)
Definition join (sep : string) (l : list string) : string := String.concat sep l.

Definition newline : string := String (ascii_of_nat 10) EmptyString.

(** Whether a text holds a given character. *)
Fixpoint has_char (a : ascii) (s : string) : bool :=
  match s with
  | EmptyString => false
  | String b rest => Ascii.eqb a b || has_char a rest
  end.

Definition has_newline (s : string) : bool := has_char (ascii_of_nat 10) s.
Definition has_nul (s : string) : bool := has_char (ascii_of_nat 0) s.

End Js.
Import Js.

(* ================================================================== *)
(** ** Schema (db/schema.ts) *)

Abbreviation Uuid := string (only parsing).
Abbreviation Timestamp := Z (only parsing).

Record User : Type := mkUser {
  user_id : Uuid;                       (* id, primary key *)
  clerkUserId : string;                 (* unique, not null *)
  email : option string;
  user_createdAt : option Timestamp;
  user_updatedAt : option Timestamp
}.

Record Contact : Type := mkContact {
  id : Uuid;                            (* primary key *)
  userId : Uuid;                        (* not null, references users.id *)
  name : string;
  birthdayYear : option Z;
  birthdayMonth : Z;
  birthdayDay : Z;
  createdAt : option Timestamp;
  updatedAt : option Timestamp
}.

Record Db : Type := mkDb {
  users : list User;
  contactsBirthdays : list Contact
}.

(** The constraints the schema declares. *)
Record db_constraints (d : Db) : Prop := {
  users_pkey : NoDup (map user_id (users d));
  users_clerk_unique : NoDup (map clerkUserId (users d));
  contacts_pkey : NoDup (map id (contactsBirthdays d));
  contacts_user_fk :
    forall c, In c (contactsBirthdays d) -> In (userId c) (map user_id (users d))
}.

(* ================================================================== *)
(** ** Contact rendering (assistantController.ts) *)

Definition MODEL : string := "openai/gpt-oss-120b".

Definition MONTH_NAMES : list string :=
  [ "January"; "February"; "March"; "April"; "May"; "June";
    "July"; "August"; "September"; "October"; "November"; "December" ].

(** [MONTH_NAMES[i]] inside a template literal: an index outside the
    array reads [undefined], which a template prints as such. *)
Definition month_name_at (i : Z) : string :=
  if i <? 0 then "undefined" else nth (Z.to_nat i) MONTH_NAMES "undefined".

(** The object [formatContact] receives: a selected row, together with
    what reading its [notes] property gives ([None] for [undefined]).
    The table has no such column, so a selected row reads [undefined]. *)
Record ContactObject : Type := mkContactObject {
  row : Contact;
  notes : option string
}.

Definition selected (c : Contact) : ContactObject :=
  {| row := c; notes := None |}.

Definition year_suffix (c : Contact) : string :=
  match birthdayYear c with
  | Some y => if truthy_int y then ", " ++ show_int y else EmptyString
  | None => EmptyString
  end.

Definition birthday_text (c : Contact) : string :=
  month_name_at (birthdayMonth c - 1) ++ " " ++ show_int (birthdayDay c)
    ++ year_suffix c.

Definition notes_suffix (o : ContactObject) : string :=
  match notes o with
  | Some n => if truthy_string n then " | Notes: " ++ n else EmptyString
  | None => EmptyString
  end.

Definition formatContact (o : ContactObject) : string :=
  "- " ++ name (row o) ++ ": " ++ birthday_text (row o) ++ notes_suffix o.

(* ================================================================== *)
(** ** Requests, responses and the handler monad *)

(** What a request draws from outside the program. *)
Record Env : Type := mkEnv {
  now : Timestamp;                      (* new Date() *)
  random_uuid : Uuid;                   (* gen_random_uuid() *)
  clerk_emailAddresses : string -> option (list string)
  (* clerkClient.users.getUser(id).emailAddresses, each entry reduced to
     its emailAddress; [None] when the identity provider call throws *)
}.

(** What the JSON body parser of index.ts leaves in [req.body]: in its
    default strict mode it accepts an object or an array only; for a
    request that carries no JSON body it leaves the empty object or
    leaves [req.body] undefined, depending on its version, and both are
    cases here. *)
Inductive ParsedBody : Type :=
| BodyObject (members : list (string * json))
| BodyArray (items : list json)
| BodyAbsent.

(** [req.body] read as a value. Where the handlers only hand it to a
    schema, an undefined body does what [null] does: it is no object. A
    destructuring of it throws, which the handler that destructures
    writes out. *)
Definition body_value (b : ParsedBody) : json :=
  match b with
  | BodyObject members => JObj members
  | BodyArray items => JArr items
  | BodyAbsent => JNull
  end.

(** [req.params.id] as the store reads it when it is compared with the
    uuid column: the uuid it spells, or a text that spells none. *)
Inductive IdParam : Type :=
| IdUuid (u : Uuid)
| IdText (text : string).

(** An inbound request after the middlewares: [auth_userId] is
    [req.auth?.userId] as the session middleware leaves it (it does not
    turn an unauthenticated request away); it is the subject of a
    verified session token, an id the identity provider issued, and is
    taken to be a text the store accepts. *)
Record Request : Type := mkRequest {
  auth_userId : option string;
  params_id : IdParam;
  parsed_body : ParsedBody
}.

Definition body (req : Request) : json := body_value (parsed_body req).

Record FieldError : Type := mkFieldError {
  field : string;
  message_text : option string
  (* [Some m]: a message given in the schema; [None]: the validation
     library's own wording for a type mismatch *)
}.

Inductive Table : Type := TUsers | TContacts.

Inductive Statement : Type :=
| Select (t : Table)
| Insert (t : Table)
| Update (t : Table)
| Delete (t : Table).

Definition on_contacts (s : Statement) : bool :=
  match s with
  | Select TContacts | Insert TContacts | Update TContacts | Delete TContacts => true
  | _ => false
  end.

Record Store : Type := mkStore {
  db : Db;
  log : list Statement                  (* statements sent, oldest first *)
}.

Definition fresh_store (d : Db) : Store := {| db := d; log := [] |}.

(** A computation either returns or throws, and leaves a store. *)
Inductive Outcome (A : Type) : Type :=
| Returned (a : A)
| Thrown.
Arguments Returned {A} a.
Arguments Thrown {A}.

Definition M (A : Type) : Type := Store -> Outcome A * Store.

Definition ret {A : Type} (a : A) : M A := fun s => (Returned a, s).

Definition throw {A : Type} : M A := fun s => (Thrown, s).

Definition bind {A B : Type} (m : M A) (k : A -> M B) : M B :=
  fun s =>
    match m s with
    | (Returned a, s') => k a s'
    | (Thrown, s') => (Thrown, s')
    end.

Notation "x <- m ;; k" := (bind m (fun x => k))
  (at level 61, m at next level, right associativity).
Notation "m ;;; k" := (bind m (fun _ => k))
  (at level 61, right associativity).

Definition try_catch {A : Type} (m : M A) (handler : A) : Store -> A * Store :=
  fun s =>
    match m s with
    | (Returned a, s') => (a, s')
    | (Thrown, s') => (handler, s')
    end.

Definition sent (st : Statement) : M unit :=
  fun s => (Returned tt, {| db := db s; log := log s ++ [st] |}).

Definition read_db : M Db := fun s => (Returned (db s), s).

Definition write_db (d : Db) : M unit :=
  fun s => (Returned tt, {| db := d; log := log s |}).

(* ================================================================== *)
(** ** Statements the handlers send *)

Definition limit {A : Type} (n : nat) (rows : list A) : list A := firstn n rows.

(** [db.select().from(users).where(p)] *)
Definition select_users (p : User -> bool) : M (list User) :=
  sent (Select TUsers) ;;;
  d <- read_db ;;
  ret (filter p (users d)).

Definition eq_clerkUserId (v : string) (u : User) : bool := String.eqb (clerkUserId u) v.
Definition eq_userId (v : Uuid) (c : Contact) : bool := String.eqb (userId c) v.
Definition eq_id (v : Uuid) (c : Contact) : bool := String.eqb (id c) v.
Definition and_ {A : Type} (p q : A -> bool) (a : A) : bool := p a && q a.

(** A where-clause on the contacts table: the rows it keeps, or [None]
    when it compares the uuid column [id] with a text that is no uuid,
    in which case the store refuses the statement that carries it. *)
Definition Where : Type := option (Contact -> bool).

(** [eq(contactsBirthdays.userId, uid)], with [uid] read from the store. *)
Definition where_userId (uid : Uuid) : Where := Some (eq_userId uid).

(** [and(eq(contactsBirthdays.id, id), eq(contactsBirthdays.userId, uid))],
    with [id] taken from the request. *)
Definition where_owned (i : IdParam) (uid : Uuid) : Where :=
  match i with
  | IdUuid u => Some (and_ (eq_id u) (eq_userId uid))
  | IdText _ => None
  end.

(** The values an [integer] column holds, and the texts a [text]
    column holds. *)
Definition fits_int4 (z : Z) : bool := (-2147483648 <=? z) && (z <=? 2147483647).
Definition fits_text (t : string) : bool := negb (has_nul t).

(** [db.select().from(contactsBirthdays).where(w)] *)
Definition select_contacts (w : Where) : M (list Contact) :=
  sent (Select TContacts) ;;;
  match w with
  | None => throw
  | Some p =>
      d <- read_db ;;
      ret (filter p (contactsBirthdays d))
  end.

(** [db.insert(contactsBirthdays).values(v).returning()]: the id and
    both timestamps take their column defaults; a primary-key clash, an
    owner that is no user row, or a value its column cannot hold is
    refused by the store. *)
Record ContactValues : Type := mkContactValues {
  v_userId : Uuid;
  v_name : string;
  v_birthdayYear : option Z;
  v_birthdayMonth : Z;
  v_birthdayDay : Z
}.

Definition values_fit (v : ContactValues) : bool :=
  fits_text (v_name v)
  && match v_birthdayYear v with Some y => fits_int4 y | None => true end
  && fits_int4 (v_birthdayMonth v)
  && fits_int4 (v_birthdayDay v).

Definition insert_contact (e : Env) (v : ContactValues) : M (list Contact) :=
  sent (Insert TContacts) ;;;
  d <- read_db ;;
  if existsb (eq_id (random_uuid e)) (contactsBirthdays d)
     || negb (existsb (fun u => String.eqb (user_id u) (v_userId v)) (users d))
     || negb (values_fit v)
  then throw
  else
    let c := {| id := random_uuid e; userId := v_userId v; name := v_name v;
                birthdayYear := v_birthdayYear v;
                birthdayMonth := v_birthdayMonth v;
                birthdayDay := v_birthdayDay v;
                createdAt := Some (now e); updatedAt := Some (now e) |} in
    write_db {| users := users d; contactsBirthdays := contactsBirthdays d ++ [c] |} ;;;
    ret [c].

(** The [updateData] object of [updateContact]: an absent key leaves
    its column alone. [updatedAt] is always set. *)
Record ContactSet : Type := mkContactSet {
  set_name : option string;
  set_birthdayYear : option (option Z);
  set_birthdayMonth : option Z;
  set_birthdayDay : option Z;
  set_updatedAt : Timestamp
}.

Definition or_else {A : Type} (o : option A) (d : A) : A :=
  match o with Some a => a | None => d end.

Definition apply_set (u : ContactSet) (c : Contact) : Contact :=
  {| id := id c; userId := userId c;
     name := or_else (set_name u) (name c);
     birthdayYear := or_else (set_birthdayYear u) (birthdayYear c);
     birthdayMonth := or_else (set_birthdayMonth u) (birthdayMonth c);
     birthdayDay := or_else (set_birthdayDay u) (birthdayDay c);
     createdAt := createdAt c;
     updatedAt := Some (set_updatedAt u) |}.

Definition set_fits (u : ContactSet) : bool :=
  match set_name u with Some n => fits_text n | None => true end
  && match set_birthdayYear u with Some (Some y) => fits_int4 y | _ => true end
  && match set_birthdayMonth u with Some m => fits_int4 m | None => true end
  && match set_birthdayDay u with Some d => fits_int4 d | None => true end.

(** [db.update(contactsBirthdays).set(u).where(w).returning()]: refused
    when the where-clause is, or when a value of [u] does not fit its
    column. A row is written as keeping its place in the list; the
    store itself promises no order of the rows after an update. *)
Definition update_contacts (u : ContactSet) (w : Where) : M (list Contact) :=
  sent (Update TContacts) ;;;
  match w with
  | None => throw
  | Some p =>
      if negb (set_fits u) then throw
      else
        d <- read_db ;;
        write_db {| users := users d;
                    contactsBirthdays :=
                      map (fun c => if p c then apply_set u c else c)
                          (contactsBirthdays d) |} ;;;
        ret (map (apply_set u) (filter p (contactsBirthdays d)))
  end.

(** [db.delete(contactsBirthdays).where(w)] *)
Definition delete_contacts (w : Where) : M unit :=
  sent (Delete TContacts) ;;;
  match w with
  | None => throw
  | Some p =>
      d <- read_db ;;
      write_db {| users := users d;
                  contactsBirthdays :=
                    filter (fun c => negb (p c)) (contactsBirthdays d) |}
  end.

(** [db.insert(users).values({clerkUserId, email})
      .onConflictDoUpdate({target: users.clerkUserId, set: {email, updatedAt}})]:
    a row with that external id is updated in place, where an
    [undefined] value in [set] leaves its column alone; otherwise a row
    is inserted with the column defaults. *)
Definition conflict_update (em : option string) (t : Timestamp) (u : User) : User :=
  {| user_id := user_id u; clerkUserId := clerkUserId u;
     email := match em with Some a => Some a | None => email u end;
     user_createdAt := user_createdAt u;
     user_updatedAt := Some t |}.

Definition on_conflict (cid : string) (em : option string) (t : Timestamp) (u : User) : User :=
  if eq_clerkUserId cid u then conflict_update em t u else u.

Definition upsert_user (e : Env) (cid : string) (em : option string) (t : Timestamp) : M unit :=
  sent (Insert TUsers) ;;;
  d <- read_db ;;
  if existsb (eq_clerkUserId cid) (users d)
  then
    write_db {| users := map (on_conflict cid em t) (users d);
                contactsBirthdays := contactsBirthdays d |}
  else if existsb (fun u => String.eqb (user_id u) (random_uuid e)) (users d)
  then throw
  else
    write_db {| users := users d ++
                  [ {| user_id := random_uuid e; clerkUserId := cid; email := em;
                       user_createdAt := Some (now e);
                       user_updatedAt := Some (now e) |} ];
                contactsBirthdays := contactsBirthdays d |}.

(* ================================================================== *)
(** ** Body validation (the zod schemas of the contacts controller) *)

Module Zod.

Record Issue : Type := mkIssue {
  path : list string;
  message : option string               (* [None]: a text of the library's own *)
}.

Definition invalid_type (p : list string) : Issue := {| path := p; message := None |}.
Definition custom (p : list string) (m : string) : Issue := {| path := p; message := Some m |}.

(** A parse either yields the issues found (never an empty list) or a value. *)
Definition Parse (A : Type) : Type := (list Issue + A)%type.

Definition issues_of {A : Type} (r : Parse A) : list Issue :=
  match r with inl l => l | inr _ => [] end.

Definition checked {A : Type} (issues : list Issue) (a : A) : Parse A :=
  match issues with [] => inr a | _ => inl issues end.

Definition is_integer (q : Q) : bool := (Qnum q mod Zpos (Qden q)) =? 0.
Definition integer_value (q : Q) : Z := Qnum q / Zpos (Qden q).

(** [Number.isSafeInteger], of an integer. *)
Definition MAX_SAFE_INTEGER : Z := 9007199254740991.

Definition is_safe (q : Q) : bool :=
  Qle_bool (inject_Z (- MAX_SAFE_INTEGER)) q && Qle_bool q (inject_Z MAX_SAFE_INTEGER).

(** The integer check of [.int()] on an integer: one beyond the safe
    range is reported, in the library's text, and the checks go on. *)
Definition unsafe_integer (p : list string) : Issue := {| path := p; message := None |}.

Definition safe_check (p : list string) (q : Q) : list Issue :=
  if is_safe q then [] else [unsafe_integer p].

(** [z.string().min(1, m)] *)
Definition string_min1 (m : string) (p : list string) (v : option json) : Parse string :=
  match v with
  | Some (JStr s) =>
      checked (if (String.length s <? 1)%nat then [custom p m] else []) s
  | _ => inl [invalid_type p]
  end.

(** [z.number().int().min(lo, m).max(hi, m)]: a number that is no
    integer is reported as such and the checks end there; for an
    integer the safe-range check and both range checks run. *)
Definition int_between (lo hi : Z) (m : string) (p : list string) (v : option json) : Parse Z :=
  match v with
  | Some (JNum q) =>
      if is_integer q
      then checked (safe_check p q
                    ++ (if Qle_bool (inject_Z lo) q then [] else [custom p m])
                    ++ (if Qle_bool q (inject_Z hi) then [] else [custom p m]))
                   (integer_value q)
      else inl [invalid_type p]
  | _ => inl [invalid_type p]
  end.

(** [z.number().int()] *)
Definition int_ (p : list string) (v : option json) : Parse Z :=
  match v with
  | Some (JNum q) =>
      if is_integer q then checked (safe_check p q) (integer_value q)
      else inl [invalid_type p]
  | _ => inl [invalid_type p]
  end.

(** [.nullable()] and [.optional()] *)
Definition nullable {A : Type} (inner : option json -> Parse A) (v : option json)
  : Parse (option A) :=
  match v with
  | Some JNull => inr None
  | _ => match inner v with inl l => inl l | inr a => inr (Some a) end
  end.

Definition optional {A : Type} (inner : option json -> Parse A) (v : option json)
  : Parse (option A) :=
  match v with
  | None => inr None
  | _ => match inner v with inl l => inl l | inr a => inr (Some a) end
  end.

End Zod.
Import Zod.

Definition month_message : string := "Month must be between 1 and 12".
Definition day_message : string := "Day must be between 1 and 31".

(** Parsed bodies. In [birthdayYear], [None] is an absent key and
    [Some None] is [null]. *)
Record CreateData : Type := mkCreateData {
  c_name : string;
  c_birthdayMonth : Z;
  c_birthdayDay : Z;
  c_birthdayYear : option (option Z)
}.

Record UpdateData : Type := mkUpdateData {
  u_name : option string;
  u_birthdayMonth : option Z;
  u_birthdayDay : option Z;
  u_birthdayYear : option (option Z)
}.

Definition createContactSchema (b : json) : Parse CreateData :=
  match b with
  | JObj _ =>
      let n := string_min1 "Name is required" ["name"] (prop b "name") in
      let m := int_between 1 12 month_message ["birthdayMonth"] (prop b "birthdayMonth") in
      let d := int_between 1 31 day_message ["birthdayDay"] (prop b "birthdayDay") in
      let y := optional (nullable (int_ ["birthdayYear"])) (prop b "birthdayYear") in
      match n, m, d, y with
      | inr n', inr m', inr d', inr y' =>
          inr {| c_name := n'; c_birthdayMonth := m'; c_birthdayDay := d';
                 c_birthdayYear := y' |}
      | _, _, _, _ => inl (issues_of n ++ issues_of m ++ issues_of d ++ issues_of y)%list
      end
  | _ => inl [invalid_type []]
  end.

Definition present {A : Type} (o : option A) : nat :=
  match o with Some _ => 1%nat | None => 0%nat end.

(** [Object.keys(data).length]: the keys of the schema the body carries. *)
Definition keys_length (u : UpdateData) : nat :=
  (present (u_name u) + present (u_birthdayMonth u)
   + present (u_birthdayDay u) + present (u_birthdayYear u))%nat.

Definition updateContactSchema (b : json) : Parse UpdateData :=
  match b with
  | JObj _ =>
      let n := optional (string_min1 "Name cannot be empty" ["name"]) (prop b "name") in
      let m := optional (int_between 1 12 month_message ["birthdayMonth"])
                        (prop b "birthdayMonth") in
      let d := optional (int_between 1 31 day_message ["birthdayDay"])
                        (prop b "birthdayDay") in
      let y := optional (nullable (int_ ["birthdayYear"])) (prop b "birthdayYear") in
      match n, m, d, y with
      | inr n', inr m', inr d', inr y' =>
          let data := {| u_name := n'; u_birthdayMonth := m'; u_birthdayDay := d';
                         u_birthdayYear := y' |} in
          if (0 <? keys_length data)%nat then inr data
          else inl [custom [] "At least one field must be provided for update"]
      | _, _, _, _ => inl (issues_of n ++ issues_of m ++ issues_of d ++ issues_of y)%list
      end
  | _ => inl [invalid_type []]
  end.

Definition formatZodError (issues : list Issue) : list FieldError :=
  map (fun issue => {| field := join "." (path issue);
                       message_text := message issue |}) issues.

(* ================================================================== *)
(** ** Responses *)

Inductive ResponseBody : Type :=
| JsonError (error : string)            (* { error } *)
| JsonErrors (errors : list FieldError) (* { errors } *)
| JsonContact (c : Contact)
| JsonContacts (cs : list Contact)
| JsonUndefined                         (* res.json(undefined) *)
| JsonSuccess                           (* { success: true } *)
| NoContent.                            (* res.send() *)

Record Response : Type := mkResponse {
  status : Z;
  payload : ResponseBody
}.

Definition res_status (code : Z) (b : ResponseBody) : Response :=
  {| status := code; payload := b |}.

(** [res.json(b)] with the default status. *)
Definition res_json (b : ResponseBody) : Response := res_status 200 b.

Definition internal_error : Response := res_status 500 (JsonError "Internal server error").

Definition Handler : Type := Env -> Request -> Store -> Response * Store.

(** [rows[0]] sent as JSON. *)
Definition first_row (rows : list Contact) : ResponseBody :=
  match rows with c :: _ => JsonContact c | [] => JsonUndefined end.

(* ================================================================== *)
(** ** Contacts controller *)

(** [!clerkUserId] *)
Definition no_identity (a : option string) : bool :=
  match a with Some s => negb (truthy_string s) | None => true end.

(** The helper answers by itself (left) or hands back the user row. *)
Definition getAuthenticatedUser (req : Request) : M (Response + User) :=
  let clerkUserId := auth_userId req in
  if no_identity clerkUserId
  then ret (inl (res_status 401 (JsonError "Unauthorized")))
  else
    rows <- select_users (eq_clerkUserId (or_else clerkUserId EmptyString)) ;;
    match limit 1 rows with
    | [] => ret (inl (res_status 404 (JsonError "User not found")))
    | userRecord :: _ => ret (inr userRecord)
    end.

Definition getContacts : Handler := fun _ req =>
  try_catch
    (r <- getAuthenticatedUser req ;;
     match r with
     | inl sent_response => ret sent_response
     | inr userRecord =>
         contacts <- select_contacts (where_userId (user_id userRecord)) ;;
         ret (res_json (JsonContacts contacts))
     end)
    internal_error.

Definition getContactById : Handler := fun _ req =>
  let id := params_id req in
  try_catch
    (r <- getAuthenticatedUser req ;;
     match r with
     | inl sent_response => ret sent_response
     | inr userRecord =>
         rows <- select_contacts (where_owned id (user_id userRecord)) ;;
         match limit 1 rows with
         | [] => ret (res_status 404 (JsonError "Contact not found"))
         | contact :: _ => ret (res_json (JsonContact contact))
         end
     end)
    internal_error.

Definition createContact : Handler := fun e req =>
  match createContactSchema (body req) with
  | inl issues => fun s => (res_status 400 (JsonErrors (formatZodError issues)), s)
  | inr data =>
      try_catch
        (r <- getAuthenticatedUser req ;;
         match r with
         | inl sent_response => ret sent_response
         | inr userRecord =>
             newContact <- insert_contact e
               {| v_userId := user_id userRecord;
                  v_name := c_name data;
                  v_birthdayYear := or_else (c_birthdayYear data) None;
                  v_birthdayMonth := c_birthdayMonth data;
                  v_birthdayDay := c_birthdayDay data |} ;;
             ret (res_status 201 (first_row newContact))
         end)
        internal_error
  end.

Definition updateContact : Handler := fun e req =>
  let id := params_id req in
  match updateContactSchema (body req) with
  | inl issues => fun s => (res_status 400 (JsonErrors (formatZodError issues)), s)
  | inr data =>
      try_catch
        (r <- getAuthenticatedUser req ;;
         match r with
         | inl sent_response => ret sent_response
         | inr userRecord =>
             let owned := where_owned id (user_id userRecord) in
             existing <- select_contacts owned ;;
             match limit 1 existing with
             | [] => ret (res_status 404 (JsonError "Contact not found"))
             | _ :: _ =>
                 let updateData :=
                   {| set_name := u_name data;
                      set_birthdayYear := u_birthdayYear data;
                      set_birthdayMonth := u_birthdayMonth data;
                      set_birthdayDay := u_birthdayDay data;
                      set_updatedAt := now e |} in
                 updatedContact <- update_contacts updateData owned ;;
                 ret (res_json (first_row updatedContact))
             end
         end)
        internal_error
  end.

Definition deleteContact : Handler := fun _ req =>
  let id := params_id req in
  try_catch
    (r <- getAuthenticatedUser req ;;
     match r with
     | inl sent_response => ret sent_response
     | inr userRecord =>
         let owned := where_owned id (user_id userRecord) in
         existing <- select_contacts owned ;;
         match limit 1 existing with
         | [] => ret (res_status 404 (JsonError "Contact not found"))
         | _ :: _ =>
             delete_contacts owned ;;;
             ret (res_status 204 NoContent)
         end
     end)
    internal_error.

(** routes/contacts.ts *)
Inductive ContactsRoute : Type :=
| GET_contacts
| GET_contact
| POST_contacts
| PUT_contact
| DELETE_contact.

Definition contactsRouter (r : ContactsRoute) : Handler :=
  match r with
  | GET_contacts => getContacts
  | GET_contact => getContactById
  | POST_contacts => createContact
  | PUT_contact => updateContact
  | DELETE_contact => deleteContact
  end.

Definition contact_not_found : Response := res_status 404 (JsonError "Contact not found").

(** The value a valid update body supplies under a key, if any. *)
Definition given_text (v : option json) : option string :=
  match v with Some (JStr t) => Some t | _ => None end.

Definition given_int (v : option json) : option Z :=
  match v with Some (JNum q) => Some (integer_value q) | _ => None end.

Definition given_year (v : option json) : option (option Z) :=
  match v with
  | Some JNull => Some None
  | Some (JNum q) => Some (Some (integer_value q))
  | _ => None
  end.


(** What the validation guarantees of a row written through the API,
    and a store whose rows all have it. *)
Definition valid_row (c : Contact) : Prop :=
  name c <> EmptyString
  /\ 1 <= birthdayMonth c <= 12
  /\ 1 <= birthdayDay c <= 31.

Definition store_ok (d : Db) : Prop :=
  db_constraints d /\ Forall valid_row (contactsBirthdays d).

(** The request sent again under another id. *)
Definition with_id (req : Request) (i : Uuid) : Request :=
  {| auth_userId := auth_userId req; params_id := IdUuid i;
     parsed_body := parsed_body req |}.

(** The issues a route finds in the body before it looks at anything
    else: only the create and update routes validate a body. *)
Definition body_rejected (r : ContactsRoute) (req : Request) : option (list Issue) :=
  match r with
  | POST_contacts =>
      match createContactSchema (body req) with inl issues => Some issues | inr _ => None end
  | PUT_contact =>
      match updateContactSchema (body req) with inl issues => Some issues | inr _ => None end
  | _ => None
  end.

(** A birth year as a body gives it: the key is absent, or [null], or
    an integer (the schemas accept those of the safe range). *)
Definition year_given (v : option json) (y : option Z) : Prop :=
  (v = None /\ y = None)
  \/ (v = Some JNull /\ y = None)
  \/ (exists z, v = Some (JNum (inject_Z z)) /\ y = Some z).

(* ================================================================== *)
(** ** Users controller *)

Definition syncUser : Handler := fun e req =>
  let authUserId := auth_userId req in
  if no_identity authUserId
  then fun s => (res_status 401 (JsonError "Unauthorized"), s)
  else
    try_catch
      (match clerk_emailAddresses e (or_else authUserId EmptyString) with
       | None => throw
       | Some emailAddresses =>
           let email := hd_error emailAddresses in
           upsert_user e (or_else authUserId EmptyString) email (now e) ;;;
           ret (res_json JsonSuccess)
       end)
      internal_error.

(** The sync endpoint called once per environment of the list, in
    order, by the same caller. *)
Definition sync_all (req : Request) (envs : list Env) (s : Store) : Store :=
  fold_left (fun st e => snd (syncUser e req st)) envs s.

(** The rows of the other identities. *)
Definition others (cid : string) (l : list User) : list User :=
  filter (fun u => negb (eq_clerkUserId cid u)) l.

(* ================================================================== *)
(** ** Assistant controller *)

(** One cycle of the completion service: what the model produced, and
    the output of the tool it called, if the call ran. *)
Inductive ModelTurn : Type :=
| Finish (text : string)
| CallTool (toolName : string).

Record Step : Type := mkStep {
  turn : ModelTurn;
  toolOutput : option string
}.

(** Modelled from the spec: the stop condition [stepCountIs(n)] of the
    completion library, which holds once [n] steps were made. *)
Definition stepCountIs (n : nat) (steps : list Step) : bool :=
  Nat.eqb (length steps) n.

Record Tool : Type := mkTool {
  description : string;
  inputSchema : list string;            (* the keys of the input object *)
  execute : M string
}.

Definition getUserId (clerkUserId : string) : M (option Uuid) :=
  rows <- select_users (eq_clerkUserId clerkUserId) ;;
  match limit 1 rows with
  | userRecord :: _ => ret (Some (user_id userRecord))
  | [] => ret None
  end.

Definition user_not_found_text : string :=
  "User not found. Please ensure you are logged in.".

Definition no_contacts_text : string :=
  "No contacts found. The user hasn't added any birthdays yet.".

Definition getContacts_execute (userId : option Uuid) : M string :=
  if no_identity userId
  then ret user_not_found_text
  else
    contacts <- select_contacts (where_userId (or_else userId EmptyString)) ;;
    if Nat.eqb (length contacts) 0
    then ret no_contacts_text
    else
      let contactList := join newline (map formatContact (map selected contacts)) in
      ret (show_nat (length contacts) ++ " contact(s):" ++ newline ++ contactList).

Definition createTools (userId : option Uuid) : list (string * Tool) :=
  [ ("getContacts",
     {| description := "Get all contacts and their birthdays. Use when user asks about birthdays, contacts, upcoming celebrations, or specific people.";
        inputSchema := [];
        execute := getContacts_execute userId |}) ].

Section Assistant.

(** The message conversion of the completion library is taken as
    given; [None] stands for a conversion that throws. The prompt ends
    with the date printed when the module was loaded. *)
Variable ModelMessage : Type.
Variable convertToModelMessages : list json -> option (list ModelMessage).
Variable startup_date : string.

Definition SYSTEM_PROMPT : string :=
  "You are Wishday Assistant, a friendly AI for managing birthdays and celebrations." ++ newline
  ++ newline
  ++ "CAPABILITIES:" ++ newline
  ++ "- Look up user's contacts and birthdays using the getContacts tool" ++ newline
  ++ "- Suggest gift ideas based on contact notes/preferences" ++ newline
  ++ "- Help with celebration planning tips" ++ newline
  ++ newline
  ++ "INSTRUCTIONS:" ++ newline
  ++ "- Use getContacts when users ask about birthdays, contacts, or specific people" ++ newline
  ++ "- After using a tool, respond naturally with the results" ++ newline
  ++ "- Be warm and concise, use occasional emojis 🎂" ++ newline
  ++ "- Keep responses SHORT (max 2-3 sentences for simple questions, max 5-6 for complex ones)" ++ newline
  ++ "- For lists, show max 5 items unless user asks for more" ++ newline
  ++ "- Avoid long explanations or verbose formatting" ++ newline
  ++ newline
  ++ "Today's date: " ++ startup_date.

(** The options object handed to [streamText]. *)
Record StreamCall : Type := mkStreamCall {
  model : string;
  system : string;
  messages : list ModelMessage;
  stopWhen : list Step -> bool;
  tools : list (string * Tool)
}.

(** The handler answers by itself or pipes the stream of a completion
    call to the response. *)
Inductive ChatResult : Type :=
| Responded (r : Response)
| Piped (call : StreamCall).

Definition array_items (v : option json) : list json :=
  match v with Some (JArr items) => items | _ => [] end.

Definition chatWithAssistant (req : Request) : Store -> ChatResult * Store :=
  try_catch
    (messages <- match parsed_body req with
                 | BodyAbsent => throw  (* destructuring an undefined body *)
                 | _ => ret (prop (body req) "messages")
                 end ;;
     let clerkUserId := auth_userId req in
     if negb (truthy_opt messages) || negb (isArray messages)
     then ret (Responded (res_status 400 (JsonError "Messages array is required")))
     else if no_identity clerkUserId
     then ret (Responded (res_status 401 (JsonError "Unauthorized")))
     else
       userId <- getUserId (or_else clerkUserId EmptyString) ;;
       match convertToModelMessages (array_items messages) with
       | None => throw
       | Some modelMessages =>
           ret (Piped {| model := MODEL;
                         system := SYSTEM_PROMPT;
                         messages := modelMessages;
                         stopWhen := stepCountIs 3;
                         tools := createTools userId |})
       end)
    (Responded internal_error).

(** Modelled from the spec: the step loop of the external completion
    service, which is not part of this repository. A step is one model
    invocation together with the tool invocation it asks for; a tool is
    run only if the call binds it under the name the model gives, and
    its output is fed back before generation continues; the loop goes
    on while the model asks for a tool and the stop condition does not
    hold of the steps made. [llm] is the model, any function of the
    steps so far; [None] is returned when [fuel] cycles did not reach
    the end. *)
Fixpoint run_steps (llm : list Step -> ModelTurn) (call : StreamCall)
         (fuel : nat) (steps : list Step) : M (option (list Step)) :=
  match fuel with
  | O => ret None
  | S fuel' =>
      match llm steps with
      | Finish text =>
          ret (Some (steps ++ [ {| turn := Finish text; toolOutput := None |} ])%list)
      | CallTool toolName =>
          out <- match assoc toolName (tools call) with
                 | Some t => (o <- execute t ;; ret (Some o))
                 | None => ret None
                 end ;;
          let steps' := (steps ++ [ {| turn := CallTool toolName; toolOutput := out |} ])%list in
          if stopWhen call steps' then ret (Some steps')
          else run_steps llm call fuel' steps'
      end
  end.

End Assistant.

Arguments Responded {ModelMessage} r.
Arguments Piped {ModelMessage} call.

(** What one tool-calling step may do under the tools of [createTools]. *)
Definition step_reads_contacts_only (uid : option Uuid) (d : Db) (st : Step) : Prop :=
  forall o, toolOutput st = Some o ->
            turn st = CallTool "getContacts"
            /\ exists sx, db sx = d /\ fst (getContacts_execute uid sx) = Returned o.

(* ================================================================== *)
(** ** The handlers in closed form

    Names for the pieces the handlers are made of, used to state what a
    handler returns on a given store. *)

(** The store after further statements were sent. *)
Definition logged (s : Store) (l : list Statement) : Store :=
  {| db := db s; log := (log s ++ l)%list |}.

Definition unauthorized : Response := res_status 401 (JsonError "Unauthorized").
Definition user_not_found : Response := res_status 404 (JsonError "User not found").

(** The first user row that carries the external id of the request. *)
Definition resolved_user (req : Request) (d : Db) : option User :=
  hd_error (filter (eq_clerkUserId (or_else (auth_userId req) EmptyString)) (users d)).

(** The internal id under which a request acts, if it has one. *)
Definition caller_id (req : Request) (d : Db) : option Uuid :=
  if no_identity (auth_userId req) then None
  else option_map user_id (resolved_user req d).

(** The rows a caller does not own: all of them for a caller without
    internal id. *)
Definition not_owned_by (o : option Uuid) (c : Contact) : bool :=
  match o with
  | Some uid => negb (eq_userId uid c)
  | None => true
  end.

(** The rows the where-clause of the by-id routes keeps (none for an
    id text the store refuses). *)
Definition owned_by (req : Request) (u : User) : Contact -> bool :=
  match params_id req with
  | IdUuid i => and_ (eq_id i) (eq_userId (user_id u))
  | IdText _ => fun _ => false
  end.

(** Whether the id of the request spells a uuid. *)
Definition id_is_uuid (req : Request) : bool :=
  match params_id req with IdUuid _ => true | IdText _ => false end.

(** The request sent again with a text that spells no uuid as its id. *)
Definition with_text (req : Request) (t : string) : Request :=
  {| auth_userId := auth_userId req; params_id := IdText t;
     parsed_body := parsed_body req |}.

(** The row [createContact] inserts for a caller and a parsed body. *)
Definition new_contact (e : Env) (u : User) (data : CreateData) : Contact :=
  {| id := random_uuid e; userId := user_id u; name := c_name data;
     birthdayYear := or_else (c_birthdayYear data) None;
     birthdayMonth := c_birthdayMonth data;
     birthdayDay := c_birthdayDay data;
     createdAt := Some (now e); updatedAt := Some (now e) |}.

(** The [updateData] object [updateContact] builds from a parsed body. *)
Definition update_set (e : Env) (data : UpdateData) : ContactSet :=
  {| set_name := u_name data;
     set_birthdayYear := u_birthdayYear data;
     set_birthdayMonth := u_birthdayMonth data;
     set_birthdayDay := u_birthdayDay data;
     set_updatedAt := now e |}.

(** The values [createContact] hands to the insert. *)
Definition new_values (u : User) (data : CreateData) : ContactValues :=
  {| v_userId := user_id u;
     v_name := c_name data;
     v_birthdayYear := or_else (c_birthdayYear data) None;
     v_birthdayMonth := c_birthdayMonth data;
     v_birthdayDay := c_birthdayDay data |}.

(** Whether the store refuses the insert of a contact row. *)
Definition insert_refused (e : Env) (u : User) (data : CreateData) (d : Db) : bool :=
  existsb (eq_id (random_uuid e)) (contactsBirthdays d)
  || negb (existsb (fun x => String.eqb (user_id x) (user_id u)) (users d))
  || negb (values_fit (new_values u data)).

(** The text the lookup tool returns for a list of selected rows. *)
Definition contacts_text (contacts : list Contact) : string :=
  if Nat.eqb (length contacts) 0
  then no_contacts_text
  else show_nat (length contacts) ++ " contact(s):" ++ newline
       ++ join newline (map formatContact (map selected contacts)).

(** A contact with another birth year. *)
Definition with_year (c : Contact) (y : option Z) : Contact :=
  {| id := id c; userId := userId c; name := name c;
     birthdayYear := y; birthdayMonth := birthdayMonth c;
     birthdayDay := birthdayDay c;
     createdAt := createdAt c; updatedAt := updatedAt c |}.

(** A birth year value the schemas let through, and the bodies the
    create schema lets through, said without the parser. *)
Definition year_accepted (v : option json) : Prop :=
  v = None \/ v = Some JNull
  \/ exists q, v = Some (JNum q) /\ is_integer q = true /\ is_safe q = true.

Definition create_accepts (b : json) (data : CreateData) : Prop :=
  exists n qm qd,
    prop b "name" = Some (JStr n) /\ n <> EmptyString
    /\ prop b "birthdayMonth" = Some (JNum qm) /\ is_integer qm = true
    /\ (1 <= qm <= 12)%Q
    /\ prop b "birthdayDay" = Some (JNum qd) /\ is_integer qd = true
    /\ (1 <= qd <= 31)%Q
    /\ year_accepted (prop b "birthdayYear")
    /\ data = {| c_name := n;
                 c_birthdayMonth := integer_value qm;
                 c_birthdayDay := integer_value qd;
                 c_birthdayYear := given_year (prop b "birthdayYear") |}.

(** The same for the update schema: every key is optional, and at
    least one of the four must be there. *)
Definition text_accepted (v : option json) : Prop :=
  v = None \/ exists n, v = Some (JStr n) /\ n <> EmptyString.

Definition int_accepted (lo hi : Z) (v : option json) : Prop :=
  v = None
  \/ exists q, v = Some (JNum q) /\ is_integer q = true
                /\ (inject_Z lo <= q <= inject_Z hi)%Q.

Definition update_accepts (b : json) (data : UpdateData) : Prop :=
  (exists members, b = JObj members)
  /\ text_accepted (prop b "name")
  /\ int_accepted 1 12 (prop b "birthdayMonth")
  /\ int_accepted 1 31 (prop b "birthdayDay")
  /\ year_accepted (prop b "birthdayYear")
  /\ (prop b "name" <> None \/ prop b "birthdayMonth" <> None
      \/ prop b "birthdayDay" <> None \/ prop b "birthdayYear" <> None)
  /\ data = {| u_name := given_text (prop b "name");
               u_birthdayMonth := given_int (prop b "birthdayMonth");
               u_birthdayDay := given_int (prop b "birthdayDay");
               u_birthdayYear := given_year (prop b "birthdayYear") |}.

(* ================================================================== *)
(** ** Sample data *)

Definition ada (y : option Z) : Contact :=
  {| id := "c-1"; userId := "u-1"; name := "Ada";
     birthdayYear := y; birthdayMonth := 12; birthdayDay := 10;
     createdAt := Some 0; updatedAt := Some 0 |}.

(** A user whose one contact is Ada. *)
Definition db_with_ada (y : option Z) : Db :=
  {| users := [ {| user_id := "u-1"; clerkUserId := "clerk_1"; email := None;
                   user_createdAt := Some 0; user_updatedAt := Some 0 |} ];
     contactsBirthdays := [ ada y ] |}.

Definition db_one_user : Db :=
  {| users := [ {| user_id := "u-1"; clerkUserId := "clerk_1"; email := None;
                   user_createdAt := Some 0; user_updatedAt := Some 0 |} ];
     contactsBirthdays := [] |}.

(** A chat request that carries no identity and a text where the
    message list should be. *)
Definition chat_anonymous_text : Request :=
  {| auth_userId := None; params_id := IdText EmptyString;
     parsed_body := BodyObject [ ("messages", JStr "what are my birthdays") ] |}.

Definition chat_signed_in : Request :=
  {| auth_userId := Some "clerk_1"; params_id := IdText EmptyString;
     parsed_body := BodyObject [ ("messages", JArr [ JStr "what are my birthdays" ]) ] |}.

(** A message conversion that keeps the messages as they are. *)
Definition keep_messages (l : list json) : option (list json) := Some l.

Definition sample_env : Env :=
  {| now := 1000; random_uuid := "c-new";
     clerk_emailAddresses := fun _ => Some [ "ada@example.org" ] |}.

(** Two users; the first owns one contact. *)
Definition user_a : User :=
  {| user_id := "u-a"; clerkUserId := "clerk_a"; email := None;
     user_createdAt := Some 0; user_updatedAt := Some 0 |}.

Definition user_b : User :=
  {| user_id := "u-b"; clerkUserId := "clerk_b"; email := None;
     user_createdAt := Some 0; user_updatedAt := Some 0 |}.

Definition contact_of_a : Contact :=
  {| id := "c-1"; userId := "u-a"; name := "Ada";
     birthdayYear := Some 1815; birthdayMonth := 12; birthdayDay := 10;
     createdAt := Some 0; updatedAt := Some 0 |}.

Definition db_two_users : Db :=
  {| users := [ user_a; user_b ]; contactsBirthdays := [ contact_of_a ] |}.

(** Requests of the second user, and of an identity never synced. *)
Definition by_b (i : string) (b : list (string * json)) : Request :=
  {| auth_userId := Some "clerk_b"; params_id := IdUuid i; parsed_body := BodyObject b |}.

Definition by_stranger (b : list (string * json)) : Request :=
  {| auth_userId := Some "clerk_z"; params_id := IdUuid "c-1";
     parsed_body := BodyObject b |}.

(** February 31st: each field is in its own range. *)
Definition ada_february_31 : list (string * json) :=
  [ ("name", JStr "Ada"); ("birthdayMonth", JNum (inject_Z 2));
    ("birthdayDay", JNum (inject_Z 31)) ].

(** The same body with the year given as a text. *)
Definition ada_year_as_text : list (string * json) :=
  [ ("name", JStr "Ada"); ("birthdayMonth", JNum (inject_Z 2));
    ("birthdayDay", JNum (inject_Z 31)); ("birthdayYear", JStr "1815") ].

(** A name that holds a line break, and the row the create route
    stores for it. *)
Definition two_line_name_body : list (string * json) :=
  [ ("name", JStr ("Ada" ++ newline ++ "Lovelace"));
    ("birthdayMonth", JNum (inject_Z 12)); ("birthdayDay", JNum (inject_Z 10));
    ("birthdayYear", JNum (inject_Z 1815)) ].

Definition two_line_contact : Contact :=
  {| id := "c-new"; userId := "u-a"; name := "Ada" ++ newline ++ "Lovelace";
     birthdayYear := Some 1815; birthdayMonth := 12; birthdayDay := 10;
     createdAt := Some 1000; updatedAt := Some 1000 |}.



Definition sync_by_z : Request :=
  {| auth_userId := Some "clerk_z"; params_id := IdText EmptyString;
     parsed_body := BodyObject [] |}.

Definition later_env : Env :=
  {| now := 2000; random_uuid := "u-other";
     clerk_emailAddresses := fun _ => Some [ "z@example.org" ] |}.

(** A request without identity, requests of the first user, and a row
    whose month is outside the table of month names. *)
Definition by_nobody : Request :=
  {| auth_userId := None; params_id := IdUuid "c-1"; parsed_body := BodyObject [] |}.

Definition by_a (i : string) (b : list (string * json)) : Request :=
  {| auth_userId := Some "clerk_a"; params_id := IdUuid i; parsed_body := BodyObject b |}.

Definition ada_month_13 : Contact :=
  {| id := "c-1"; userId := "u-a"; name := "Ada";
     birthdayYear := None; birthdayMonth := 13; birthdayDay := 10;
     createdAt := Some 0; updatedAt := Some 0 |}.

(** Chat requests of the first user and of an identity never synced. *)
Definition chat_by (cid : string) : Request :=
  {| auth_userId := Some cid; params_id := IdText EmptyString;
     parsed_body := BodyObject [ ("messages", JArr [ JStr "what are my birthdays" ]) ] |}.

(* ================================================================== *)
(** * Properties *)

(** ** Lists and queries *)

Lemma truthy_string_true (s : string) : truthy_string s = true <-> s <> EmptyString.
Proof.
  destruct s; simpl; split; intro H; congruence.
Qed.

Lemma no_identity_some (s : string) : s <> EmptyString -> no_identity (Some s) = false.
Proof.
  intro H. unfold no_identity. apply truthy_string_true in H. now rewrite H.
Qed.

Lemma filter_none {A : Type} (p : A -> bool) (l : list A) :
  (forall x, In x l -> p x = false) -> filter p l = [].
Proof.
  induction l as [|a l IH]; intro H; simpl.
  - reflexivity.
  - rewrite (H a (or_introl eq_refl)). apply IH. intros x Hx. apply H. now right.
Qed.

(** A unique key selects the one row that carries it. *)
Lemma filter_key_unique {A : Type} (key : A -> string) (l : list A) (x : A) :
  NoDup (map key l) -> In x l ->
  filter (fun y => String.eqb (key y) (key x)) l = [x].
Proof.
  induction l as [|a l IH]; intros Hnd Hin; simpl in *.
  - contradiction.
  - inversion Hnd as [|? ? Hnotin Hnd']; subst.
    destruct Hin as [-> | Hin].
    + rewrite String.eqb_refl. f_equal.
      apply filter_none. intros y Hy.
      apply String.eqb_neq. intro E. apply Hnotin. rewrite <- E. now apply in_map.
    + assert (key a <> key x) as Hne.
      { intro E. apply Hnotin. rewrite E. now apply in_map. }
      apply String.eqb_neq in Hne. rewrite Hne. now apply IH.
Qed.

Lemma key_injective {A : Type} (key : A -> string) (l : list A) (x y : A) :
  NoDup (map key l) -> In x l -> In y l -> key x = key y -> x = y.
Proof.
  intros Hnd Hx Hy E.
  pose proof (filter_key_unique key l x Hnd Hx) as Fx.
  assert (In y (filter (fun z => String.eqb (key z) (key x)) l)) as Hin.
  { apply filter_In. split; [assumption|]. rewrite E. apply String.eqb_refl. }
  rewrite Fx in Hin. destruct Hin as [-> | []]. reflexivity.
Qed.

(** ** What each handler computes *)

Lemma getAuthenticatedUser_eq (req : Request) (s : Store) :
  getAuthenticatedUser req s
  = if no_identity (auth_userId req)
    then (Returned (inl unauthorized), s)
    else match resolved_user req (db s) with
         | Some u => (Returned (inr u), logged s [Select TUsers])
         | None => (Returned (inl user_not_found), logged s [Select TUsers])
         end.
Proof.
  unfold getAuthenticatedUser, resolved_user.
  destruct (no_identity (auth_userId req)); [reflexivity|].
  unfold bind, select_users, bind, sent, read_db, ret. simpl.
  destruct (filter _ (users (db s))); reflexivity.
Qed.

Lemma resolved_user_in (req : Request) (d : Db) (u : User) :
  resolved_user req d = Some u ->
  In u (users d) /\ clerkUserId u = or_else (auth_userId req) EmptyString.
Proof.
  unfold resolved_user.
  destruct (filter _ (users d)) as [|x rest] eqn:E; simpl; [discriminate|].
  intro H. injection H as <-.
  assert (In x (filter (eq_clerkUserId (or_else (auth_userId req) EmptyString))
                       (users d))) as Hin by (rewrite E; now left).
  apply filter_In in Hin. destruct Hin as [Hin Hc]. split; [exact Hin|].
  now apply String.eqb_eq in Hc.
Qed.

Lemma resolved_user_none (req : Request) (d : Db) :
  resolved_user req d = None ->
  forall u, In u (users d) -> clerkUserId u <> or_else (auth_userId req) EmptyString.
Proof.
  unfold resolved_user.
  destruct (filter _ (users d)) as [|x rest] eqn:E; simpl; [|discriminate].
  intros _ u Hu Hc.
  assert (In u (filter (eq_clerkUserId (or_else (auth_userId req) EmptyString))
                       (users d))) as Hin.
  { apply filter_In. split; [exact Hu|]. unfold eq_clerkUserId. now apply String.eqb_eq. }
  rewrite E in Hin. destruct Hin.
Qed.

Lemma resolved_user_same_users (req : Request) (d1 d2 : Db) :
  users d1 = users d2 -> resolved_user req d1 = resolved_user req d2.
Proof. intro H. unfold resolved_user. now rewrite H. Qed.

Lemma resolved_user_unique (req : Request) (d : Db) (u : User) :
  NoDup (map clerkUserId (users d)) -> In u (users d) ->
  auth_userId req = Some (clerkUserId u) ->
  resolved_user req d = Some u.
Proof.
  intros Hnd Hu Hauth. unfold resolved_user. rewrite Hauth. simpl.
  change (eq_clerkUserId (clerkUserId u))
    with (fun y => String.eqb (clerkUserId y) (clerkUserId u)).
  now rewrite (filter_key_unique clerkUserId _ _ Hnd Hu).
Qed.

Lemma where_owned_eq (req : Request) (u : User) :
  where_owned (params_id req) (user_id u)
  = if id_is_uuid req then Some (owned_by req u) else None.
Proof. unfold where_owned, id_is_uuid, owned_by. destruct (params_id req); reflexivity. Qed.

Lemma getContacts_eq (e : Env) (req : Request) (s : Store) :
  getContacts e req s
  = if no_identity (auth_userId req) then (unauthorized, s)
    else match resolved_user req (db s) with
         | None => (user_not_found, logged s [Select TUsers])
         | Some u =>
             (res_json (JsonContacts (filter (eq_userId (user_id u))
                                             (contactsBirthdays (db s)))),
              logged (logged s [Select TUsers]) [Select TContacts])
         end.
Proof.
  unfold getContacts, try_catch, bind at 1. rewrite getAuthenticatedUser_eq.
  destruct (no_identity (auth_userId req)); [reflexivity|].
  destruct (resolved_user req (db s)); reflexivity.
Qed.

Lemma getContactById_eq (e : Env) (req : Request) (s : Store) :
  getContactById e req s
  = if no_identity (auth_userId req) then (unauthorized, s)
    else match resolved_user req (db s) with
         | None => (user_not_found, logged s [Select TUsers])
         | Some u =>
             (if id_is_uuid req
              then match filter (owned_by req u) (contactsBirthdays (db s)) with
                   | [] => contact_not_found
                   | contact :: _ => res_json (JsonContact contact)
                   end
              else internal_error,
              logged (logged s [Select TUsers]) [Select TContacts])
         end.
Proof.
  unfold getContactById, try_catch, bind at 1. rewrite getAuthenticatedUser_eq.
  destruct (no_identity (auth_userId req)); [reflexivity|].
  destruct (resolved_user req (db s)) as [u|]; [|reflexivity].
  rewrite where_owned_eq.
  destruct (id_is_uuid req); [|reflexivity].
  unfold bind, select_contacts, bind, sent, read_db, ret. simpl.
  destruct (filter _ (contactsBirthdays (db s))); reflexivity.
Qed.

Lemma createContact_eq (e : Env) (req : Request) (s : Store) :
  createContact e req s
  = match createContactSchema (body req) with
    | inl issues => (res_status 400 (JsonErrors (formatZodError issues)), s)
    | inr data =>
        if no_identity (auth_userId req) then (unauthorized, s)
        else match resolved_user req (db s) with
             | None => (user_not_found, logged s [Select TUsers])
             | Some u =>
                 if insert_refused e u data (db s)
                 then (internal_error,
                       logged (logged s [Select TUsers]) [Insert TContacts])
                 else
                   (res_status 201 (JsonContact (new_contact e u data)),
                    {| db := {| users := users (db s);
                                contactsBirthdays :=
                                  (contactsBirthdays (db s)
                                     ++ [new_contact e u data])%list |};
                       log := ((log s ++ [Select TUsers]) ++ [Insert TContacts])%list |})
             end
    end.
Proof.
  unfold createContact.
  destruct (createContactSchema (body req)) as [issues|data]; [reflexivity|].
  unfold try_catch, bind at 1. rewrite getAuthenticatedUser_eq.
  destruct (no_identity (auth_userId req)); [reflexivity|].
  destruct (resolved_user req (db s)) as [u|]; [|reflexivity].
  unfold bind at 1, insert_contact, bind at 1, sent, bind at 1, read_db. simpl.
  fold (new_values u data). fold (insert_refused e u data (db s)).
  destruct (insert_refused e u data (db s)); reflexivity.
Qed.

Lemma updateContact_eq (e : Env) (req : Request) (s : Store) :
  updateContact e req s
  = match updateContactSchema (body req) with
    | inl issues => (res_status 400 (JsonErrors (formatZodError issues)), s)
    | inr data =>
        if no_identity (auth_userId req) then (unauthorized, s)
        else match resolved_user req (db s) with
             | None => (user_not_found, logged s [Select TUsers])
             | Some u =>
                 if id_is_uuid req
                 then
                   match filter (owned_by req u) (contactsBirthdays (db s)) with
                   | [] => (contact_not_found,
                            logged (logged s [Select TUsers]) [Select TContacts])
                   | existing =>
                       if set_fits (update_set e data)
                       then
                         (res_json (first_row (map (apply_set (update_set e data))
                                                   existing)),
                          {| db := {| users := users (db s);
                                      contactsBirthdays :=
                                        map (fun c => if owned_by req u c
                                                      then apply_set (update_set e data) c
                                                      else c)
                                            (contactsBirthdays (db s)) |};
                             log := (((log s ++ [Select TUsers]) ++ [Select TContacts])
                                       ++ [Update TContacts])%list |})
                       else
                         (internal_error,
                          logged (logged (logged s [Select TUsers]) [Select TContacts])
                                 [Update TContacts])
                   end
                 else (internal_error,
                       logged (logged s [Select TUsers]) [Select TContacts])
             end
    end.
Proof.
  unfold updateContact.
  destruct (updateContactSchema (body req)) as [issues|data]; [reflexivity|].
  unfold try_catch, bind at 1. rewrite getAuthenticatedUser_eq.
  destruct (no_identity (auth_userId req)); [reflexivity|].
  destruct (resolved_user req (db s)) as [u|]; [|reflexivity].
  rewrite where_owned_eq. fold (update_set e data).
  destruct (id_is_uuid req); [|reflexivity].
  unfold bind at 1, select_contacts, bind at 1, sent, bind at 1, read_db, ret. simpl.
  destruct (filter (owned_by req u) (contactsBirthdays (db s))) eqn:E; [reflexivity|].
  unfold bind, update_contacts, bind, sent, read_db, write_db, throw, ret. simpl.
  destruct (set_fits (update_set e data)); simpl; [|reflexivity].
  now rewrite E.
Qed.

Lemma deleteContact_eq (e : Env) (req : Request) (s : Store) :
  deleteContact e req s
  = if no_identity (auth_userId req) then (unauthorized, s)
    else match resolved_user req (db s) with
         | None => (user_not_found, logged s [Select TUsers])
         | Some u =>
             if id_is_uuid req
             then
               match filter (owned_by req u) (contactsBirthdays (db s)) with
               | [] => (contact_not_found,
                        logged (logged s [Select TUsers]) [Select TContacts])
               | _ :: _ =>
                   (res_status 204 NoContent,
                    {| db := {| users := users (db s);
                                contactsBirthdays :=
                                  filter (fun c => negb (owned_by req u c))
                                         (contactsBirthdays (db s)) |};
                       log := (((log s ++ [Select TUsers]) ++ [Select TContacts])
                                 ++ [Delete TContacts])%list |})
               end
             else (internal_error,
                   logged (logged s [Select TUsers]) [Select TContacts])
         end.
Proof.
  unfold deleteContact, try_catch, bind at 1. rewrite getAuthenticatedUser_eq.
  destruct (no_identity (auth_userId req)); [reflexivity|].
  destruct (resolved_user req (db s)) as [u|]; [|reflexivity].
  rewrite where_owned_eq.
  destruct (id_is_uuid req); [|reflexivity].
  unfold bind at 1, select_contacts, bind at 1, sent, bind at 1, read_db, ret. simpl.
  destruct (filter (owned_by req u) (contactsBirthdays (db s))); reflexivity.
Qed.

(** ** Rendering *)

Lemma append_nil_r (a : string) : a ++ EmptyString = a.
Proof. induction a as [|ch a IH]; simpl; [reflexivity | now rewrite IH]. Qed.


Lemma append_nonempty_l (a b : string) : a <> EmptyString -> a ++ b <> EmptyString.
Proof. destruct a; simpl; congruence. Qed.

(** The entry [formatContact] makes of a selected row whose month is
    within the table of month names. *)
Lemma formatContact_entry (c : Contact) :
  1 <= birthdayMonth c <= 12 ->
  exists mname,
    nth_error MONTH_NAMES (Z.to_nat (birthdayMonth c - 1)) = Some mname
    /\ has_newline mname = false
    /\ formatContact (selected c)
       = "- " ++ name c ++ ": " ++ mname ++ " " ++ show_int (birthdayDay c)
             ++ year_suffix c.
Proof.
  intro Hm.
  assert (birthdayMonth c = 1 \/ birthdayMonth c = 2 \/ birthdayMonth c = 3
          \/ birthdayMonth c = 4 \/ birthdayMonth c = 5 \/ birthdayMonth c = 6
          \/ birthdayMonth c = 7 \/ birthdayMonth c = 8 \/ birthdayMonth c = 9
          \/ birthdayMonth c = 10 \/ birthdayMonth c = 11 \/ birthdayMonth c = 12)
    as Hcases by lia.
  unfold formatContact, birthday_text, notes_suffix, selected. simpl.
  rewrite append_nil_r.
  repeat (destruct Hcases as [-> | Hcases]); try rewrite Hcases;
    eexists; (split; [reflexivity | split; reflexivity]).
Qed.


(** ** Line breaks in a rendered entry *)

Lemma has_char_app (a : ascii) (s t : string) :
  has_char a (s ++ t) = has_char a s || has_char a t.
Proof.
  induction s as [|b s IH]; simpl; [reflexivity|]. now rewrite IH, orb_assoc.
Qed.

Lemma digits_no_newline (d : Decimal.uint) :
  has_newline (NilEmpty.string_of_uint d) = false.
Proof.
  unfold has_newline. induction d; simpl; auto.
Qed.

Lemma show_int_no_newline (z : Z) : has_newline (show_int z) = false.
Proof.
  unfold show_int, NilZero.string_of_int, NilZero.string_of_uint.
  destruct (Z.to_int z) as [d|d].
  - destruct d; try reflexivity; apply digits_no_newline.
  - change (has_newline (String "-" ?s)) with (has_newline s).
    destruct d; try reflexivity; apply digits_no_newline.
Qed.

Lemma year_suffix_no_newline (c : Contact) : has_newline (year_suffix c) = false.
Proof.
  unfold year_suffix. destruct (birthdayYear c) as [y|]; [|reflexivity].
  destruct (truthy_int y); [|reflexivity].
  unfold has_newline. rewrite has_char_app. simpl. apply show_int_no_newline.
Qed.

(** ** The lookup tool *)

Lemma append_nonempty_r (a b : string) : b <> EmptyString -> a ++ b <> EmptyString.
Proof.
  intros Hb E. destruct a; simpl in E; [contradiction | discriminate].
Qed.

Lemma getContacts_execute_eq (uid : Uuid) (s : Store) :
  uid <> EmptyString ->
  getContacts_execute (Some uid) s
  = (Returned (contacts_text (filter (eq_userId uid) (contactsBirthdays (db s)))),
     logged s [Select TContacts]).
Proof.
  intro Hne. unfold getContacts_execute, contacts_text.
  rewrite (no_identity_some Hne).
  unfold bind, select_contacts, bind, sent, read_db, ret. simpl.
  destruct (Nat.eqb _ 0); reflexivity.
Qed.

(** C4, as amended. For every stored contact [c] (month within 1..12,
    as the validation stores it), the text the lookup tool bound to the
    owner of [c] returns is the count line followed by the entries of
    the owner's contacts joined by line breaks, and the entry of [c] is
    made of a dash, the name, a colon, the entry of the month-name table
    for the month (not the number), the day, and then a year suffix.
    That entry holds a line break exactly when the name does: it is one
    line if and only if the name is.  The year suffix is there only if
    a birth year is present (a present year other than 0 is printed
    after a comma, an absent one gives no suffix).  For a user whose one
    contact is Ada, born on 1815-12-10, the tool returns the count line
    and the line [- Ada: December 10, 1815], and without a year the line
    [- Ada: December 10]. *)
Theorem tool_renders_contact_entry (uid : Uuid) (s : Store) (c : Contact) :
  uid <> EmptyString ->
  In c (contactsBirthdays (db s)) -> userId c = uid ->
  1 <= birthdayMonth c <= 12 ->
  (exists mname before after,
      nth_error MONTH_NAMES (Z.to_nat (birthdayMonth c - 1)) = Some mname
      /\ filter (eq_userId uid) (contactsBirthdays (db s)) = (before ++ c :: after)%list
      /\ let entry := "- " ++ name c ++ ": " ++ mname ++ " "
                           ++ show_int (birthdayDay c) ++ year_suffix c in
         fst (getContacts_execute (Some uid) s)
         = Returned (show_nat (length (before ++ c :: after)) ++ " contact(s):" ++ newline
                       ++ join newline (map formatContact (map selected before)
                                          ++ entry
                                          :: map formatContact (map selected after)))
         /\ has_newline entry = has_newline (name c))
  /\ (year_suffix c <> EmptyString -> exists y, birthdayYear c = Some y)
  /\ (forall y, birthdayYear c = Some y -> y <> 0 -> year_suffix c = ", " ++ show_int y)
  /\ (birthdayYear c = None -> year_suffix c = EmptyString)
  /\ fst (getContacts_execute (Some "u-1") (fresh_store (db_with_ada (Some 1815))))
     = Returned ("1 contact(s):" ++ newline ++ "- Ada: December 10, 1815")
  /\ fst (getContacts_execute (Some "u-1") (fresh_store (db_with_ada None)))
     = Returned ("1 contact(s):" ++ newline ++ "- Ada: December 10").
Proof.
  intros Huid Hc Hown Hm.
  split; [| split; [| split; [| split; [| split; reflexivity]]]].
  - destruct (formatContact_entry c Hm) as [mname [Hnth [Hmname Hentry]]].
    assert (In c (filter (eq_userId uid) (contactsBirthdays (db s)))) as Hin.
    { apply filter_In. split; [exact Hc|]. unfold eq_userId. now apply String.eqb_eq. }
    destruct (in_split _ _ Hin) as [before [after Hrows]].
    exists mname, before, after.
    split; [exact Hnth | split; [exact Hrows|]].
    cbv zeta. split.
    + rewrite (getContacts_execute_eq s Huid), Hrows. unfold contacts_text.
      assert (Nat.eqb (length (before ++ c :: after)) 0 = false) as Hlen.
      { apply Nat.eqb_neq. rewrite length_app. simpl. lia. }
      rewrite Hlen. rewrite !map_app. simpl map. now rewrite Hentry.
    + unfold has_newline in *. rewrite !has_char_app.
      pose proof (show_int_no_newline (birthdayDay c)) as Hday.
      pose proof (year_suffix_no_newline c) as Hyear.
      unfold has_newline in Hday, Hyear. rewrite Hmname, Hday, Hyear.
      simpl. now rewrite !orb_false_r.
  - unfold year_suffix. destruct (birthdayYear c) as [y|]; [eauto | congruence].
  - intros y Hy Hnz. unfold year_suffix, truthy_int. rewrite Hy.
    apply Z.eqb_neq in Hnz. now rewrite Hnz.
  - intro Hy. unfold year_suffix. now rewrite Hy.
Qed.

Lemma tool_renders_contact_entry_witness :
  fst (getContacts_execute (Some "u-1") (fresh_store (db_with_ada (Some 1815))))
  = Returned ("1 contact(s):" ++ newline ++ "- Ada: December 10, 1815")
  /\ year_suffix (ada (Some 1815)) = ", " ++ show_int 1815.
Proof.
  assert (1 <= birthdayMonth (ada (Some 1815)) <= 12) as Hm by (simpl; lia).
  pose proof (@tool_renders_contact_entry "u-1" (fresh_store (db_with_ada (Some 1815)))
                (ada (Some 1815)) ltac:(discriminate) (or_introl eq_refl) eq_refl Hm)
    as [_ [_ [Hyear [_ [Hada _]]]]].
  split; [exact Hada|].
  apply (Hyear 1815); [reflexivity | lia].
Defined.

(** The claim as first stated fails on a name that holds a line break:
    the owner of the sample contact stores a second one whose name is
    [Ada], a line break, [Lovelace]; the create route answers 201, and
    the tool then renders that contact across two lines. *)
Lemma name_with_line_break_spans_two_lines :
  fst (createContact sample_env (by_a EmptyString two_line_name_body)
         (fresh_store db_two_users))
  = res_status 201 (JsonContact two_line_contact)
  /\ name two_line_contact = "Ada" ++ newline ++ "Lovelace"
  /\ fst (getContacts_execute (Some "u-a")
            (snd (createContact sample_env (by_a EmptyString two_line_name_body)
                    (fresh_store db_two_users))))
     = Returned ("2 contact(s):" ++ newline
                   ++ "- Ada: December 10, 1815" ++ newline
                   ++ "- Ada" ++ newline ++ "Lovelace: December 10, 1815")
  /\ has_newline (formatContact (selected two_line_contact)) = true.
Proof.
  repeat split; reflexivity.
Qed.

Lemma getContacts_execute_total (uid : option Uuid) (s : Store) :
  exists text,
    getContacts_execute uid s
      = (Returned text,
         {| db := db s;
            log := if no_identity uid then log s else log s ++ [Select TContacts] |})
    /\ text <> EmptyString.
Proof.
  unfold getContacts_execute.
  destruct (no_identity uid).
  - eexists. split; [destruct s; reflexivity | discriminate].
  - unfold bind, select_contacts, bind, sent, read_db, ret. simpl.
    destruct (Nat.eqb (length (filter (eq_userId (or_else uid EmptyString))
                                      (contactsBirthdays (db s)))) 0).
    + eexists. split; [reflexivity | discriminate].
    + eexists. split; [reflexivity|].
      apply append_nonempty_r. discriminate.
Qed.

(** C3. The tool's execute function always returns a text to the model
    and never throws: with no resolved user id it returns the sentence
    saying the user is not recognized; with a user id whose owner has no
    contact it returns the sentence saying that no birthdays were added
    yet; and whatever the user id and the store, what it returns is a
    non-empty text (never an empty list or an empty string), the store
    being left as it was. *)
Theorem getContacts_execute_sentinels (u : Uuid) (s : Store) :
  u <> EmptyString ->
  (forall c, In c (contactsBirthdays (db s)) -> userId c <> u) ->
  fst (getContacts_execute None s)
    = Returned "User not found. Please ensure you are logged in."
  /\ fst (getContacts_execute (Some u) s)
     = Returned "No contacts found. The user hasn't added any birthdays yet."
  /\ (forall uid s0, exists text,
         fst (getContacts_execute uid s0) = Returned text
         /\ text <> EmptyString
         /\ db (snd (getContacts_execute uid s0)) = db s0).
Proof.
  intros Hu Hnone. split; [reflexivity | split].
  - unfold getContacts_execute. rewrite (no_identity_some Hu).
    unfold bind, select_contacts, bind, sent, read_db, ret. simpl.
    rewrite filter_none; [reflexivity|].
    intros c Hc. apply String.eqb_neq. now apply Hnone.
  - intros uid s0. destruct (getContacts_execute_total uid s0) as [text [E Hne]].
    exists text. rewrite E. simpl. auto.
Qed.

Lemma getContacts_execute_sentinels_witness :
  fst (getContacts_execute (Some "u-1") (fresh_store db_one_user))
    = Returned no_contacts_text.
Proof.
  apply (getContacts_execute_sentinels (u := "u-1") (fresh_store db_one_user)).
  - discriminate.
  - simpl. intros c [].
Defined.

(** ** The chat handler *)

Lemma isArray_truthy (v : option json) : isArray v = true -> truthy_opt v = true.
Proof. destruct v as [[]|]; simpl; congruence. Qed.

Lemma messages_guard (v : option json) :
  negb (truthy_opt v) || negb (isArray v) = negb (isArray v).
Proof.
  destruct (isArray v) eqn:E; simpl.
  - now rewrite (isArray_truthy v E).
  - apply orb_true_r.
Qed.

Lemma getUserId_eq (req : Request) (s : Store) :
  getUserId (or_else (auth_userId req) EmptyString) s
  = (Returned (option_map user_id (resolved_user req (db s))),
     logged s [Select TUsers]).
Proof.
  unfold getUserId, resolved_user, bind, select_users, bind, sent, read_db, ret. simpl.
  destruct (filter _ (users (db s))); reflexivity.
Qed.

Section ChatClosedForm.

Variable ModelMessage : Type.
Variable convertToModelMessages : list json -> option (list ModelMessage).
Variable startup_date : string.

Lemma chatWithAssistant_eq (req : Request) (s : Store) :
  chatWithAssistant convertToModelMessages startup_date req s
  = match parsed_body req with
    | BodyAbsent => (Responded internal_error, s)
    | _ =>
        if negb (isArray (prop (body req) "messages"))
        then (Responded (res_status 400 (JsonError "Messages array is required")), s)
        else if no_identity (auth_userId req)
        then (Responded unauthorized, s)
        else match convertToModelMessages (array_items (prop (body req) "messages")) with
             | None => (Responded internal_error, logged s [Select TUsers])
             | Some modelMessages =>
                 (Piped {| model := MODEL;
                           system := SYSTEM_PROMPT startup_date;
                           messages := modelMessages;
                           stopWhen := stepCountIs 3;
                           tools := createTools
                                      (option_map user_id (resolved_user req (db s))) |},
                  logged s [Select TUsers])
             end
    end.
Proof.
  unfold chatWithAssistant, try_catch.
  destruct (parsed_body req); cbv [bind ret throw]; [ | | reflexivity];
    rewrite messages_guard;
    (destruct (negb (isArray (prop (body req) "messages"))); [reflexivity|]);
    (destruct (no_identity (auth_userId req)); [reflexivity|]);
    rewrite getUserId_eq;
    destruct (convertToModelMessages _); reflexivity.
Qed.

Lemma body_absent_no_messages (req : Request) :
  parsed_body req = BodyAbsent -> isArray (prop (body req) "messages") = false.
Proof. intro E. unfold body. now rewrite E. Qed.

(** The handler on a request that carries a message list. *)
Lemma chatWithAssistant_list_eq (req : Request) (s : Store) :
  isArray (prop (body req) "messages") = true ->
  chatWithAssistant convertToModelMessages startup_date req s
  = if no_identity (auth_userId req)
    then (Responded unauthorized, s)
    else match convertToModelMessages (array_items (prop (body req) "messages")) with
         | None => (Responded internal_error, logged s [Select TUsers])
         | Some modelMessages =>
             (Piped {| model := MODEL;
                       system := SYSTEM_PROMPT startup_date;
                       messages := modelMessages;
                       stopWhen := stepCountIs 3;
                       tools := createTools
                                  (option_map user_id (resolved_user req (db s))) |},
              logged s [Select TUsers])
         end.
Proof.
  intro Harr. rewrite chatWithAssistant_eq.
  destruct (parsed_body req) eqn:E;
    try (rewrite Harr; reflexivity).
  rewrite (body_absent_no_messages req E) in Harr. discriminate Harr.
Qed.

End ChatClosedForm.

Section ChatProperties.

Variable ModelMessage : Type.
Variable convertToModelMessages : list json -> option (list ModelMessage).
Variable startup_date : string.

(** C9, as amended. Before any model invocation and any store access,
    the chat handler answers 400 to every request that has a parsed
    body and whose messages field is missing or is not a list, whether
    or not the caller has an identity; a request whose body the parser
    left undefined is answered 500, the destructuring of the body
    throwing inside the try; it answers 401 to every request whose
    messages field is a list and whose caller identity cannot be
    resolved; and a completion call is made only for a request that
    passes both checks. *)
Theorem chat_rejections (req : Request) (s : Store) :
  (parsed_body req <> BodyAbsent ->
   isArray (prop (body req) "messages") = false ->
   chatWithAssistant convertToModelMessages startup_date req s
   = (Responded (res_status 400 (JsonError "Messages array is required")), s))
  /\ (parsed_body req = BodyAbsent ->
      chatWithAssistant convertToModelMessages startup_date req s
      = (Responded (res_status 500 (JsonError "Internal server error")), s))
  /\ (isArray (prop (body req) "messages") = true ->
      no_identity (auth_userId req) = true ->
      chatWithAssistant convertToModelMessages startup_date req s
      = (Responded (res_status 401 (JsonError "Unauthorized")), s))
  /\ (forall call,
         fst (chatWithAssistant convertToModelMessages startup_date req s) = Piped call ->
      isArray (prop (body req) "messages") = true
      /\ no_identity (auth_userId req) = false).
Proof.
  rewrite chatWithAssistant_eq.
  pose proof (body_absent_no_messages req) as Habsent.
  destruct (parsed_body req) eqn:Eb.
  - destruct (isArray (prop (body req) "messages")) eqn:Earr; simpl.
    + destruct (no_identity (auth_userId req)) eqn:Eid; simpl.
      * repeat split; congruence.
      * destruct (convertToModelMessages _); simpl; repeat split; congruence.
    + repeat split; congruence.
  - destruct (isArray (prop (body req) "messages")) eqn:Earr; simpl.
    + destruct (no_identity (auth_userId req)) eqn:Eid; simpl.
      * repeat split; congruence.
      * destruct (convertToModelMessages _); simpl; repeat split; congruence.
    + repeat split; congruence.
  - rewrite (Habsent eq_refl). simpl.
    repeat split; try congruence; try reflexivity; try discriminate.
Qed.

End ChatProperties.

(** C9, the claim as stated fails: a request without caller identity
    whose messages field is a text is answered 400, not 401. *)
Lemma chat_anonymous_text_is_400 :
  no_identity (auth_userId chat_anonymous_text) = true
  /\ fst (chatWithAssistant keep_messages "November 3, 2026" chat_anonymous_text
            (fresh_store db_one_user))
     = Responded (res_status 400 (JsonError "Messages array is required"))
  /\ fst (chatWithAssistant keep_messages "November 3, 2026" chat_anonymous_text
            (fresh_store db_one_user))
     <> Responded (res_status 401 (JsonError "Unauthorized")).
Proof.
  split; [reflexivity | split; [reflexivity | discriminate]].
Qed.

(** ** The bound on steps and the single tool *)

Lemma assoc_createTools (uid : option Uuid) (toolName : string) :
  assoc toolName (createTools uid)
  = if String.eqb toolName "getContacts"
    then Some {| description := "Get all contacts and their birthdays. Use when user asks about birthdays, contacts, upcoming celebrations, or specific people.";
                 inputSchema := [];
                 execute := getContacts_execute uid |}
    else None.
Proof. reflexivity. Qed.

Section StepLoop.

Variable ModelMessage : Type.
Variable llm : list Step -> ModelTurn.
Variable call : StreamCall ModelMessage.
Variable uid : option Uuid.
Hypothesis call_stop : stopWhen call = stepCountIs 3.
Hypothesis call_tools : tools call = createTools uid.

Lemma run_steps_bounded (fuel : nat) :
  forall (steps : list Step) (s0 : Store),
    (length steps < 3)%nat -> (3 <= fuel + length steps)%nat ->
    exists made s1 extra,
      run_steps llm call fuel steps s0 = (Returned (Some (steps ++ made)%list), s1)
      /\ (1 <= length made)%nat
      /\ (length (steps ++ made) <= 3)%nat
      /\ db s1 = db s0
      /\ log s1 = (log s0 ++ extra)%list
      /\ Forall (fun st => st = Select TContacts) extra
      /\ Forall (step_reads_contacts_only uid (db s0)) made.
Proof.
  induction fuel as [|fuel IH]; intros steps s0 Hlt Hfuel.
  - simpl in Hfuel. lia.
  - simpl. destruct (llm steps) as [text | toolName] eqn:Ellm.
    + exists [ {| turn := Finish text; toolOutput := None |} ], s0, [].
      unfold ret. rewrite length_app, app_nil_r. simpl.
      repeat split; try lia; try constructor; auto.
      intros o Ho. discriminate Ho.
    + rewrite call_tools, assoc_createTools, call_stop.
      destruct (String.eqb toolName "getContacts") eqn:Ename.
      * apply String.eqb_eq in Ename. subst toolName. simpl execute.
        destruct (getContacts_execute_total uid s0) as [text [Eexec _]].
        unfold bind at 1. unfold bind at 1. rewrite Eexec. unfold ret at 1.
        cbv beta zeta.
        set (st := {| turn := CallTool "getContacts"; toolOutput := Some text |}).
        set (s0' := {| db := db s0;
                       log := if no_identity uid then log s0
                              else (log s0 ++ [Select TContacts])%list |}).
        assert (exists e0, log s0' = (log s0 ++ e0)%list
                           /\ Forall (fun x => x = Select TContacts) e0) as [e0 [He0 Fe0]].
        { subst s0'. simpl. destruct (no_identity uid).
          - exists []. now rewrite app_nil_r.
          - exists [Select TContacts]. split; [reflexivity | now constructor]. }
        assert (step_reads_contacts_only uid (db s0) st) as Hst.
        { intros o Ho. subst st. simpl in Ho. injection Ho as <-.
          split; [reflexivity|]. exists s0. split; [reflexivity|]. now rewrite Eexec. }
        unfold stepCountIs. rewrite length_app. change (length [st]) with 1%nat.
        destruct (Nat.eqb (length steps + 1) 3) eqn:Estop.
        -- exists [st], s0', e0. unfold ret. rewrite length_app. simpl.
           apply Nat.eqb_eq in Estop.
           repeat split; try lia; auto.
        -- apply Nat.eqb_neq in Estop.
           destruct (IH (steps ++ [st])%list s0') as [made [s1 [extra H]]].
           { rewrite length_app. simpl. lia. }
           { rewrite length_app. simpl. lia. }
           destruct H as [Erun [Hlen [Hle [Hdb [Hlog [Fextra Fmade]]]]]].
           exists (st :: made), s1, (e0 ++ extra)%list.
           rewrite <- app_assoc in Erun, Hle. simpl in Erun, Hle.
           repeat split; auto.
           ++ simpl. lia.
           ++ rewrite Hlog, He0. now rewrite app_assoc.
           ++ apply Forall_app. now split.
      * unfold bind at 1. unfold ret at 1. cbv beta zeta.
        set (st := {| turn := CallTool toolName; toolOutput := None |}).
        assert (step_reads_contacts_only uid (db s0) st) as Hst.
        { intros o Ho. discriminate Ho. }
        unfold stepCountIs. rewrite length_app. change (length [st]) with 1%nat.
        destruct (Nat.eqb (length steps + 1) 3) eqn:Estop.
        -- exists [st], s0, []. unfold ret. rewrite length_app, app_nil_r. simpl.
           apply Nat.eqb_eq in Estop.
           repeat split; try lia; auto.
        -- apply Nat.eqb_neq in Estop.
           destruct (IH (steps ++ [st])%list s0) as [made [s1 [extra H]]].
           { rewrite length_app. simpl. lia. }
           { rewrite length_app. simpl. lia. }
           destruct H as [Erun [Hlen [Hle [Hdb [Hlog [Fextra Fmade]]]]]].
           exists (st :: made), s1, extra.
           rewrite <- app_assoc in Erun, Hle. simpl in Erun, Hle.
           repeat split; auto. simpl. lia.
Qed.

End StepLoop.

Lemma getUserId_total (cid : string) (s : Store) :
  exists uid,
    getUserId cid s
    = (Returned uid, {| db := db s; log := (log s ++ [Select TUsers])%list |}).
Proof.
  unfold getUserId, bind, select_users, bind, sent, read_db, ret. simpl.
  destruct (filter (eq_clerkUserId cid) (users (db s))); eexists; reflexivity.
Qed.

(** C2. Whenever the chat handler makes a completion call, the call is
    configured with the stop condition [stepCountIs 3] and with a tool
    table of exactly one entry, [getContacts], whose execute function is
    the contact lookup closed over the user id resolved for the caller.
    Under that configuration the step loop of the completion service,
    for any behaviour of the model, ends after at least one and at most
    three steps, leaves the store unchanged, sends it nothing but
    selects on the contacts table, and every tool output it feeds back
    is an output of that lookup for that user id. *)
Theorem chat_step_bound_and_tool
        (ModelMessage : Type)
        (convertToModelMessages : list json -> option (list ModelMessage))
        (startup_date : string)
        (req : Request) (s s' : Store) (call : StreamCall ModelMessage) :
  chatWithAssistant convertToModelMessages startup_date req s = (Piped call, s') ->
  model call = "openai/gpt-oss-120b"
  /\ stopWhen call = stepCountIs 3
  /\ exists uid,
      fst (getUserId (or_else (auth_userId req) EmptyString) s) = Returned uid
      /\ tools call = createTools uid
      /\ map fst (tools call) = [ "getContacts" ]
      /\ (forall t, In t (map snd (tools call)) -> execute t = getContacts_execute uid)
      /\ forall (llm : list Step -> ModelTurn) (fuel : nat) (s0 : Store),
          (3 <= fuel)%nat ->
          exists steps s1 extra,
            run_steps llm call fuel [] s0 = (Returned (Some steps), s1)
            /\ (1 <= length steps <= 3)%nat
            /\ db s1 = db s0
            /\ log s1 = (log s0 ++ extra)%list
            /\ Forall (fun st => st = Select TContacts) extra
            /\ Forall (step_reads_contacts_only uid (db s0)) steps.
Proof.
  intro H. rewrite chatWithAssistant_eq in H.
  assert (negb (isArray (prop (body req) "messages")) = false
          /\ no_identity (auth_userId req) = false
          /\ exists modelMessages,
              call = {| model := MODEL; system := SYSTEM_PROMPT startup_date;
                        messages := modelMessages; stopWhen := stepCountIs 3;
                        tools := createTools
                                   (option_map user_id (resolved_user req (db s))) |})
    as [_ [_ [modelMessages ->]]].
  { destruct (parsed_body req); [ | | discriminate H];
      (destruct (negb (isArray (prop (body req) "messages"))); [discriminate H|]);
      (destruct (no_identity (auth_userId req)); [discriminate H|]);
      (destruct (convertToModelMessages _) as [mm|]; [|discriminate H]);
      injection H as <- _; eauto. }
  split; [reflexivity | split; [reflexivity|]].
  exists (option_map user_id (resolved_user req (db s))). rewrite getUserId_eq.
  split; [reflexivity | split; [reflexivity | split; [reflexivity | split]]].
  - simpl. intros t [<- | []]. reflexivity.
  - intros llm fuel s0 Hfuel.
    destruct (@run_steps_bounded ModelMessage llm
                {| model := MODEL; system := SYSTEM_PROMPT startup_date;
                   messages := modelMessages; stopWhen := stepCountIs 3;
                   tools := createTools
                              (option_map user_id (resolved_user req (db s))) |}
                (option_map user_id (resolved_user req (db s)))
                eq_refl eq_refl fuel [] s0) as [made [s1 [extra Hrun]]].
    + simpl. lia.
    + simpl. lia.
    + simpl in Hrun. exists made, s1, extra.
      destruct Hrun as [E [H1 [H3 [Hdb [Hlog [Fe Fm]]]]]].
      repeat split; auto.
Qed.

Lemma chat_step_bound_and_tool_witness :
  exists call s',
    chatWithAssistant keep_messages "November 3, 2026" chat_signed_in
                      (fresh_store db_one_user) = (Piped call, s')
    /\ stopWhen call = stepCountIs 3
    /\ map fst (tools call) = [ "getContacts" ].
Proof.
  eexists. eexists.
  assert (forall c s1,
             chatWithAssistant keep_messages "November 3, 2026" chat_signed_in
                               (fresh_store db_one_user) = (Piped c, s1) ->
             chatWithAssistant keep_messages "November 3, 2026" chat_signed_in
                               (fresh_store db_one_user) = (Piped c, s1)
             /\ stopWhen c = stepCountIs 3
             /\ map fst (tools c) = [ "getContacts" ]) as K.
  { intros c s1 E. split; [exact E|].
    destruct (chat_step_bound_and_tool _ _ _ _ E) as [_ [Hstop [uid [_ [_ [Hnames _]]]]]].
    split; assumption. }
  apply K. reflexivity.
Defined.

(** ** Resolving the caller *)

Lemma getAuthenticatedUser_found (req : Request) (s : Store) (u : User) :
  auth_userId req = Some (clerkUserId u) ->
  clerkUserId u <> EmptyString ->
  NoDup (map clerkUserId (users (db s))) ->
  In u (users (db s)) ->
  getAuthenticatedUser req s
  = (Returned (inr u), {| db := db s; log := (log s ++ [Select TUsers])%list |}).
Proof.
  intros Hauth Hne Hnd Hin.
  unfold getAuthenticatedUser. rewrite Hauth, (no_identity_some Hne).
  unfold bind, select_users, bind, sent, read_db, ret. simpl.
  change (eq_clerkUserId (clerkUserId u))
    with (fun y => String.eqb (clerkUserId y) (clerkUserId u)).
  now rewrite (filter_key_unique clerkUserId _ _ Hnd Hin).
Qed.

Lemma getAuthenticatedUser_unsynced (req : Request) (s : Store) (cid : string) :
  auth_userId req = Some cid ->
  cid <> EmptyString ->
  (forall u, In u (users (db s)) -> clerkUserId u <> cid) ->
  getAuthenticatedUser req s
  = (Returned (inl (res_status 404 (JsonError "User not found"))),
     {| db := db s; log := (log s ++ [Select TUsers])%list |}).
Proof.
  intros Hauth Hne Hnone.
  unfold getAuthenticatedUser. rewrite Hauth, (no_identity_some Hne).
  unfold bind, select_users, bind, sent, read_db, ret. simpl.
  rewrite filter_none; [reflexivity|].
  intros u Hu. apply String.eqb_neq. now apply Hnone.
Qed.

(** C10, as amended. A request that carries a verified external
    identity with no user row never reaches the contacts table, on any
    of the five contacts routes: the create and update routes answer 400
    with the field errors, without any store access, when the body
    fails validation; in every other case the answer is 404 with the
    error [User not found], after the one select on the users table. *)
Theorem unsynced_caller_stops_before_contacts
        (route : ContactsRoute) (e : Env) (req : Request) (s : Store) (cid : string) :
  auth_userId req = Some cid ->
  cid <> EmptyString ->
  (forall u, In u (users (db s)) -> clerkUserId u <> cid) ->
  contactsRouter route e req s
  = match body_rejected route req with
    | Some issues => (res_status 400 (JsonErrors (formatZodError issues)), s)
    | None => (res_status 404 (JsonError "User not found"),
               {| db := db s; log := (log s ++ [Select TUsers])%list |})
    end
  /\ db (snd (contactsRouter route e req s)) = db s
  /\ exists extra,
      log (snd (contactsRouter route e req s)) = (log s ++ extra)%list
      /\ Forall (fun st => on_contacts st = false) extra.
Proof.
  intros Hauth Hne Hnone.
  pose proof (getAuthenticatedUser_unsynced req s Hauth Hne Hnone) as Hg.
  assert (contactsRouter route e req s
          = match body_rejected route req with
            | Some issues => (res_status 400 (JsonErrors (formatZodError issues)), s)
            | None => (res_status 404 (JsonError "User not found"),
                       {| db := db s; log := (log s ++ [Select TUsers])%list |})
            end) as E.
  { destruct route; simpl.
    - unfold getContacts, try_catch, bind. now rewrite Hg.
    - unfold getContactById, try_catch, bind. now rewrite Hg.
    - unfold createContact.
      destruct (createContactSchema (body req)); [reflexivity|].
      unfold try_catch, bind. now rewrite Hg.
    - unfold updateContact.
      destruct (updateContactSchema (body req)); [reflexivity|].
      unfold try_catch, bind. now rewrite Hg.
    - unfold deleteContact, try_catch, bind. now rewrite Hg. }
  split; [exact E|]. rewrite E.
  destruct (body_rejected route req); simpl.
  - split; [reflexivity|]. exists []. now rewrite app_nil_r.
  - split; [reflexivity|]. exists [Select TUsers]. split; [reflexivity|].
    now constructor.
Qed.

Lemma unsynced_caller_stops_before_contacts_witness :
  fst (contactsRouter GET_contacts sample_env (by_stranger []) (fresh_store db_two_users))
  = res_status 404 (JsonError "User not found").
Proof.
  assert (auth_userId (by_stranger []) = Some "clerk_z") as Hauth by reflexivity.
  assert ("clerk_z" <> EmptyString) as Hne by discriminate.
  assert (forall u, In u (users (db (fresh_store db_two_users))) ->
                    clerkUserId u <> "clerk_z") as Hnone.
  { simpl. intros u [<- | [<- | []]]; discriminate. }
  rewrite (proj1 (unsynced_caller_stops_before_contacts
                    GET_contacts sample_env (by_stranger []) (fresh_store db_two_users)
                    Hauth Hne Hnone)).
  reflexivity.
Defined.

(** C10, the claim as stated fails: the create route answers an
    identity without user row 400, not 404, when the body is empty. *)
Lemma unsynced_create_empty_body_is_400 :
  (forall u, In u (users db_two_users) -> clerkUserId u <> "clerk_z")
  /\ auth_userId (by_stranger []) = Some "clerk_z"
  /\ status (fst (contactsRouter POST_contacts sample_env (by_stranger [])
                    (fresh_store db_two_users))) = 400
  /\ fst (contactsRouter POST_contacts sample_env (by_stranger [])
            (fresh_store db_two_users))
     <> res_status 404 (JsonError "User not found").
Proof.
  split; [| split; [reflexivity | split; [reflexivity | discriminate]]].
  simpl. intros u [<- | [<- | []]]; discriminate.
Qed.

(** ** Owner-scoped lookups *)

Lemma db_two_users_constraints : db_constraints db_two_users.
Proof.
  split; simpl.
  - repeat constructor; simpl; intuition discriminate.
  - repeat constructor; simpl; intuition discriminate.
  - repeat constructor; simpl; intuition discriminate.
  - intros c [<- | []]. simpl. auto.
Qed.

(** The row of a given id, looked up by its owner. *)
Lemma select_owned (contacts : list Contact) (c : Contact) :
  NoDup (map id contacts) -> In c contacts ->
  filter (and_ (eq_id (id c)) (eq_userId (userId c))) contacts = [c].
Proof.
  intros Hnd Hin.
  rewrite <- (filter_key_unique id contacts c Hnd Hin).
  apply filter_ext_in. intros x Hx. unfold and_, eq_id, eq_userId.
  destruct (String.eqb (id x) (id c)) eqn:E; simpl; [|reflexivity].
  apply String.eqb_eq in E.
  rewrite (key_injective id contacts x c Hnd Hx Hin E). apply String.eqb_refl.
Qed.

(** The row of a given id, looked up by somebody else. *)
Lemma select_foreign (contacts : list Contact) (c : Contact) (uid : Uuid) :
  NoDup (map id contacts) -> In c contacts -> userId c <> uid ->
  filter (and_ (eq_id (id c)) (eq_userId uid)) contacts = [].
Proof.
  intros Hnd Hin Hne. apply filter_none. intros x Hx.
  unfold and_, eq_id, eq_userId.
  destruct (String.eqb (id x) (id c)) eqn:E; simpl; [|reflexivity].
  apply String.eqb_eq in E.
  rewrite (key_injective id contacts x c Hnd Hx Hin E).
  now apply String.eqb_neq.
Qed.

(** An id that no row carries. *)
Lemma select_absent (contacts : list Contact) (nid : string) (uid : Uuid) :
  (forall x, In x contacts -> id x <> nid) ->
  filter (and_ (eq_id nid) (eq_userId uid)) contacts = [].
Proof.
  intros Hnone. apply filter_none. intros x Hx.
  unfold and_, eq_id. pose proof (Hnone x Hx) as Hne.
  apply String.eqb_neq in Hne. now rewrite Hne.
Qed.

(** What the by-id routes answer a resolved caller whose owner-scoped
    lookup finds nothing, and what they answer when the store refuses
    the id. *)
Lemma by_id_nothing_found
      (route : ContactsRoute) (e : Env) (req : Request) (s : Store) (u : User) :
  route = GET_contact \/ route = PUT_contact \/ route = DELETE_contact ->
  auth_userId req = Some (clerkUserId u) ->
  clerkUserId u <> EmptyString ->
  NoDup (map clerkUserId (users (db s))) ->
  In u (users (db s)) ->
  id_is_uuid req = true ->
  filter (owned_by req u) (contactsBirthdays (db s)) = [] ->
  contactsRouter route e req s
  = match body_rejected route req with
    | Some issues => (res_status 400 (JsonErrors (formatZodError issues)), s)
    | None => (contact_not_found,
               {| db := db s;
                  log := ((log s ++ [Select TUsers]) ++ [Select TContacts])%list |})
    end.
Proof.
  intros Hroute Hauth Hne Hnd Hin Hid Hnothing.
  pose proof (resolved_user_unique req _ u Hnd Hin Hauth) as Hu.
  destruct Hroute as [-> | [-> | ->]]; simpl.
  - now rewrite getContactById_eq, Hu, Hauth, (no_identity_some Hne), Hid, Hnothing.
  - rewrite updateContact_eq, Hu, Hauth, (no_identity_some Hne), Hid, Hnothing.
    destruct (updateContactSchema (body req)); reflexivity.
  - now rewrite deleteContact_eq, Hu, Hauth, (no_identity_some Hne), Hid, Hnothing.
Qed.

Lemma by_id_refused
      (route : ContactsRoute) (e : Env) (req : Request) (s : Store) (u : User) :
  route = GET_contact \/ route = PUT_contact \/ route = DELETE_contact ->
  auth_userId req = Some (clerkUserId u) ->
  clerkUserId u <> EmptyString ->
  NoDup (map clerkUserId (users (db s))) ->
  In u (users (db s)) ->
  id_is_uuid req = false ->
  contactsRouter route e req s
  = match body_rejected route req with
    | Some issues => (res_status 400 (JsonErrors (formatZodError issues)), s)
    | None => (internal_error,
               {| db := db s;
                  log := ((log s ++ [Select TUsers]) ++ [Select TContacts])%list |})
    end.
Proof.
  intros Hroute Hauth Hne Hnd Hin Hid.
  pose proof (resolved_user_unique req _ u Hnd Hin Hauth) as Hu.
  destruct Hroute as [-> | [-> | ->]]; simpl.
  - now rewrite getContactById_eq, Hu, Hauth, (no_identity_some Hne), Hid.
  - rewrite updateContact_eq, Hu, Hauth, (no_identity_some Hne), Hid.
    destruct (updateContactSchema (body req)); reflexivity.
  - now rewrite deleteContact_eq, Hu, Hauth, (no_identity_some Hne), Hid.
Qed.

(** C1, as amended. For two distinct users A and B, a GET, PUT or
    DELETE by B on the id of a contact owned by A gets exactly the
    answer, and leaves exactly the store and statement log, of the same
    request on a well-formed id (a uuid) that names no contact: status
    404 with the error [Contact not found], or, for a PUT whose body
    fails validation, status 400 with the field errors in both cases.
    The store is left as it was, the answer carries no contact, and its
    status is never 401 or 403.  An id text that spells no uuid is
    another matter: the store refuses the lookup and the answer is 500
    (400 for a PUT whose body fails validation), the store being left
    as it was. *)
Theorem foreign_contact_looks_absent
        (route : ContactsRoute) (e : Env) (req : Request) (s : Store)
        (A B : User) (c : Contact) (nid : Uuid) :
  db_constraints (db s) ->
  In A (users (db s)) -> In B (users (db s)) -> user_id A <> user_id B ->
  In c (contactsBirthdays (db s)) -> userId c = user_id A ->
  (forall x, In x (contactsBirthdays (db s)) -> id x <> nid) ->
  auth_userId req = Some (clerkUserId B) -> clerkUserId B <> EmptyString ->
  route = GET_contact \/ route = PUT_contact \/ route = DELETE_contact ->
  contactsRouter route e (with_id req (id c)) s
  = contactsRouter route e (with_id req nid) s
  /\ fst (contactsRouter route e (with_id req (id c)) s)
     = match body_rejected route req with
       | Some issues => res_status 400 (JsonErrors (formatZodError issues))
       | None => res_status 404 (JsonError "Contact not found")
       end
  /\ db (snd (contactsRouter route e (with_id req (id c)) s)) = db s
  /\ (forall x, payload (fst (contactsRouter route e (with_id req (id c)) s))
                <> JsonContact x)
  /\ status (fst (contactsRouter route e (with_id req (id c)) s)) <> 403
  /\ status (fst (contactsRouter route e (with_id req (id c)) s)) <> 401
  /\ (forall text,
         fst (contactsRouter route e (with_text req text) s)
         = match body_rejected route req with
           | Some issues => res_status 400 (JsonErrors (formatZodError issues))
           | None => res_status 500 (JsonError "Internal server error")
           end
         /\ db (snd (contactsRouter route e (with_text req text) s)) = db s).
Proof.
  intros [_ Hclerk Hpk _] HA HB Hdistinct Hc Hown Hnone Hauth Hne Hroute.
  assert (userId c <> user_id B) as Hforeign by congruence.
  pose proof (@by_id_nothing_found route e (with_id req (id c)) s B
                Hroute Hauth Hne Hclerk HB eq_refl
                (select_foreign _ _ Hpk Hc Hforeign)) as Ethere.
  pose proof (@by_id_nothing_found route e (with_id req nid) s B
                Hroute Hauth Hne Hclerk HB eq_refl
                (select_absent _ _ Hnone)) as Enowhere.
  assert (forall i, body_rejected route (with_id req i) = body_rejected route req) as Hbody.
  { intro i. destruct route; reflexivity. }
  assert (forall t, body_rejected route (with_text req t) = body_rejected route req)
    as Hbody'.
  { intro t. destruct route; reflexivity. }
  rewrite Hbody in Ethere, Enowhere.
  rewrite Ethere, Enowhere.
  split; [reflexivity|].
  assert (forall text,
             fst (contactsRouter route e (with_text req text) s)
             = match body_rejected route req with
               | Some issues => res_status 400 (JsonErrors (formatZodError issues))
               | None => res_status 500 (JsonError "Internal server error")
               end
             /\ db (snd (contactsRouter route e (with_text req text) s)) = db s)
    as Htext.
  { intro text.
    rewrite (@by_id_refused route e (with_text req text) s B
               Hroute Hauth Hne Hclerk HB eq_refl), Hbody'.
    destruct (body_rejected route req); split; reflexivity. }
  destruct (body_rejected route req); simpl;
    repeat split; try reflexivity; try discriminate;
    try (intros x; discriminate); try apply Htext.
Qed.

Lemma foreign_contact_looks_absent_witness :
  contactsRouter GET_contact sample_env (with_id (by_b "c-1" []) (id contact_of_a))
                 (fresh_store db_two_users)
  = contactsRouter GET_contact sample_env (with_id (by_b "c-1" []) "c-404")
                   (fresh_store db_two_users).
Proof.
  apply (@foreign_contact_looks_absent GET_contact sample_env (by_b "c-1" [])
           (fresh_store db_two_users) user_a user_b contact_of_a "c-404").
  - exact db_two_users_constraints.
  - simpl. auto.
  - simpl. auto.
  - discriminate.
  - simpl. auto.
  - reflexivity.
  - simpl. intros x [<- | []]. discriminate.
  - reflexivity.
  - discriminate.
  - auto.
Defined.

(** C1, the claim as stated fails: a PUT by B with an empty body on a
    contact of A is answered 400, not 404. *)
Lemma foreign_put_empty_body_is_400 :
  In contact_of_a (contactsBirthdays db_two_users)
  /\ userId contact_of_a = user_id user_a
  /\ auth_userId (by_b "c-1" []) = Some (clerkUserId user_b)
  /\ status (fst (contactsRouter PUT_contact sample_env (by_b "c-1" [])
                    (fresh_store db_two_users))) = 400
  /\ fst (contactsRouter PUT_contact sample_env (by_b "c-1" [])
            (fresh_store db_two_users))
     <> res_status 404 (JsonError "Contact not found").
Proof.
  split; [simpl; auto|].
  split; [reflexivity | split; [reflexivity | split; [reflexivity | discriminate]]].
Qed.

(** ** Validation of integers *)

Lemma is_integer_inject (z : Z) : is_integer (inject_Z z) = true.
Proof. unfold is_integer. simpl. rewrite Z.mod_1_r. reflexivity. Qed.

Lemma integer_value_inject (z : Z) : integer_value (inject_Z z) = z.
Proof. unfold integer_value. simpl. apply Z.div_1_r. Qed.

Lemma Qle_bool_inject (a b : Z) : Qle_bool (inject_Z a) (inject_Z b) = (a <=? b).
Proof.
  unfold Qle_bool. simpl. now rewrite !Z.mul_1_r.
Qed.

Lemma is_safe_inject (z : Z) :
  - MAX_SAFE_INTEGER <= z <= MAX_SAFE_INTEGER -> is_safe (inject_Z z) = true.
Proof.
  intros [Hlo Hhi]. unfold is_safe. rewrite !Qle_bool_inject.
  apply Z.leb_le in Hlo, Hhi. now rewrite Hlo, Hhi.
Qed.

(** A number between two safe bounds is safe. *)
Lemma is_safe_between (lo hi : Z) (q : Q) :
  - MAX_SAFE_INTEGER <= lo -> hi <= MAX_SAFE_INTEGER ->
  (inject_Z lo <= q <= inject_Z hi)%Q -> is_safe q = true.
Proof.
  intros Hlo Hhi [Hl Hh]. unfold is_safe.
  apply andb_true_iff. split; apply Qle_bool_iff.
  - apply Qle_trans with (inject_Z lo); [|exact Hl]. now rewrite <- Zle_Qle.
  - apply Qle_trans with (inject_Z hi); [exact Hh|]. now rewrite <- Zle_Qle.
Qed.

Lemma int_between_accepts (lo hi : Z) (m : string) (p : list string) (z : Z) :
  - MAX_SAFE_INTEGER <= lo -> hi <= MAX_SAFE_INTEGER ->
  lo <= z <= hi ->
  int_between lo hi m p (Some (JNum (inject_Z z))) = inr z.
Proof.
  intros Slo Shi [Hlo Hhi]. unfold int_between, safe_check.
  rewrite is_integer_inject, is_safe_inject by lia.
  rewrite !Qle_bool_inject, integer_value_inject.
  apply Z.leb_le in Hlo, Hhi. now rewrite Hlo, Hhi.
Qed.

Lemma int_between_rejects (lo hi : Z) (m : string) (p : list string) (q : Q) :
  (q < inject_Z lo \/ inject_Z hi < q)%Q ->
  exists issues,
    int_between lo hi m p (Some (JNum q)) = inl issues
    /\ (exists msg, In {| path := p; message := msg |} issues)
    /\ (is_integer q = true -> In (custom p m) issues).
Proof.
  intro Hout. unfold int_between.
  destruct (is_integer q).
  - assert (In (custom p m)
               (safe_check p q
                ++ (if Qle_bool (inject_Z lo) q then [] else [custom p m])
                ++ (if Qle_bool q (inject_Z hi) then [] else [custom p m]))%list) as Hin.
    { apply in_or_app. right. apply in_or_app. destruct Hout as [H | H].
      - left. destruct (Qle_bool (inject_Z lo) q) eqn:E.
        + apply Qle_bool_iff in E. exfalso. exact (Qlt_not_le _ _ H E).
        + now left.
      - right. destruct (Qle_bool q (inject_Z hi)) eqn:E.
        + apply Qle_bool_iff in E. exfalso. exact (Qlt_not_le _ _ H E).
        + now left. }
    destruct (_ ++ _)%list as [|i l] eqn:E; [contradiction|].
    exists (i :: l). split; [reflexivity | split; [| auto]].
    exists (Some m). exact Hin.
  - exists [invalid_type p]. split; [reflexivity | split; [| discriminate]].
    exists None. now left.
Qed.

Lemma year_given_parses (v : option json) (y : option Z) :
  year_given v y ->
  (forall z, y = Some z -> - MAX_SAFE_INTEGER <= z <= MAX_SAFE_INTEGER) ->
  exists parsed, optional (nullable (int_ ["birthdayYear"])) v = inr parsed
                 /\ or_else parsed None = y.
Proof.
  intros [[-> ->] | [[-> ->] | [z [-> ->]]]] Hsafe.
  - exists None. split; reflexivity.
  - exists (Some None). split; reflexivity.
  - exists (Some (Some z)). unfold optional, nullable, int_, safe_check.
    rewrite is_integer_inject, is_safe_inject, integer_value_inject by now apply Hsafe.
    split; reflexivity.
Qed.

Lemma string_min1_accepts (m : string) (p : list string) (n : string) :
  n <> EmptyString -> string_min1 m p (Some (JStr n)) = inr n.
Proof.
  intro Hne. unfold string_min1. destruct n; [contradiction|]. reflexivity.
Qed.

Lemma prop_is_object (b : json) (k : string) (v : json) :
  prop b k = Some v -> exists members, b = JObj members.
Proof. destruct b; simpl; try discriminate. eauto. Qed.

(** ** Creating a contact *)

Lemma createContactSchema_accepts (b : json) (n : string) (m d : Z) (y : option Z) :
  prop b "name" = Some (JStr n) -> n <> EmptyString ->
  prop b "birthdayMonth" = Some (JNum (inject_Z m)) -> 1 <= m <= 12 ->
  prop b "birthdayDay" = Some (JNum (inject_Z d)) -> 1 <= d <= 31 ->
  year_given (prop b "birthdayYear") y ->
  (forall z, y = Some z -> - MAX_SAFE_INTEGER <= z <= MAX_SAFE_INTEGER) ->
  exists data,
    createContactSchema b = inr data
    /\ c_name data = n /\ c_birthdayMonth data = m /\ c_birthdayDay data = d
    /\ or_else (c_birthdayYear data) None = y.
Proof.
  intros Hn Hne Hm Hmr Hd Hdr Hy Hsafe.
  destruct (prop_is_object b _ Hn) as [members ->].
  destruct (year_given_parses Hy Hsafe) as [parsed [Ey Eor]].
  unfold createContactSchema.
  rewrite Hn, Hm, Hd, Ey.
  rewrite (string_min1_accepts _ _ Hne).
  rewrite (@int_between_accepts 1 12 _ _ m), (@int_between_accepts 1 31 _ _ d);
    try assumption; try (unfold MAX_SAFE_INTEGER; lia).
  eexists. split; [reflexivity|]. simpl. auto.
Qed.

Lemma createContactSchema_rejects
      (b : json) (k : string) (lo hi : Z) (m : string) (q : Q) :
  (k = "birthdayMonth" /\ lo = 1 /\ hi = 12 /\ m = month_message)
  \/ (k = "birthdayDay" /\ lo = 1 /\ hi = 31 /\ m = day_message) ->
  prop b k = Some (JNum q) ->
  (q < inject_Z lo \/ inject_Z hi < q)%Q ->
  exists issues,
    createContactSchema b = inl issues
    /\ (exists msg, In {| path := [k]; message := msg |} issues)
    /\ (is_integer q = true -> In (custom [k] m) issues).
Proof.
  intros Hk Hq Hout.
  destruct (prop_is_object b _ Hq) as [members ->].
  destruct (int_between_rejects m [k] Hout) as [found [Efound [[msg Hmsg] Hin]]].
  unfold createContactSchema.
  destruct Hk as [[-> [-> [-> ->]]] | [-> [-> [-> ->]]]]; rewrite Hq, Efound.
  - destruct (string_min1 _ _ _) as [i1|?];
      destruct (int_between 1 31 _ _ _) as [i3|?];
      destruct (optional _ _) as [i4|?];
      eexists; (split; [reflexivity|]); simpl;
      (split; [exists msg | intro Hi; specialize (Hin Hi)]);
      repeat (apply in_or_app; ((left; assumption) || right));
      try assumption; try (rewrite app_nil_r; assumption).
  - destruct (string_min1 _ _ _) as [i1|?];
      destruct (int_between 1 12 _ _ _) as [i2|?];
      destruct (optional _ _) as [i4|?];
      eexists; (split; [reflexivity|]); simpl;
      (split; [exists msg | intro Hi; specialize (Hin Hi)]);
      repeat (apply in_or_app; ((left; assumption) || right));
      try assumption; try (rewrite app_nil_r; assumption).
Qed.

Lemma existsb_none {A : Type} (p : A -> bool) (l : list A) :
  (forall x, In x l -> p x = false) -> existsb p l = false.
Proof.
  intro H. destruct (existsb p l) eqn:E; [|reflexivity].
  apply existsb_exists in E. destruct E as [x [Hx Hp]].
  rewrite (H x Hx) in Hp. discriminate.
Qed.

Lemma small_fits_int4 (z : Z) : 1 <= z <= 31 -> fits_int4 z = true.
Proof.
  intro H. unfold fits_int4. apply andb_true_iff. split; apply Z.leb_le; lia.
Qed.

Lemma fits_int4_spec (z : Z) :
  fits_int4 z = true <-> -2147483648 <= z <= 2147483647.
Proof.
  unfold fits_int4. rewrite andb_true_iff, !Z.leb_le. tauto.
Qed.

(** C6, as amended. For a caller whose identity resolves to a user
    row, POST /api/contacts accepts every body whose name is a
    non-empty text (without NUL character, which the store's text
    column cannot hold), whose month is an integer in 1..12, whose day
    is an integer in 1..31 and whose birth year is absent, null or an
    integer of the store's 32-bit range, with no check of the day
    against the month: it answers 201 with the inserted row, whose
    name, month, day and year are those of the body.  A month outside
    1..12, or a day outside 1..31, is answered 400 with a field error
    naming the field, which carries the range message when the value is
    an integer, and nothing is sent to the store. *)
Theorem createContact_independent_ranges
        (e : Env) (req : Request) (s : Store) (u : User)
        (n : string) (m d : Z) (y : option Z) :
  prop (body req) "name" = Some (JStr n) -> n <> EmptyString -> has_nul n = false ->
  prop (body req) "birthdayMonth" = Some (JNum (inject_Z m)) -> 1 <= m <= 12 ->
  prop (body req) "birthdayDay" = Some (JNum (inject_Z d)) -> 1 <= d <= 31 ->
  year_given (prop (body req) "birthdayYear") y ->
  (forall z, y = Some z -> -2147483648 <= z <= 2147483647) ->
  auth_userId req = Some (clerkUserId u) -> clerkUserId u <> EmptyString ->
  NoDup (map clerkUserId (users (db s))) -> In u (users (db s)) ->
  (forall x, In x (contactsBirthdays (db s)) -> id x <> random_uuid e) ->
  (let c := {| id := random_uuid e; userId := user_id u; name := n;
               birthdayYear := y; birthdayMonth := m; birthdayDay := d;
               createdAt := Some (now e); updatedAt := Some (now e) |} in
   createContact e req s
   = (res_status 201 (JsonContact c),
      {| db := {| users := users (db s);
                  contactsBirthdays := (contactsBirthdays (db s) ++ [c])%list |};
         log := ((log s ++ [Select TUsers]) ++ [Insert TContacts])%list |}))
  /\ (forall (req' : Request) (s' : Store) (q : Q),
         (prop (body req') "birthdayMonth" = Some (JNum q) ->
          (q < 1 \/ 12 < q)%Q ->
          exists errors,
            createContact e req' s' = (res_status 400 (JsonErrors errors), s')
            /\ (exists text,
                   In {| field := "birthdayMonth"; message_text := text |} errors)
            /\ (is_integer q = true ->
                In {| field := "birthdayMonth";
                      message_text := Some "Month must be between 1 and 12" |} errors))
         /\ (prop (body req') "birthdayDay" = Some (JNum q) ->
             (q < 1 \/ 31 < q)%Q ->
             exists errors,
               createContact e req' s' = (res_status 400 (JsonErrors errors), s')
               /\ (exists text,
                      In {| field := "birthdayDay"; message_text := text |} errors)
               /\ (is_integer q = true ->
                   In {| field := "birthdayDay";
                         message_text := Some "Day must be between 1 and 31" |} errors))).
Proof.
  intros Hn Hne Hnul Hm Hmr Hd Hdr Hy Hyr Hauth Hcid Hnd Hu Hfresh.
  split.
  - assert (forall z, y = Some z -> - MAX_SAFE_INTEGER <= z <= MAX_SAFE_INTEGER) as Hsafe.
    { intros z Hz. pose proof (Hyr z Hz). unfold MAX_SAFE_INTEGER. lia. }
    destruct (createContactSchema_accepts _ Hn Hne Hm Hmr Hd Hdr Hy Hsafe)
      as [data [Eschema [En [Em [Ed Ey]]]]].
    rewrite createContact_eq, Eschema, Hauth, (no_identity_some Hcid).
    rewrite (resolved_user_unique req _ u Hnd Hu Hauth).
    assert (insert_refused e u data (db s) = false) as Hins.
    { unfold insert_refused. rewrite existsb_none.
      2:{ intros x Hx. apply String.eqb_neq. now apply Hfresh. }
      assert (existsb (fun x => String.eqb (user_id x) (user_id u)) (users (db s)) = true)
        as Eu.
      { apply existsb_exists. exists u. split; [exact Hu | apply String.eqb_refl]. }
      rewrite Eu. simpl.
      unfold values_fit, new_values. simpl. rewrite En, Em, Ed, Ey.
      unfold fits_text. rewrite Hnul. simpl.
      rewrite (@small_fits_int4 m) by lia. rewrite (@small_fits_int4 d) by lia.
      destruct y as [z|]; [|reflexivity].
      rewrite (proj2 (fits_int4_spec z) (Hyr z eq_refl)). reflexivity. }
    rewrite Hins. unfold new_contact. now rewrite En, Em, Ed, Ey.
  - intros req' s' q.
    assert (forall (issues : list Issue) (k : string) (text : option string),
               In {| path := [k]; message := text |} issues ->
               In {| field := k; message_text := text |} (formatZodError issues))
      as Hfield.
    { intros issues k text Hin.
      apply (in_map (fun issue => {| field := join "." (path issue);
                                     message_text := message issue |})) in Hin.
      exact Hin. }
    split; intros Hq Hout.
    + destruct (@createContactSchema_rejects (body req') "birthdayMonth" 1 12
                  month_message q) as [issues [E [[text Htext] Hin]]]; auto.
      exists (formatZodError issues). rewrite createContact_eq, E.
      split; [reflexivity | split].
      * exists text. now apply Hfield.
      * intro Hi. apply (Hfield issues "birthdayMonth" (Some month_message)).
        now apply Hin.
    + destruct (@createContactSchema_rejects (body req') "birthdayDay" 1 31
                  day_message q) as [issues [E [[text Htext] Hin]]]; auto.
      exists (formatZodError issues). rewrite createContact_eq, E.
      split; [reflexivity | split].
      * exists text. now apply Hfield.
      * intro Hi. apply (Hfield issues "birthdayDay" (Some day_message)).
        now apply Hin.
Qed.

(** February 31st is accepted and stored as given. *)
Lemma createContact_independent_ranges_witness :
  exists c,
    fst (createContact sample_env (by_b EmptyString ada_february_31)
                       (fresh_store db_two_users))
    = res_status 201 (JsonContact c)
    /\ birthdayMonth c = 2 /\ birthdayDay c = 31.
Proof.
  eexists. split.
  - rewrite (proj1 (@createContact_independent_ranges
                      sample_env (by_b EmptyString ada_february_31)
                      (fresh_store db_two_users) user_b "Ada" 2 31 None
                      eq_refl ltac:(discriminate) eq_refl
                      eq_refl ltac:(lia)
                      eq_refl ltac:(lia)
                      (or_introl (conj eq_refl eq_refl))
                      ltac:(intros z Hz; discriminate Hz)
                      eq_refl ltac:(discriminate)
                      (users_clerk_unique db_two_users_constraints)
                      ltac:(simpl; auto)
                      ltac:(simpl; intros x [<- | []]; discriminate))).
    reflexivity.
  - split; reflexivity.
Defined.

(** C6, the claim as stated fails: a body whose name, month and day
    are in range is answered 400 when its year is a text. *)
Lemma create_year_as_text_is_400 :
  prop (JObj ada_year_as_text) "name" = Some (JStr "Ada")
  /\ prop (JObj ada_year_as_text) "birthdayMonth" = Some (JNum (inject_Z 2))
  /\ prop (JObj ada_year_as_text) "birthdayDay" = Some (JNum (inject_Z 31))
  /\ status (fst (createContact sample_env (by_b EmptyString ada_year_as_text)
                    (fresh_store db_two_users))) = 400
  /\ forall c, fst (createContact sample_env (by_b EmptyString ada_year_as_text)
                      (fresh_store db_two_users))
               <> res_status 201 (JsonContact c).
Proof.
  repeat split; try reflexivity. intros c. discriminate.
Qed.

(** ** Updating a contact *)





(** What the validation guarantees of an accepted body. *)
Lemma int_between_sound (lo hi : Z) (m : string) (p : list string) (v : option json)
      (z : Z) :
  int_between lo hi m p v = inr z -> lo <= z <= hi.
Proof.
  unfold int_between, checked.
  destruct v as [[| |q| | |]|]; try discriminate.
  destruct (is_integer q) eqn:Ei; [|discriminate].
  destruct (safe_check p q); [|discriminate].
  destruct (Qle_bool (inject_Z lo) q) eqn:El; [|discriminate].
  destruct (Qle_bool q (inject_Z hi)) eqn:Eh; [|discriminate].
  simpl. intro H. injection H as <-.
  unfold is_integer in Ei. apply Z.eqb_eq in Ei.
  unfold Qle_bool in El, Eh. simpl in El, Eh.
  apply Z.leb_le in El, Eh. rewrite Z.mul_1_r in El, Eh.
  unfold integer_value.
  destruct q as [num den]. simpl in *.
  pose proof (Z.div_mod num (Zpos den) ltac:(lia)) as Hdm.
  rewrite Ei, Z.add_0_r in Hdm.
  set (k := num / Zpos den) in *.
  assert (0 < Zpos den) as Hden by lia.
  split; nia.
Qed.

Lemma string_min1_sound (m : string) (p : list string) (v : option json) (n : string) :
  string_min1 m p v = inr n -> n <> EmptyString.
Proof.
  unfold string_min1, checked.
  destruct v as [[| | |t| |]|]; try discriminate.
  destruct t; simpl; [discriminate|]. intro H. injection H as <-. discriminate.
Qed.

Lemma createContactSchema_sound (b : json) (data : CreateData) :
  createContactSchema b = inr data ->
  c_name data <> EmptyString
  /\ 1 <= c_birthdayMonth data <= 12
  /\ 1 <= c_birthdayDay data <= 31.
Proof.
  unfold createContactSchema. destruct b; try discriminate.
  destruct (string_min1 _ _ _) as [?|n] eqn:En;
    destruct (int_between 1 12 _ _ _) as [?|m] eqn:Em;
    destruct (int_between 1 31 _ _ _) as [?|d] eqn:Ed;
    destruct (optional _ _) as [?|y]; try discriminate.
  intro H. injection H as <-. simpl.
  split; [exact (string_min1_sound _ _ _ En) | split].
  - exact (int_between_sound _ _ _ _ _ Em).
  - exact (int_between_sound _ _ _ _ _ Ed).
Qed.

Lemma optional_sound {A : Type} (inner : option json -> Parse A) (v : option json)
      (r : option A) (a : A) :
  optional inner v = inr r -> r = Some a -> inner v = inr a.
Proof.
  unfold optional. destruct v as [j|]; [|intros H; injection H as <-; discriminate].
  destruct (inner (Some j)); [discriminate|].
  intros H ->. now injection H as ->.
Qed.

Lemma updateContactSchema_sound (b : json) (data : UpdateData) :
  updateContactSchema b = inr data ->
  (forall n, u_name data = Some n -> n <> EmptyString)
  /\ (forall m, u_birthdayMonth data = Some m -> 1 <= m <= 12)
  /\ (forall d, u_birthdayDay data = Some d -> 1 <= d <= 31).
Proof.
  unfold updateContactSchema. destruct b; try discriminate.
  destruct (optional (string_min1 _ _) _) as [?|n] eqn:En;
    destruct (optional (int_between 1 12 _ _) _) as [?|m] eqn:Em;
    destruct (optional (int_between 1 31 _ _) _) as [?|d] eqn:Ed;
    destruct (optional (nullable _) _) as [?|y]; try discriminate.
  destruct (0 <? _)%nat; [|discriminate].
  intro H. injection H as <-. simpl.
  split; [| split].
  - intros n' ->. exact (string_min1_sound _ _ _ (@optional_sound _ _ _ _ _ En eq_refl)).
  - intros m' ->. exact (int_between_sound _ _ _ _ _ (@optional_sound _ _ _ _ _ Em eq_refl)).
  - intros d' ->. exact (int_between_sound _ _ _ _ _ (@optional_sound _ _ _ _ _ Ed eq_refl)).
Qed.

Lemma map_preserves_ids (f : Contact -> Contact) (l : list Contact) :
  (forall x, id (f x) = id x) -> map id (map f l) = map id l.
Proof.
  intro H. rewrite map_map. apply map_ext. exact H.
Qed.






(** ** Syncing a user *)

Lemma filter_map_stable {A : Type} (p : A -> bool) (f : A -> A) (l : list A) :
  (forall x, p (f x) = p x) -> filter p (map f l) = map f (filter p l).
Proof.
  intro H. induction l as [|a l IH]; simpl; [reflexivity|].
  rewrite H. destruct (p a); simpl; now rewrite IH.
Qed.

Lemma existsb_unique_row (cid : string) (l : list User) :
  NoDup (map clerkUserId l) -> existsb (eq_clerkUserId cid) l = true ->
  exists u, filter (eq_clerkUserId cid) l = [u].
Proof.
  intros Hnd Hex. apply existsb_exists in Hex. destruct Hex as [u [Hu E]].
  unfold eq_clerkUserId in E. apply String.eqb_eq in E. subst cid.
  exists u. exact (filter_key_unique clerkUserId l u Hnd Hu).
Qed.

Section ConflictUpdate.

Variable cid : string.
Variable em : option string.
Variable t : Timestamp.

Lemma on_conflict_keeps_clerk (x : User) :
  clerkUserId (on_conflict cid em t x) = clerkUserId x.
Proof. unfold on_conflict. destruct (eq_clerkUserId cid x); reflexivity. Qed.

Lemma on_conflict_keeps_match (x : User) :
  eq_clerkUserId cid (on_conflict cid em t x) = eq_clerkUserId cid x.
Proof. unfold eq_clerkUserId. now rewrite on_conflict_keeps_clerk. Qed.

Lemma conflict_update_table (l : list User) (u : User) :
  filter (eq_clerkUserId cid) l = [u] ->
  filter (eq_clerkUserId cid) (map (on_conflict cid em t) l) = [conflict_update em t u]
  /\ others cid (map (on_conflict cid em t) l) = others cid l
  /\ length (map (on_conflict cid em t) l) = length l
  /\ map clerkUserId (map (on_conflict cid em t) l) = map clerkUserId l.
Proof.
  intro Hu.
  assert (eq_clerkUserId cid u = true) as Hmatch.
  { assert (In u (filter (eq_clerkUserId cid) l)) as Hin by (rewrite Hu; now left).
    now apply filter_In in Hin. }
  split; [| split; [| split]].
  - rewrite (filter_map_stable _ _ l on_conflict_keeps_match), Hu. simpl.
    unfold on_conflict. now rewrite Hmatch.
  - unfold others.
    rewrite (filter_map_stable (fun x => negb (eq_clerkUserId cid x)) (on_conflict cid em t) l).
    + rewrite <- (map_id (filter _ l)) at 2. apply map_ext_in.
      intros x Hx. apply filter_In in Hx. destruct Hx as [_ Hx].
      unfold on_conflict. apply negb_true_iff in Hx. now rewrite Hx.
    + intro x. now rewrite on_conflict_keeps_match.
  - apply length_map.
  - rewrite map_map. apply map_ext. exact on_conflict_keeps_clerk.
Qed.

End ConflictUpdate.

(** One call by an identity that already has its row. *)
Lemma syncUser_existing (e : Env) (req : Request) (s : Store) (cid : string) (u : User) :
  auth_userId req = Some cid -> cid <> EmptyString ->
  filter (eq_clerkUserId cid) (users (db s)) = [u] ->
  syncUser e req s
  = match clerk_emailAddresses e cid with
    | None => (internal_error, s)
    | Some emailAddresses =>
        (res_json JsonSuccess,
         {| db := {| users :=
                       map (on_conflict cid (hd_error emailAddresses) (now e))
                           (users (db s));
                     contactsBirthdays := contactsBirthdays (db s) |};
            log := (log s ++ [Insert TUsers])%list |})
    end.
Proof.
  intros Hauth Hne Hu.
  unfold syncUser. rewrite Hauth, (no_identity_some Hne). simpl or_else.
  unfold try_catch.
  destruct (clerk_emailAddresses e cid) as [emailAddresses|]; [|reflexivity].
  unfold bind, upsert_user, bind, sent, read_db, write_db, ret. simpl.
  assert (existsb (eq_clerkUserId cid) (users (db s)) = true) as Hex.
  { apply existsb_exists. exists u.
    assert (In u (filter (eq_clerkUserId cid) (users (db s)))) as Hin
        by (rewrite Hu; now left).
    now apply filter_In in Hin. }
  now rewrite Hex.
Qed.

(** Any number of further calls keeps the one row of the identity. *)
Lemma sync_all_keeps_row (req : Request) (cid : string) (later : list Env) :
  auth_userId req = Some cid -> cid <> EmptyString ->
  forall (s : Store) (u : User),
    filter (eq_clerkUserId cid) (users (db s)) = [u] ->
    NoDup (map clerkUserId (users (db s))) ->
    exists un,
      filter (eq_clerkUserId cid) (users (db (sync_all req later s))) = [un]
      /\ user_id un = user_id u
      /\ clerkUserId un = clerkUserId u
      /\ user_createdAt un = user_createdAt u
      /\ length (users (db (sync_all req later s))) = length (users (db s))
      /\ others cid (users (db (sync_all req later s))) = others cid (users (db s))
      /\ contactsBirthdays (db (sync_all req later s)) = contactsBirthdays (db s)
      /\ NoDup (map clerkUserId (users (db (sync_all req later s)))).
Proof.
  intros Hauth Hne.
  induction later as [|e later IH]; intros s u Hu Hnd.
  - exists u. simpl. repeat split; auto.
  - change (sync_all req (e :: later) s)
      with (sync_all req later (snd (syncUser e req s))).
    rewrite (syncUser_existing e req s Hauth Hne Hu).
    destruct (clerk_emailAddresses e cid) as [emailAddresses|]; cbn [snd].
    + destruct (conflict_update_table cid (hd_error emailAddresses) (now e) _ Hu)
        as [Hrow [Hothers [Hlen Hclerk]]].
      match goal with
      | |- context [sync_all req later ?st] => set (s1 := st)
      end.
      destruct (IH s1 (conflict_update (hd_error emailAddresses) (now e) u))
        as [un [H1 [H2 [H3 [H4 [H5 [H6 [H7 H8]]]]]]]].
      * exact Hrow.
      * subst s1. simpl. rewrite Hclerk. exact Hnd.
      * exists un. subst s1. simpl in *.
        repeat split; auto; try congruence.
    + now apply IH.
Qed.

(** One call by an identity that has no row yet. *)
Lemma syncUser_absent (e : Env) (req : Request) (s : Store) (cid : string) :
  auth_userId req = Some cid -> cid <> EmptyString ->
  existsb (eq_clerkUserId cid) (users (db s)) = false ->
  syncUser e req s
  = match clerk_emailAddresses e cid with
    | None => (internal_error, s)
    | Some emailAddresses =>
        if existsb (fun u => String.eqb (user_id u) (random_uuid e)) (users (db s))
        then (internal_error, {| db := db s; log := (log s ++ [Insert TUsers])%list |})
        else
          (res_json JsonSuccess,
           {| db := {| users :=
                         (users (db s) ++
                          [ {| user_id := random_uuid e; clerkUserId := cid;
                               email := hd_error emailAddresses;
                               user_createdAt := Some (now e);
                               user_updatedAt := Some (now e) |} ])%list;
                       contactsBirthdays := contactsBirthdays (db s) |};
              log := (log s ++ [Insert TUsers])%list |})
    end.
Proof.
  intros Hauth Hne Hex.
  unfold syncUser. rewrite Hauth, (no_identity_some Hne). simpl or_else.
  unfold try_catch.
  destruct (clerk_emailAddresses e cid) as [emailAddresses|]; [|reflexivity].
  unfold bind, upsert_user, bind, sent, read_db, write_db, throw, ret. simpl.
  rewrite Hex.
  destruct (existsb (fun u => String.eqb (user_id u) (random_uuid e)) (users (db s)));
    reflexivity.
Qed.

Lemma existsb_false_filter {A : Type} (p : A -> bool) (l : list A) :
  existsb p l = false -> filter p l = [].
Proof.
  intro H. apply filter_none. intros x Hx.
  destruct (p x) eqn:E; [|reflexivity].
  assert (existsb p l = true) as Ht by (apply existsb_exists; eauto).
  congruence.
Qed.

Lemma NoDup_snoc {A : Type} (l : list A) (a : A) :
  NoDup l -> ~ In a l -> NoDup (l ++ [a]).
Proof.
  induction l as [|b l IH]; intros Hnd Hnot; simpl.
  - constructor; [intros [] | constructor].
  - inversion Hnd as [|? ? Hb Hl]; subst. constructor.
    + intro Hin. apply in_app_or in Hin. destruct Hin as [Hin | [-> | []]].
      * contradiction.
      * apply Hnot. now left.
    + apply IH; [assumption|]. intro Hin. apply Hnot. now right.
Qed.

(** C7. For every external identity, once a sync call has succeeded
    there is exactly one user row keyed by that identity, and any
    number of further sync calls by the same identity leaves exactly
    one such row: the same row (same id, same external id, same
    creation time), in a users table of the same length whose other
    rows are unchanged.  The first call creates the row when the
    identity had none; a further call that succeeds changes nothing of
    that row but its email and its update timestamp, which takes the
    time of the call. *)
Theorem syncUser_idempotent
        (req : Request) (cid : string) (first : Env) (later : list Env) (s0 : Store) :
  auth_userId req = Some cid ->
  NoDup (map clerkUserId (users (db s0))) ->
  fst (syncUser first req s0) = res_json JsonSuccess ->
  let s1 := snd (syncUser first req s0) in
  let sn := sync_all req later s1 in
  exists u1 un,
    filter (eq_clerkUserId cid) (users (db s1)) = [u1]
    /\ filter (eq_clerkUserId cid) (users (db sn)) = [un]
    /\ user_id un = user_id u1
    /\ clerkUserId un = cid
    /\ user_createdAt un = user_createdAt u1
    /\ length (users (db sn)) = length (users (db s1))
    /\ others cid (users (db sn)) = others cid (users (db s1))
    /\ NoDup (map clerkUserId (users (db sn)))
    /\ (filter (eq_clerkUserId cid) (users (db s0)) = [] ->
        users (db s1) = (users (db s0) ++ [u1])%list
        /\ user_createdAt u1 = Some (now first))
    /\ (forall u0, filter (eq_clerkUserId cid) (users (db s0)) = [u0] ->
                   length (users (db s1)) = length (users (db s0))
                   /\ user_id u1 = user_id u0
                   /\ user_createdAt u1 = user_createdAt u0)
    /\ (forall e emailAddresses,
           clerk_emailAddresses e cid = Some emailAddresses ->
           fst (syncUser e req sn) = res_json JsonSuccess
           /\ filter (eq_clerkUserId cid) (users (db (snd (syncUser e req sn))))
              = [ {| user_id := user_id un; clerkUserId := clerkUserId un;
                     email := match hd_error emailAddresses with
                              | Some a => Some a
                              | None => email un
                              end;
                     user_createdAt := user_createdAt un;
                     user_updatedAt := Some (now e) |} ]
           /\ length (users (db (snd (syncUser e req sn)))) = length (users (db sn))).
Proof.
  intros Hauth Hnd Hok s1 sn.
  assert (cid <> EmptyString) as Hne.
  { intro E. subst cid. unfold syncUser in Hok. rewrite Hauth in Hok.
    simpl in Hok. discriminate Hok. }
  (* the store after the first call *)
  assert (exists u1,
             filter (eq_clerkUserId cid) (users (db s1)) = [u1]
             /\ clerkUserId u1 = cid
             /\ NoDup (map clerkUserId (users (db s1)))
             /\ (filter (eq_clerkUserId cid) (users (db s0)) = [] ->
                 users (db s1) = (users (db s0) ++ [u1])%list
                 /\ user_createdAt u1 = Some (now first))
             /\ (forall u0, filter (eq_clerkUserId cid) (users (db s0)) = [u0] ->
                            length (users (db s1)) = length (users (db s0))
                            /\ user_id u1 = user_id u0
                            /\ user_createdAt u1 = user_createdAt u0))
    as [u1 [Hrow1 [Hcid1 [Hnd1 [Hcreate Hkeep]]]]].
  { destruct (existsb (eq_clerkUserId cid) (users (db s0))) eqn:Hex.
    - destruct (existsb_unique_row cid _ Hnd Hex) as [u0 Hu0].
      subst s1. rewrite (syncUser_existing first req s0 Hauth Hne Hu0) in *.
      destruct (clerk_emailAddresses first cid) as [emailAddresses|];
        [| discriminate Hok].
      destruct (conflict_update_table cid (hd_error emailAddresses) (now first) _ Hu0)
        as [Hrow [_ [Hlen Hclerk]]].
      exists (conflict_update (hd_error emailAddresses) (now first) u0). simpl.
      split; [exact Hrow | split; [| split; [| split]]].
      + simpl.
        assert (In u0 (filter (eq_clerkUserId cid) (users (db s0)))) as Hin
            by (rewrite Hu0; now left).
        apply filter_In in Hin. destruct Hin as [_ Hin].
        now apply String.eqb_eq in Hin.
      + rewrite Hclerk. exact Hnd.
      + intro Hnone. rewrite Hnone in Hu0. discriminate Hu0.
      + intros u0' Hu0'. rewrite Hu0' in Hu0. injection Hu0 as ->.
        split; [exact Hlen | split; reflexivity].
    - subst s1. rewrite (syncUser_absent first req s0 Hauth Hne Hex) in *.
      destruct (clerk_emailAddresses first cid) as [emailAddresses|];
        [| discriminate Hok].
      destruct (existsb (fun u => String.eqb (user_id u) (random_uuid first))
                        (users (db s0))); [discriminate Hok|].
      eexists. simpl.
      split; [| split; [| split; [| split]]].
      + rewrite filter_app, (existsb_false_filter _ _ Hex). simpl.
        unfold eq_clerkUserId at 1. simpl. rewrite String.eqb_refl. reflexivity.
      + reflexivity.
      + rewrite map_app. simpl. apply NoDup_snoc; [exact Hnd|].
        intro Hin. apply in_map_iff in Hin. destruct Hin as [x [Ex Hx]].
        assert (existsb (eq_clerkUserId cid) (users (db s0)) = true) as Ht.
        { apply existsb_exists. exists x. split; [exact Hx|].
          unfold eq_clerkUserId. now apply String.eqb_eq. }
        congruence.
      + intros _. split; reflexivity.
      + intros u0 Hu0. rewrite (existsb_false_filter _ _ Hex) in Hu0. discriminate Hu0. }
  destruct (sync_all_keeps_row req later Hauth Hne s1 Hrow1 Hnd1)
    as [un [Hrown [Hid [Hclerk [Hcreated [Hlen [Hothers [_ Hndn]]]]]]]].
  fold sn in Hrown, Hlen, Hothers, Hndn.
  exists u1, un.
  split; [exact Hrow1 | split; [exact Hrown | split; [exact Hid |]]].
  split; [congruence | split; [exact Hcreated | split; [exact Hlen |]]].
  split; [exact Hothers | split; [exact Hndn | split; [exact Hcreate |]]].
  split; [exact Hkeep |].
  intros e emailAddresses Hemails.
  rewrite (syncUser_existing e req sn Hauth Hne Hrown), Hemails. simpl.
  destruct (conflict_update_table cid (hd_error emailAddresses) (now e) _ Hrown)
    as [Hrow [_ [Hlen' _]]].
  split; [reflexivity | split; [exact Hrow | exact Hlen']].
Qed.

Lemma syncUser_idempotent_witness :
  exists u1 un,
    filter (eq_clerkUserId "clerk_z")
           (users (db (snd (syncUser sample_env sync_by_z (fresh_store db_two_users)))))
    = [u1]
    /\ filter (eq_clerkUserId "clerk_z")
              (users (db (sync_all sync_by_z [later_env; later_env]
                            (snd (syncUser sample_env sync_by_z
                                           (fresh_store db_two_users))))))
       = [un]
    /\ user_id un = user_id u1.
Proof.
  destruct (@syncUser_idempotent sync_by_z "clerk_z" sample_env [later_env; later_env]
              (fresh_store db_two_users) eq_refl
              (users_clerk_unique db_two_users_constraints) eq_refl)
    as [u1 [un [H1 [Hn [Hid _]]]]].
  exists u1, un. split; [exact H1 | split; [exact Hn | exact Hid]].
Defined.

(** ** The store stays well formed *)

(** The helper never throws, leaves the rows alone and hands back a
    row of the users table. *)
Lemma getAuthenticatedUser_cases (req : Request) (s : Store) :
  exists r s',
    getAuthenticatedUser req s = (Returned r, s')
    /\ db s' = db s
    /\ (forall u, r = inr u -> In u (users (db s))).
Proof.
  unfold getAuthenticatedUser.
  destruct (no_identity (auth_userId req)).
  - eexists. eexists. split; [reflexivity | split; [reflexivity|]].
    intros u H. discriminate H.
  - unfold bind, select_users, bind, sent, read_db, ret. simpl.
    destruct (filter _ (users (db s))) as [|u0 rest] eqn:E; simpl.
    + eexists. eexists. split; [reflexivity | split; [reflexivity|]].
      intros u H. discriminate H.
    + eexists. eexists. split; [reflexivity | split; [reflexivity|]].
      intros u H. injection H as <-.
      assert (In u0 (filter (eq_clerkUserId (or_else (auth_userId req) EmptyString))
                            (users (db s)))) as Hin by (rewrite E; now left).
      now apply filter_In in Hin.
Qed.

Lemma NoDup_map_filter {A B : Type} (key : A -> B) (p : A -> bool) (l : list A) :
  NoDup (map key l) -> NoDup (map key (filter p l)).
Proof.
  induction l as [|a l IH]; simpl; intro H; [constructor|].
  inversion H as [|? ? Hnot Hl]; subst.
  destruct (p a); simpl; [|now apply IH].
  constructor; [|now apply IH].
  intro Hin. apply Hnot. apply in_map_iff in Hin. destruct Hin as [x [Ex Hx]].
  apply filter_In in Hx. rewrite <- Ex. apply in_map. tauto.
Qed.

Lemma existsb_false_not_in {A : Type} (key : A -> string) (k : string) (l : list A) :
  existsb (fun x => String.eqb (key x) k) l = false -> ~ In k (map key l).
Proof.
  intros H Hin. apply in_map_iff in Hin. destruct Hin as [x [Ex Hx]].
  assert (existsb (fun y => String.eqb (key y) k) l = true) as Ht.
  { apply existsb_exists. exists x. split; [exact Hx | now apply String.eqb_eq]. }
  congruence.
Qed.

Section StoreShapes.

Variable d : Db.
Hypothesis d_ok : store_ok d.

Lemma store_ok_insert (c : Contact) :
  valid_row c -> ~ In (id c) (map id (contactsBirthdays d)) ->
  In (userId c) (map user_id (users d)) ->
  store_ok {| users := users d; contactsBirthdays := (contactsBirthdays d ++ [c])%list |}.
Proof.
  destruct d_ok as [[Hupk Huq Hcpk Hfk] Hrows]. intros Hc Hfresh Howner.
  split; [split; simpl; auto|].
  - rewrite map_app. simpl. now apply NoDup_snoc.
  - intros x Hx. apply in_app_or in Hx. destruct Hx as [Hx | [<- | []]]; auto.
  - simpl. apply Forall_app. split; [exact Hrows | now constructor].
Qed.

Lemma store_ok_update (f : Contact -> Contact) :
  (forall x, id (f x) = id x) -> (forall x, userId (f x) = userId x) ->
  (forall x, valid_row x -> valid_row (f x)) ->
  store_ok {| users := users d; contactsBirthdays := map f (contactsBirthdays d) |}.
Proof.
  destruct d_ok as [[Hupk Huq Hcpk Hfk] Hrows]. intros Hid Howner Hvalid.
  split; [split; simpl; auto|].
  - rewrite map_preserves_ids; assumption.
  - intros x Hx. apply in_map_iff in Hx. destruct Hx as [y [<- Hy]].
    rewrite Howner. now apply Hfk.
  - simpl. apply Forall_map. apply (Forall_impl _ Hvalid). exact Hrows.
Qed.

Lemma store_ok_delete (p : Contact -> bool) :
  store_ok {| users := users d; contactsBirthdays := filter p (contactsBirthdays d) |}.
Proof.
  destruct d_ok as [[Hupk Huq Hcpk Hfk] Hrows].
  split; [split; simpl; auto|].
  - now apply NoDup_map_filter.
  - intros x Hx. apply filter_In in Hx. now apply Hfk.
  - simpl. rewrite Forall_forall in *. intros x Hx. apply filter_In in Hx.
    now apply Hrows.
Qed.

Lemma store_ok_touch_users (f : User -> User) :
  (forall x, user_id (f x) = user_id x) -> (forall x, clerkUserId (f x) = clerkUserId x) ->
  store_ok {| users := map f (users d); contactsBirthdays := contactsBirthdays d |}.
Proof.
  destruct d_ok as [[Hupk Huq Hcpk Hfk] Hrows]. intros Hid Hclerk.
  assert (map user_id (map f (users d)) = map user_id (users d)) as Eid
      by (rewrite map_map; now apply map_ext).
  assert (map clerkUserId (map f (users d)) = map clerkUserId (users d)) as Ecl
      by (rewrite map_map; now apply map_ext).
  split; [split; simpl; auto|]; simpl; try congruence.
  intros c Hc. rewrite Eid. now apply Hfk.
Qed.

Lemma store_ok_add_user (u : User) :
  ~ In (user_id u) (map user_id (users d)) ->
  ~ In (clerkUserId u) (map clerkUserId (users d)) ->
  store_ok {| users := (users d ++ [u])%list; contactsBirthdays := contactsBirthdays d |}.
Proof.
  destruct d_ok as [[Hupk Huq Hcpk Hfk] Hrows]. intros Hid Hclerk.
  split; [split; simpl; auto|]; simpl; auto.
  - rewrite map_app. now apply NoDup_snoc.
  - rewrite map_app. now apply NoDup_snoc.
  - intros c Hc. rewrite map_app. apply in_or_app. left. now apply Hfk.
Qed.

End StoreShapes.

Lemma apply_set_valid (data : UpdateData) (t : Timestamp) (b : json) (c : Contact) :
  updateContactSchema b = inr data -> valid_row c ->
  valid_row (apply_set {| set_name := u_name data;
                          set_birthdayYear := u_birthdayYear data;
                          set_birthdayMonth := u_birthdayMonth data;
                          set_birthdayDay := u_birthdayDay data;
                          set_updatedAt := t |} c).
Proof.
  intros Hdata [Hn [Hm Hd]].
  destruct (updateContactSchema_sound _ Hdata) as [Sn [Sm Sd]].
  unfold valid_row, apply_set. simpl.
  split; [| split].
  - destruct (u_name data) as [n|]; simpl; [now apply Sn | exact Hn].
  - destruct (u_birthdayMonth data) as [m|]; simpl; [now apply Sm | exact Hm].
  - destruct (u_birthdayDay data) as [d'|]; simpl; [now apply Sd | exact Hd].
Qed.

(** X15. From a store that satisfies the constraints of the schema
    (both primary keys, the unique external id, the owner reference) and
    whose contact rows all have a non-empty name, a month in 1..12 and a
    day in 1..31, every contacts route, on every request, leaves a store
    of which the same holds. *)
Lemma contactsRouter_keeps_store_ok
      (route : ContactsRoute) (e : Env) (req : Request) (s : Store) :
  store_ok (db s) -> store_ok (db (snd (contactsRouter route e req s))).
Proof.
  intro Hok.
  destruct route; simpl.
  - rewrite getContacts_eq.
    destruct (no_identity (auth_userId req)); [exact Hok|].
    destruct (resolved_user req (db s)); exact Hok.
  - rewrite getContactById_eq.
    destruct (no_identity (auth_userId req)); [exact Hok|].
    destruct (resolved_user req (db s)); exact Hok.
  - rewrite createContact_eq.
    destruct (createContactSchema (body req)) as [issues|data] eqn:Edata; [exact Hok|].
    destruct (createContactSchema_sound _ Edata) as [Sn [Sm Sd]].
    destruct (no_identity (auth_userId req)); [exact Hok|].
    destruct (resolved_user req (db s)) as [u|]; [|exact Hok].
    destruct (insert_refused e u data (db s)) eqn:Eref; [exact Hok|].
    unfold insert_refused in Eref.
    apply orb_false_iff in Eref. destruct Eref as [Eref _].
    apply orb_false_iff in Eref. destruct Eref as [Epk Efk].
    apply negb_false_iff in Efk.
    simpl. apply store_ok_insert; simpl; auto.
    + repeat split; tauto.
    + now apply (existsb_false_not_in id).
    + apply existsb_exists in Efk. destruct Efk as [x [Hx Ex]].
      apply String.eqb_eq in Ex. rewrite <- Ex. now apply in_map.
  - rewrite updateContact_eq.
    destruct (updateContactSchema (body req)) as [issues|data] eqn:Edata; [exact Hok|].
    destruct (no_identity (auth_userId req)); [exact Hok|].
    destruct (resolved_user req (db s)) as [u|]; [|exact Hok].
    destruct (id_is_uuid req); [|exact Hok].
    destruct (filter (owned_by req u) (contactsBirthdays (db s))); [exact Hok|].
    destruct (set_fits (update_set e data)); [|exact Hok].
    simpl. apply store_ok_update; auto.
    + intro x. destruct (owned_by req u x); reflexivity.
    + intro x. destruct (owned_by req u x); reflexivity.
    + intros x Hx. destruct (owned_by req u x); [|exact Hx].
      exact (@apply_set_valid data (now e) (body req) x Edata Hx).
  - rewrite deleteContact_eq.
    destruct (no_identity (auth_userId req)); [exact Hok|].
    destruct (resolved_user req (db s)) as [u|]; [|exact Hok].
    destruct (id_is_uuid req); [|exact Hok].
    destruct (filter (owned_by req u) (contactsBirthdays (db s))); [exact Hok|].
    simpl. now apply store_ok_delete.
Qed.

(** X16. From such a store the sync endpoint, on every request and
    whatever the identity provider answers, leaves a store that again
    satisfies the constraints of the schema and has only valid rows. *)
Lemma syncUser_keeps_store_ok (e : Env) (req : Request) (s : Store) :
  store_ok (db s) -> store_ok (db (snd (syncUser e req s))).
Proof.
  intro Hok. unfold syncUser.
  destruct (no_identity (auth_userId req)); [exact Hok|].
  unfold try_catch.
  destruct (clerk_emailAddresses e _) as [emailAddresses|]; [|exact Hok].
  unfold bind, upsert_user, bind, sent, read_db, write_db, throw, ret. simpl.
  destruct (existsb (eq_clerkUserId _) (users (db s))) eqn:Ecl; simpl.
  - apply store_ok_touch_users; auto.
    + intro x. unfold on_conflict. destruct (eq_clerkUserId _ x); reflexivity.
    + intro x. unfold on_conflict. destruct (eq_clerkUserId _ x); reflexivity.
  - destruct (existsb (fun u => String.eqb (user_id u) (random_uuid e)) (users (db s)))
      eqn:Eid; simpl; [exact Hok|].
    apply store_ok_add_user; simpl; auto.
    + now apply (existsb_false_not_in user_id).
    + now apply (existsb_false_not_in clerkUserId).
Qed.

(* ================================================================== *)
(** * Further properties of the handlers *)

(** ** Who may see and change what *)

Lemma db_two_users_ok : store_ok db_two_users.
Proof.
  split; [exact db_two_users_constraints|].
  repeat constructor; simpl; try lia. discriminate.
Qed.

(** X1. A request without caller identity is answered 401 with the
    error [Unauthorized] on every contacts route, and the store is not
    touched at all; only a create or update whose body fails validation
    is answered 400 with the field errors instead, again without any
    store access. *)
Theorem anonymous_request_is_401
        (route : ContactsRoute) (e : Env) (req : Request) (s : Store) :
  no_identity (auth_userId req) = true ->
  contactsRouter route e req s
  = match body_rejected route req with
    | Some issues => (res_status 400 (JsonErrors (formatZodError issues)), s)
    | None => (res_status 401 (JsonError "Unauthorized"), s)
    end.
Proof.
  intro Hanon. destruct route; simpl.
  - now rewrite getContacts_eq, Hanon.
  - now rewrite getContactById_eq, Hanon.
  - rewrite createContact_eq, Hanon.
    destruct (createContactSchema (body req)); reflexivity.
  - rewrite updateContact_eq, Hanon.
    destruct (updateContactSchema (body req)); reflexivity.
  - now rewrite deleteContact_eq, Hanon.
Qed.

Lemma anonymous_request_is_401_witness :
  contactsRouter DELETE_contact sample_env by_nobody (fresh_store db_two_users)
  = (res_status 401 (JsonError "Unauthorized"), fresh_store db_two_users).
Proof.
  apply (anonymous_request_is_401 DELETE_contact sample_env by_nobody
           (fresh_store db_two_users)).
  reflexivity.
Defined.

(** X2. For a caller whose identity resolves to the user row [u], the
    list route answers 200 with the rows of the contacts table owned by
    [u], in table order: every row it returns is owned by [u], every
    row of the table owned by [u] is returned, and the store is left as
    it was. *)
Theorem getContacts_lists_own_rows
        (e : Env) (req : Request) (s : Store) (u : User) :
  NoDup (map clerkUserId (users (db s))) -> In u (users (db s)) ->
  auth_userId req = Some (clerkUserId u) -> clerkUserId u <> EmptyString ->
  let rows := filter (fun c => String.eqb (userId c) (user_id u))
                     (contactsBirthdays (db s)) in
  fst (getContacts e req s) = res_json (JsonContacts rows)
  /\ (forall c, In c rows <-> In c (contactsBirthdays (db s)) /\ userId c = user_id u)
  /\ db (snd (getContacts e req s)) = db s.
Proof.
  intros Hnd Hu Hauth Hne rows.
  rewrite getContacts_eq, (resolved_user_unique req _ u Hnd Hu Hauth).
  rewrite Hauth, (no_identity_some Hne). simpl.
  split; [reflexivity | split; [| reflexivity]].
  intro c. subst rows. rewrite filter_In.
  split; intros [Hc Ho]; (split; [exact Hc|]).
  - now apply String.eqb_eq.
  - now apply String.eqb_eq.
Qed.

Lemma getContacts_lists_own_rows_witness :
  fst (getContacts sample_env (by_a EmptyString []) (fresh_store db_two_users))
  = res_json (JsonContacts [contact_of_a]).
Proof.
  apply (@getContacts_lists_own_rows sample_env (by_a EmptyString [])
           (fresh_store db_two_users) user_a).
  - exact (users_clerk_unique db_two_users_constraints).
  - simpl. auto.
  - reflexivity.
  - discriminate.
Defined.

(** X3. For a caller whose identity resolves to the user row [u] and
    a contact [c] owned by [u], the get-by-id route on the id of [c]
    answers 200 with [c] itself, and leaves the store as it was. *)
Theorem getContactById_returns_own_row
        (e : Env) (req : Request) (s : Store) (u : User) (c : Contact) :
  NoDup (map clerkUserId (users (db s))) ->
  NoDup (map id (contactsBirthdays (db s))) ->
  In u (users (db s)) ->
  auth_userId req = Some (clerkUserId u) -> clerkUserId u <> EmptyString ->
  In c (contactsBirthdays (db s)) -> userId c = user_id u ->
  fst (getContactById e (with_id req (id c)) s) = res_json (JsonContact c)
  /\ db (snd (getContactById e (with_id req (id c)) s)) = db s.
Proof.
  intros Hnd Hpk Hu Hauth Hne Hc Hown.
  rewrite getContactById_eq.
  rewrite (resolved_user_unique (with_id req (id c)) _ u Hnd Hu Hauth).
  change (auth_userId (with_id req (id c))) with (auth_userId req).
  rewrite Hauth, (no_identity_some Hne).
  unfold owned_by. simpl params_id. rewrite <- Hown.
  rewrite (select_owned _ _ Hpk Hc). split; reflexivity.
Qed.

Lemma getContactById_returns_own_row_witness :
  fst (getContactById sample_env (with_id (by_a EmptyString []) (id contact_of_a))
                      (fresh_store db_two_users))
  = res_json (JsonContact contact_of_a).
Proof.
  apply (@getContactById_returns_own_row sample_env (by_a EmptyString [])
           (fresh_store db_two_users) user_a contact_of_a).
  - exact (users_clerk_unique db_two_users_constraints).
  - exact (contacts_pkey db_two_users_constraints).
  - simpl. auto.
  - reflexivity.
  - discriminate.
  - simpl. auto.
  - reflexivity.
Defined.

Lemma filter_map_fixed {A : Type} (p : A -> bool) (f : A -> A) (l : list A) :
  (forall x, p (f x) = p x) -> (forall x, p x = true -> f x = x) ->
  filter p (map f l) = filter p l.
Proof.
  intros Hp Hfix. induction l as [|a l IH]; simpl; [reflexivity|].
  rewrite Hp. destruct (p a) eqn:E; [|exact IH].
  now rewrite (Hfix a E), IH.
Qed.

Lemma filter_filter_weaker {A : Type} (p q : A -> bool) (l : list A) :
  (forall x, p x = true -> q x = true) ->
  filter p (filter q l) = filter p l.
Proof.
  intro H. induction l as [|a l IH]; simpl; [reflexivity|].
  destruct (q a) eqn:Eq; simpl.
  - now rewrite IH.
  - destruct (p a) eqn:Ep; [|exact IH].
    rewrite (H a Ep) in Eq. discriminate.
Qed.

Lemma caller_id_resolved (req : Request) (d : Db) (u : User) :
  no_identity (auth_userId req) = false -> resolved_user req d = Some u ->
  caller_id req d = Some (user_id u).
Proof. intros Hid Hu. unfold caller_id. now rewrite Hid, Hu. Qed.

Lemma owned_is_not_foreign (req : Request) (u : User) (c : Contact) :
  owned_by req u c = true -> not_owned_by (Some (user_id u)) c = false.
Proof.
  unfold owned_by, and_, not_owned_by.
  destruct (params_id req); [|discriminate]. intro H.
  apply andb_true_iff in H. destruct H as [_ H]. now rewrite H.
Qed.

(** A contacts route leaves in place, unchanged and in the same order,
    every row the caller does not own: the rows of the other users when
    the caller resolves to a user row, and all rows when it does not. *)
Lemma foreign_rows_kept
        (route : ContactsRoute) (e : Env) (req : Request) (s : Store) :
  filter (not_owned_by (caller_id req (db s)))
         (contactsBirthdays (db (snd (contactsRouter route e req s))))
  = filter (not_owned_by (caller_id req (db s))) (contactsBirthdays (db s)).
Proof.
  destruct route; simpl.
  - rewrite getContacts_eq.
    destruct (no_identity (auth_userId req)); [reflexivity|].
    destruct (resolved_user req (db s)); reflexivity.
  - rewrite getContactById_eq.
    destruct (no_identity (auth_userId req)); [reflexivity|].
    destruct (resolved_user req (db s)); reflexivity.
  - rewrite createContact_eq.
    destruct (createContactSchema (body req)) as [issues|data]; [reflexivity|].
    destruct (no_identity (auth_userId req)) eqn:Hid; [reflexivity|].
    destruct (resolved_user req (db s)) as [u|] eqn:Hu; [|reflexivity].
    destruct (insert_refused e u data (db s)); [reflexivity|].
    rewrite (caller_id_resolved req _ Hid Hu). simpl.
    rewrite filter_app. simpl. unfold eq_userId, new_contact. simpl.
    rewrite String.eqb_refl. simpl. apply app_nil_r.
  - rewrite updateContact_eq.
    destruct (updateContactSchema (body req)) as [issues|data]; [reflexivity|].
    destruct (no_identity (auth_userId req)) eqn:Hid; [reflexivity|].
    destruct (resolved_user req (db s)) as [u|] eqn:Hu; [|reflexivity].
    destruct (id_is_uuid req); [|reflexivity].
    destruct (filter (owned_by req u) (contactsBirthdays (db s))); [reflexivity|].
    destruct (set_fits (update_set e data)); [|reflexivity].
    rewrite (caller_id_resolved req _ Hid Hu). simpl.
    apply filter_map_fixed.
    + intro x. destruct (owned_by req u x); reflexivity.
    + intros x Hx. destruct (owned_by req u x) eqn:Eo; [|reflexivity].
      rewrite (owned_is_not_foreign req u x Eo) in Hx. discriminate.
  - rewrite deleteContact_eq.
    destruct (no_identity (auth_userId req)) eqn:Hid; [reflexivity|].
    destruct (resolved_user req (db s)) as [u|] eqn:Hu; [|reflexivity].
    destruct (id_is_uuid req); [|reflexivity].
    destruct (filter (owned_by req u) (contactsBirthdays (db s))); [reflexivity|].
    rewrite (caller_id_resolved req _ Hid Hu). simpl.
    apply filter_filter_weaker.
    intros x Hx. destruct (owned_by req u x) eqn:Eo; [|reflexivity].
    rewrite (owned_is_not_foreign req u x Eo) in Hx. discriminate.
Qed.

Lemma routes_keep_users
      (route : ContactsRoute) (e : Env) (req : Request) (s : Store) :
  users (db (snd (contactsRouter route e req s))) = users (db s).
Proof.
  destruct route; simpl.
  - rewrite getContacts_eq.
    destruct (no_identity (auth_userId req)); [reflexivity|].
    destruct (resolved_user req (db s)); reflexivity.
  - rewrite getContactById_eq.
    destruct (no_identity (auth_userId req)); [reflexivity|].
    destruct (resolved_user req (db s)); reflexivity.
  - rewrite createContact_eq.
    destruct (createContactSchema (body req)) as [issues|data]; [reflexivity|].
    destruct (no_identity (auth_userId req)); [reflexivity|].
    destruct (resolved_user req (db s)) as [u|]; [|reflexivity].
    destruct (insert_refused e u data (db s)); reflexivity.
  - rewrite updateContact_eq.
    destruct (updateContactSchema (body req)) as [issues|data]; [reflexivity|].
    destruct (no_identity (auth_userId req)); [reflexivity|].
    destruct (resolved_user req (db s)) as [u|]; [|reflexivity].
    destruct (id_is_uuid req); [|reflexivity].
    destruct (filter (owned_by req u) (contactsBirthdays (db s))); [reflexivity|].
    destruct (set_fits (update_set e data)); reflexivity.
  - rewrite deleteContact_eq.
    destruct (no_identity (auth_userId req)); [reflexivity|].
    destruct (resolved_user req (db s)) as [u|]; [|reflexivity].
    destruct (id_is_uuid req); [|reflexivity].
    destruct (filter (owned_by req u) (contactsBirthdays (db s))); reflexivity.
Qed.

Lemma owner_rows_of_foreign (o : option Uuid) (uid : Uuid) (l : list Contact) :
  o <> Some uid ->
  filter (eq_userId uid) (filter (not_owned_by o) l) = filter (eq_userId uid) l.
Proof.
  intro Hne. apply filter_filter_weaker. intros x Hx.
  destruct o as [b|]; simpl; [|reflexivity].
  unfold eq_userId in *. apply String.eqb_eq in Hx.
  apply negb_true_iff. apply String.eqb_neq. congruence.
Qed.

(** X4. No request of another caller changes what a user reads: for
    every route and every request whose caller is not the user [uid],
    the rows owned by [uid] are afterwards the same, in the same order;
    so the list route answers a request of [uid] the same before and
    after, and the assistant's tool bound to [uid] returns the same
    text. *)
Theorem other_callers_leave_my_contacts
        (route : ContactsRoute) (e : Env) (req : Request) (s : Store) (uid : Uuid) :
  caller_id req (db s) <> Some uid ->
  let s' := snd (contactsRouter route e req s) in
  filter (eq_userId uid) (contactsBirthdays (db s'))
  = filter (eq_userId uid) (contactsBirthdays (db s))
  /\ (forall e2 req2,
         caller_id req2 (db s) = Some uid ->
         fst (getContacts e2 req2 s') = fst (getContacts e2 req2 s))
  /\ fst (getContacts_execute (Some uid) s') = fst (getContacts_execute (Some uid) s).
Proof.
  intros Hother s'.
  assert (filter (eq_userId uid) (contactsBirthdays (db s'))
          = filter (eq_userId uid) (contactsBirthdays (db s))) as Hrows.
  { rewrite <- (owner_rows_of_foreign (contactsBirthdays (db s')) Hother).
    rewrite <- (owner_rows_of_foreign (contactsBirthdays (db s)) Hother).
    subst s'. now rewrite foreign_rows_kept. }
  assert (users (db s') = users (db s)) as Husers by apply routes_keep_users.
  clearbody s'.
  split; [exact Hrows | split].
  - intros e2 req2 Hcaller. rewrite !getContacts_eq.
    unfold caller_id in Hcaller.
    destruct (no_identity (auth_userId req2)); [reflexivity|].
    rewrite (resolved_user_same_users req2 _ _ Husers).
    destruct (resolved_user req2 (db s)) as [u|]; [|reflexivity].
    simpl in Hcaller. injection Hcaller as Hu. simpl. now rewrite Hu, Hrows.
  - unfold getContacts_execute.
    destruct (no_identity (Some uid)); [reflexivity|].
    unfold bind, select_contacts, bind, sent, read_db, ret. simpl.
    rewrite Hrows. destruct (Nat.eqb _ 0); reflexivity.
Qed.

Lemma other_callers_leave_my_contacts_witness :
  filter (eq_userId "u-a")
         (contactsBirthdays
            (db (snd (contactsRouter DELETE_contact sample_env (by_b "c-1" [])
                                     (fresh_store db_two_users)))))
  = [contact_of_a].
Proof.
  rewrite (proj1 (@other_callers_leave_my_contacts DELETE_contact sample_env
                    (by_b "c-1" []) (fresh_store db_two_users) "u-a"
                    ltac:(discriminate))).
  reflexivity.
Defined.

(** X5. No contacts route ever writes the users table, and the two
    GET routes never change the store's rows at all, whatever the
    request. *)
Theorem routes_frame
        (route : ContactsRoute) (e : Env) (req : Request) (s : Store) :
  users (db (snd (contactsRouter route e req s))) = users (db s)
  /\ (route = GET_contacts \/ route = GET_contact ->
      db (snd (contactsRouter route e req s)) = db s).
Proof.
  split; [apply routes_keep_users|].
  intros [-> | ->]; simpl.
  - rewrite getContacts_eq.
    destruct (no_identity (auth_userId req)); [reflexivity|].
    destruct (resolved_user req (db s)); reflexivity.
  - rewrite getContactById_eq.
    destruct (no_identity (auth_userId req)); [reflexivity|].
    destruct (resolved_user req (db s)); reflexivity.
Qed.

(** ** Creating, updating and deleting *)

Lemma status_not (code code' : Z) (b : ResponseBody) :
  code <> code' -> status (res_status code b) <> code'.
Proof. intro H. exact H. Qed.

(** X6. A create request stores a row exactly when it is answered
    201: then the answer carries the stored row, which is appended to
    the table under the drawn id, an id no row had before, and is owned
    by the caller; with any other answer the store's rows are as they
    were. *)
Theorem createContact_stores_iff_201 (e : Env) (req : Request) (s : Store) :
  (exists c,
      fst (createContact e req s) = res_status 201 (JsonContact c)
      /\ contactsBirthdays (db (snd (createContact e req s)))
         = (contactsBirthdays (db s) ++ [c])%list
      /\ id c = random_uuid e
      /\ ~ In (id c) (map id (contactsBirthdays (db s)))
      /\ caller_id req (db s) = Some (userId c))
  \/ (status (fst (createContact e req s)) <> 201
      /\ db (snd (createContact e req s)) = db s).
Proof.
  rewrite createContact_eq.
  destruct (createContactSchema (body req)) as [issues|data];
    [right; split; [apply status_not; lia | reflexivity]|].
  destruct (no_identity (auth_userId req)) eqn:Hid;
    [right; split; [apply status_not; lia | reflexivity]|].
  destruct (resolved_user req (db s)) as [u|] eqn:Hu;
    [| right; split; [apply status_not; lia | reflexivity]].
  destruct (insert_refused e u data (db s)) eqn:Hins;
    [right; split; [apply status_not; lia | reflexivity]|].
  left. exists (new_contact e u data). simpl.
  split; [reflexivity | split; [reflexivity | split; [reflexivity | split]]].
  - unfold insert_refused in Hins. apply orb_false_iff in Hins.
    destruct Hins as [Hins _]. apply orb_false_iff in Hins.
    destruct Hins as [Hpk _]. exact (existsb_false_not_in id _ _ Hpk).
  - exact (caller_id_resolved req _ Hid Hu).
Qed.

(** X7. A contact created with answer 201 is the one its owner reads
    back: a get-by-id by the same caller on the id of the answer returns
    200 with the very row of the answer, and the caller's list contains
    it. *)
Theorem create_then_read_back
        (e e2 : Env) (req : Request) (s : Store) (c : Contact) :
  fst (createContact e req s) = res_status 201 (JsonContact c) ->
  fst (getContactById e2 (with_id req (id c)) (snd (createContact e req s)))
  = res_json (JsonContact c)
  /\ exists rows,
      fst (getContacts e2 req (snd (createContact e req s)))
      = res_json (JsonContacts rows)
      /\ In c rows.
Proof.
  rewrite createContact_eq.
  destruct (createContactSchema (body req)) as [issues|data]; [discriminate|].
  destruct (no_identity (auth_userId req)) eqn:Hid; [discriminate|].
  destruct (resolved_user req (db s)) as [u|] eqn:Hu; [|discriminate].
  destruct (insert_refused e u data (db s)) eqn:Hins; [discriminate|].
  simpl. intro H. injection H as <-.
  unfold insert_refused in Hins. apply orb_false_iff in Hins. destruct Hins as [Hins _].
  apply orb_false_iff in Hins. destruct Hins as [Hpk _].
  split.
  - rewrite getContactById_eq.
    change (auth_userId (with_id req (id (new_contact e u data))))
      with (auth_userId req).
    rewrite Hid.
    erewrite resolved_user_same_users with (d2 := db s); [| reflexivity].
    change (resolved_user (with_id req (id (new_contact e u data))) (db s))
      with (resolved_user req (db s)).
    rewrite Hu. simpl.
    rewrite filter_app.
    rewrite (filter_none (owned_by (with_id req (random_uuid e)) u)).
    + simpl. unfold owned_by, and_, eq_id, eq_userId. simpl.
      now rewrite !String.eqb_refl.
    + intros x Hx. unfold owned_by, and_. simpl.
      assert (eq_id (random_uuid e) x = false) as Hne.
      { destruct (eq_id (random_uuid e) x) eqn:E; [|reflexivity].
        assert (existsb (eq_id (random_uuid e)) (contactsBirthdays (db s)) = true)
          as Ht by (apply existsb_exists; eauto).
        congruence. }
      now rewrite Hne.
  - rewrite getContacts_eq, Hid.
    erewrite resolved_user_same_users with (d2 := db s); [| reflexivity].
    rewrite Hu. simpl.
    eexists. split; [reflexivity|].
    apply filter_In. split.
    + apply in_or_app. right. now left.
    + unfold eq_userId. simpl. apply String.eqb_refl.
Qed.

Lemma create_then_read_back_witness :
  exists c,
    fst (getContactById later_env (with_id (by_b EmptyString ada_february_31) (id c))
           (snd (createContact sample_env (by_b EmptyString ada_february_31)
                               (fresh_store db_two_users))))
    = res_json (JsonContact c)
    /\ birthdayDay c = 31.
Proof.
  eexists. split.
  - apply (@create_then_read_back sample_env later_env
             (by_b EmptyString ada_february_31) (fresh_store db_two_users)).
    reflexivity.
  - reflexivity.
Defined.

(** X8. An update request never adds or removes a row and never
    changes the id, the owner or the creation time of any row, whatever
    the request and the store; and unless it is answered 200 the store's
    rows are as they were. *)
Theorem updateContact_keeps_identity (e : Env) (req : Request) (s : Store) :
  map id (contactsBirthdays (db (snd (updateContact e req s))))
  = map id (contactsBirthdays (db s))
  /\ map userId (contactsBirthdays (db (snd (updateContact e req s))))
     = map userId (contactsBirthdays (db s))
  /\ map createdAt (contactsBirthdays (db (snd (updateContact e req s))))
     = map createdAt (contactsBirthdays (db s))
  /\ (status (fst (updateContact e req s)) <> 200 ->
      db (snd (updateContact e req s)) = db s).
Proof.
  rewrite updateContact_eq.
  destruct (updateContactSchema (body req)) as [issues|data]; [auto|].
  destruct (no_identity (auth_userId req)); [auto|].
  destruct (resolved_user req (db s)) as [u|]; [|auto].
  destruct (id_is_uuid req); [|auto].
  destruct (filter (owned_by req u) (contactsBirthdays (db s))); [auto|].
  destruct (set_fits (update_set e data)); [|auto].
  simpl. rewrite !map_map.
  repeat split.
  - apply map_ext. intro x. destruct (owned_by req u x); reflexivity.
  - apply map_ext. intro x. destruct (owned_by req u x); reflexivity.
  - apply map_ext. intro x. destruct (owned_by req u x); reflexivity.
  - intro H. exfalso. now apply H.
Qed.

Lemma owned_by_id (contacts : list Contact) (req : Request) (u : User) (c : Contact) :
  NoDup (map id contacts) -> In c contacts -> userId c = user_id u ->
  forall x, In x contacts ->
            owned_by (with_id req (id c)) u x = String.eqb (id x) (id c).
Proof.
  intros Hpk Hc Hown x Hx. unfold owned_by, and_, eq_id, eq_userId. simpl.
  destruct (String.eqb (id x) (id c)) eqn:E; simpl; [|reflexivity].
  apply String.eqb_eq in E.
  rewrite (key_injective id contacts x c Hpk Hx Hc E), Hown. apply String.eqb_refl.
Qed.

(** X9. For a caller whose identity resolves to the user row [u] and
    a contact [c] owned by [u], a delete on the id of [c] is answered
    204 without body; the table afterwards is the old one without [c],
    every other row being kept in place, and the users table is as it
    was. *)
Theorem deleteContact_removes_own_row
        (e : Env) (req : Request) (s : Store) (u : User) (c : Contact) :
  NoDup (map clerkUserId (users (db s))) ->
  NoDup (map id (contactsBirthdays (db s))) ->
  In u (users (db s)) ->
  auth_userId req = Some (clerkUserId u) -> clerkUserId u <> EmptyString ->
  In c (contactsBirthdays (db s)) -> userId c = user_id u ->
  let s' := snd (deleteContact e (with_id req (id c)) s) in
  fst (deleteContact e (with_id req (id c)) s) = res_status 204 NoContent
  /\ contactsBirthdays (db s')
     = filter (fun x => negb (String.eqb (id x) (id c))) (contactsBirthdays (db s))
  /\ ~ In c (contactsBirthdays (db s'))
  /\ (forall x, In x (contactsBirthdays (db s)) -> x <> c ->
                In x (contactsBirthdays (db s')))
  /\ users (db s') = users (db s).
Proof.
  intros Hnd Hpk Hu Hauth Hne Hc Hown s'. subst s'.
  rewrite deleteContact_eq.
  rewrite (resolved_user_unique (with_id req (id c)) _ u Hnd Hu Hauth).
  change (auth_userId (with_id req (id c))) with (auth_userId req).
  rewrite Hauth, (no_identity_some Hne).
  assert (filter (owned_by (with_id req (id c)) u) (contactsBirthdays (db s)) = [c])
    as Hsel.
  { unfold owned_by. simpl params_id. rewrite <- Hown. now apply select_owned. }
  rewrite Hsel. simpl.
  assert (filter (fun x => negb (owned_by (with_id req (id c)) u x))
                 (contactsBirthdays (db s))
          = filter (fun x => negb (String.eqb (id x) (id c)))
                   (contactsBirthdays (db s))) as Hrest.
  { apply filter_ext_in. intros x Hx.
    now rewrite (owned_by_id _ req u c Hpk Hc Hown x Hx). }
  rewrite Hrest.
  split; [reflexivity | split; [reflexivity | split; [| split; [| reflexivity]]]].
  - intro Hin. apply filter_In in Hin. destruct Hin as [_ Hin].
    rewrite String.eqb_refl in Hin. discriminate.
  - intros x Hx Hxc. apply filter_In. split; [exact Hx|].
    apply negb_true_iff. apply String.eqb_neq. intro E.
    apply Hxc. exact (key_injective id _ x c Hpk Hx Hc E).
Qed.

Lemma deleteContact_removes_own_row_witness :
  fst (deleteContact sample_env (with_id (by_a EmptyString []) (id contact_of_a))
                     (fresh_store db_two_users))
  = res_status 204 NoContent.
Proof.
  apply (@deleteContact_removes_own_row sample_env (by_a EmptyString [])
           (fresh_store db_two_users) user_a contact_of_a).
  - exact (users_clerk_unique db_two_users_constraints).
  - exact (contacts_pkey db_two_users_constraints).
  - simpl. auto.
  - reflexivity.
  - discriminate.
  - simpl. auto.
  - reflexivity.
Defined.

Lemma filter_filter_negb {A : Type} (p : A -> bool) (l : list A) :
  filter p (filter (fun x => negb (p x)) l) = [].
Proof.
  apply filter_none. intros x Hx. apply filter_In in Hx. destruct Hx as [_ Hx].
  now apply negb_true_iff in Hx.
Qed.

(** X10. A delete removes rows only when it is answered 204; and
    after a delete answered 204 the same caller's get-by-id on that id
    is answered 404 [Contact not found], and so is a second delete,
    which leaves the store's rows as the first one left them. *)
Theorem deleteContact_then_gone (e e2 : Env) (req : Request) (s : Store) :
  (status (fst (deleteContact e req s)) <> 204 ->
   db (snd (deleteContact e req s)) = db s)
  /\ (fst (deleteContact e req s) = res_status 204 NoContent ->
      fst (getContactById e2 req (snd (deleteContact e req s)))
      = res_status 404 (JsonError "Contact not found")
      /\ fst (deleteContact e2 req (snd (deleteContact e req s)))
         = res_status 404 (JsonError "Contact not found")
      /\ db (snd (deleteContact e2 req (snd (deleteContact e req s))))
         = db (snd (deleteContact e req s))).
Proof.
  rewrite (deleteContact_eq e req s).
  destruct (no_identity (auth_userId req)) eqn:Hid;
    [split; [reflexivity | discriminate]|].
  destruct (resolved_user req (db s)) as [u|] eqn:Hu;
    [| split; [reflexivity | discriminate]].
  destruct (id_is_uuid req) eqn:Huuid;
    [| split; [reflexivity | discriminate]].
  destruct (filter (owned_by req u) (contactsBirthdays (db s))) eqn:Hsel;
    [split; [reflexivity | discriminate]|].
  split; [intro H; exfalso; now apply H|].
  intros _. simpl.
  rewrite getContactById_eq, deleteContact_eq. rewrite Hid.
  erewrite resolved_user_same_users with (d2 := db s); [| reflexivity].
  rewrite Hu, Huuid. simpl.
  rewrite (filter_filter_negb (owned_by req u)). simpl.
  split; [reflexivity | split; reflexivity].
Qed.

(** ** What the schemas accept and report *)

Lemma string_min1_inv (m : string) (p : list string) (v : option json) (n : string) :
  string_min1 m p v = inr n <-> v = Some (JStr n) /\ n <> EmptyString.
Proof.
  split.
  - intro H. split; [| exact (string_min1_sound _ _ _ H)].
    unfold string_min1, checked in H.
    destruct v as [[| | |t| |]|]; try discriminate.
    destruct (String.length t <? 1)%nat; [discriminate|]. now injection H as ->.
  - intros [-> Hne]. now apply string_min1_accepts.
Qed.

Lemma int_between_inv (lo hi : Z) (m : string) (p : list string) (v : option json)
      (z : Z) :
  - MAX_SAFE_INTEGER <= lo -> hi <= MAX_SAFE_INTEGER ->
  int_between lo hi m p v = inr z
  <-> exists q, v = Some (JNum q) /\ is_integer q = true
                /\ (inject_Z lo <= q <= inject_Z hi)%Q /\ z = integer_value q.
Proof.
  intros Slo Shi. unfold int_between, checked. split.
  - destruct v as [[| |q| | |]|]; try discriminate.
    destruct (is_integer q) eqn:Ei; [|discriminate].
    destruct (safe_check p q); [|discriminate].
    destruct (Qle_bool (inject_Z lo) q) eqn:El; [|discriminate].
    destruct (Qle_bool q (inject_Z hi)) eqn:Eh; [|discriminate].
    simpl. intro H. injection H as <-.
    exists q. apply Qle_bool_iff in El, Eh. auto.
  - intros [q [-> [Ei [[Hl Hh] ->]]]].
    unfold safe_check. rewrite (is_safe_between Slo Shi (conj Hl Hh)).
    apply Qle_bool_iff in Hl, Hh. now rewrite Ei, Hl, Hh.
Qed.

Lemma month_day_bounds_safe :
  (- MAX_SAFE_INTEGER <= 1) /\ (12 <= MAX_SAFE_INTEGER) /\ (31 <= MAX_SAFE_INTEGER).
Proof. unfold MAX_SAFE_INTEGER. lia. Qed.

Lemma year_parse_inv (p : list string) (v : option json) (y : option (option Z)) :
  optional (nullable (int_ p)) v = inr y <-> year_accepted v /\ y = given_year v.
Proof.
  unfold optional, nullable, int_, checked, year_accepted. split.
  - destruct v as [[| |q| | |]|]; try discriminate.
    + intro H. injection H as <-. auto.
    + destruct (is_integer q) eqn:Ei; [|discriminate].
      unfold safe_check. destruct (is_safe q) eqn:Es; [|discriminate].
      intro H. injection H as <-. split; [|reflexivity]. right. right. eauto.
    + intro H. injection H as <-. auto.
  - intros [[-> | [-> | [q [-> [Ei Es]]]]] ->]; simpl; try reflexivity.
    unfold safe_check. now rewrite Ei, Es.
Qed.

(** X11. The create schema accepts a body exactly when the body is an
    object whose name is a non-empty text, whose month is an integral
    number between 1 and 12, whose day is an integral number between 1
    and 31 and whose year is absent, null or an integral number (of the
    safe range of integers, which is all the integer check lets
    through); the parsed data are then these values, the year being
    told apart as absent, null or a number. *)
Theorem createContactSchema_accepts_iff (b : json) (data : CreateData) :
  createContactSchema b = inr data <-> create_accepts b data.
Proof.
  unfold create_accepts. split.
  - intro H. unfold createContactSchema in H. destruct b; try discriminate.
    destruct (string_min1 _ _ _) as [?|n] eqn:En;
      destruct (int_between 1 12 _ _ _) as [?|m] eqn:Em;
      destruct (int_between 1 31 _ _ _) as [?|d] eqn:Ed;
      destruct (optional _ _) as [?|y] eqn:Ey; try discriminate.
    injection H as <-.
    apply string_min1_inv in En. destruct En as [En Hne].
    destruct month_day_bounds_safe as [S1 [S12 S31]].
    apply int_between_inv in Em; [|assumption..]. destruct Em as [qm [Em [Im [Rm ->]]]].
    apply int_between_inv in Ed; [|assumption..]. destruct Ed as [qd [Ed [Id [Rd ->]]]].
    apply year_parse_inv in Ey. destruct Ey as [Hy ->].
    exists n, qm, qd. repeat split; auto; tauto.
  - intros [n [qm [qd [Hn [Hne [Hm [Im [Rm [Hd [Id [Rd [Hy ->]]]]]]]]]]]].
    destruct (prop_is_object b _ Hn) as [members ->].
    unfold createContactSchema.
    rewrite (proj2 (string_min1_inv _ _ _ n) (conj Hn Hne)).
    destruct month_day_bounds_safe as [S1 [S12 S31]].
    rewrite (proj2 (int_between_inv _ _ _ (integer_value qm) S1 S12)).
    2:{ exists qm. auto. }
    rewrite (proj2 (int_between_inv _ _ _ (integer_value qd) S1 S31)).
    2:{ exists qd. auto. }
    rewrite (proj2 (year_parse_inv _ _ _) (conj Hy eq_refl)).
    reflexivity.
Qed.

Lemma createContactSchema_accepts_iff_witness :
  createContactSchema (JObj ada_february_31)
  = inr {| c_name := "Ada"; c_birthdayMonth := 2; c_birthdayDay := 31;
           c_birthdayYear := None |}.
Proof.
  apply (proj2 (createContactSchema_accepts_iff (JObj ada_february_31) _)).
  exists "Ada", (inject_Z 2), (inject_Z 31).
  repeat split; try reflexivity; try discriminate.
  now left.
Defined.

Lemma checked_issues {A : Type} (issues l : list Issue) (a : A) :
  checked issues a = inl l -> l = issues /\ l <> [].
Proof.
  unfold checked. destruct issues; [discriminate|].
  intro H. injection H as <-. split; [reflexivity | discriminate].
Qed.

Lemma string_min1_issues (m : string) (p : list string) (v : option json)
      (l : list Issue) :
  string_min1 m p v = inl l -> l <> [].
Proof.
  unfold string_min1.
  destruct v as [[| | |t| |]|]; try (intro H; injection H as <-; discriminate).
  intro H. now apply checked_issues in H.
Qed.

Lemma int_between_issues (lo hi : Z) (m : string) (p : list string) (v : option json)
      (l : list Issue) :
  int_between lo hi m p v = inl l -> l <> [].
Proof.
  unfold int_between.
  destruct v as [[| |q| | |]|]; try (intro H; injection H as <-; discriminate).
  destruct (is_integer q); [| intro H; injection H as <-; discriminate].
  intro H. now apply checked_issues in H.
Qed.

Lemma int_issues (p : list string) (v : option json) (l : list Issue) :
  int_ p v = inl l -> l <> [].
Proof.
  unfold int_.
  destruct v as [[| |q| | |]|]; try (intro H; injection H as <-; discriminate).
  destruct (is_integer q); [| intro H; injection H as <-; discriminate].
  intro H. now apply checked_issues in H.
Qed.

Lemma optional_issues {A : Type} (inner : option json -> Parse A) (v : option json)
      (l : list Issue) :
  (forall l', inner v = inl l' -> l' <> []) ->
  optional inner v = inl l -> l <> [].
Proof.
  intros Hin. unfold optional. destruct v as [j|]; [|discriminate].
  destruct (inner (Some j)) eqn:E; [|discriminate].
  intro H. injection H as <-. now apply Hin.
Qed.

Lemma nullable_issues {A : Type} (inner : option json -> Parse A) (v : option json)
      (l : list Issue) :
  (forall l', inner v = inl l' -> l' <> []) ->
  nullable inner v = inl l -> l <> [].
Proof.
  intros Hin. unfold nullable.
  destruct (inner v) eqn:E.
  - destruct v as [[]|]; try discriminate;
      intro H; injection H as <-; now apply Hin.
  - destruct v as [[]|]; discriminate.
Qed.

Lemma year_issues (v : option json) (l : list Issue) :
  optional (nullable (int_ ["birthdayYear"])) v = inl l -> l <> [].
Proof.
  apply optional_issues. intros l'. apply nullable_issues.
  intros l''. apply int_issues.
Qed.

Lemma app_not_nil {A : Type} (a b : list A) : a <> [] \/ b <> [] -> (a ++ b)%list <> [].
Proof.
  intros [H | H] E; apply app_eq_nil in E; destruct E; contradiction.
Qed.

Lemma createContactSchema_issues (b : json) (l : list Issue) :
  createContactSchema b = inl l -> l <> [].
Proof.
  unfold createContactSchema.
  destruct b; try (intro H; injection H as <-; discriminate).
  destruct (string_min1 _ _ _) as [i1|?] eqn:E1;
    destruct (int_between 1 12 _ _ _) as [i2|?] eqn:E2;
    destruct (int_between 1 31 _ _ _) as [i3|?] eqn:E3;
    destruct (optional _ _) as [i4|?] eqn:E4;
    try discriminate; intro H; injection H as <-; simpl;
    try apply string_min1_issues in E1;
    try apply int_between_issues in E2;
    try apply int_between_issues in E3;
    try apply year_issues in E4;
    repeat (first [ assumption
                  | apply app_not_nil; first [ left; assumption | right ] ]);
    try (rewrite app_nil_r; assumption).
Qed.

Lemma updateContactSchema_issues (b : json) (l : list Issue) :
  updateContactSchema b = inl l -> l <> [].
Proof.
  unfold updateContactSchema.
  destruct b; try (intro H; injection H as <-; discriminate).
  destruct (optional (string_min1 _ _) _) as [i1|?] eqn:E1;
    destruct (optional (int_between 1 12 _ _) _) as [i2|?] eqn:E2;
    destruct (optional (int_between 1 31 _ _) _) as [i3|?] eqn:E3;
    destruct (optional (nullable _) _) as [i4|?] eqn:E4;
    try (destruct (0 <? _)%nat; [discriminate|]);
    intro H; injection H as <-; simpl; try discriminate;
    try (apply optional_issues in E1; [| intros l'; apply string_min1_issues]);
    try (apply optional_issues in E2; [| intros l'; apply int_between_issues]);
    try (apply optional_issues in E3; [| intros l'; apply int_between_issues]);
    try apply year_issues in E4;
    repeat (first [ assumption
                  | apply app_not_nil; first [ left; assumption | right ] ]);
    try (rewrite app_nil_r; assumption).
Qed.

(** X12. An answer 400 with field errors can only come from the
    create or the update route; it always names at least one field
    error, and nothing was sent to the store before it. *)
Theorem validation_answer_names_an_error
        (route : ContactsRoute) (e : Env) (req : Request) (s : Store)
        (errors : list FieldError) :
  fst (contactsRouter route e req s) = res_status 400 (JsonErrors errors) ->
  errors <> []
  /\ (route = POST_contacts \/ route = PUT_contact)
  /\ snd (contactsRouter route e req s) = s.
Proof.
  destruct route; simpl.
  - rewrite getContacts_eq.
    destruct (no_identity (auth_userId req)); [discriminate|].
    destruct (resolved_user req (db s)); discriminate.
  - rewrite getContactById_eq.
    destruct (no_identity (auth_userId req)); [discriminate|].
    destruct (resolved_user req (db s)) as [u|]; [|discriminate].
    destruct (id_is_uuid req); [|discriminate].
    simpl. destruct (filter _ _); discriminate.
  - rewrite createContact_eq.
    destruct (createContactSchema (body req)) as [issues|data] eqn:E.
    + simpl. intro H. injection H as <-.
      split; [| auto].
      apply createContactSchema_issues in E. destruct issues; [contradiction|discriminate].
    + destruct (no_identity (auth_userId req)); [discriminate|].
      destruct (resolved_user req (db s)) as [u|]; [|discriminate].
      destruct (insert_refused e u data (db s)); discriminate.
  - rewrite updateContact_eq.
    destruct (updateContactSchema (body req)) as [issues|data] eqn:E.
    + simpl. intro H. injection H as <-.
      split; [| auto].
      apply updateContactSchema_issues in E. destruct issues; [contradiction|discriminate].
    + destruct (no_identity (auth_userId req)); [discriminate|].
      destruct (resolved_user req (db s)) as [u|]; [|discriminate].
      destruct (id_is_uuid req); [|discriminate].
      destruct (filter _ _) as [|x rest]; [discriminate|].
      destruct (set_fits (update_set e data)); discriminate.
  - rewrite deleteContact_eq.
    destruct (no_identity (auth_userId req)); [discriminate|].
    destruct (resolved_user req (db s)) as [u|]; [|discriminate].
    destruct (id_is_uuid req); [|discriminate].
    destruct (filter _ _); discriminate.
Qed.

Lemma validation_answer_names_an_error_witness :
  exists errors,
    fst (contactsRouter PUT_contact sample_env (by_b "c-1" []) (fresh_store db_two_users))
    = res_status 400 (JsonErrors errors)
    /\ errors <> [].
Proof.
  eexists. split; [reflexivity|].
  apply (@validation_answer_names_an_error PUT_contact sample_env (by_b "c-1" [])
           (fresh_store db_two_users)).
  reflexivity.
Defined.

(** X13. An update whose body is an object carrying none of the four
    keys of the schema, whatever else it carries, is answered 400 with
    the single error [At least one field must be provided for update]
    under the empty field name, and nothing is sent to the store. *)
Theorem updateContact_needs_a_field
        (e : Env) (req : Request) (s : Store) (members : list (string * json)) :
  parsed_body req = BodyObject members ->
  assoc "name" members = None -> assoc "birthdayMonth" members = None ->
  assoc "birthdayDay" members = None -> assoc "birthdayYear" members = None ->
  updateContact e req s
  = (res_status 400
       (JsonErrors [ {| field := EmptyString;
                        message_text :=
                          Some "At least one field must be provided for update" |} ]),
     s).
Proof.
  intros Hbody Hn Hm Hd Hy.
  rewrite updateContact_eq. unfold body. rewrite Hbody. simpl body_value.
  unfold updateContactSchema, prop. rewrite Hn, Hm, Hd, Hy. reflexivity.
Qed.

Lemma updateContact_needs_a_field_witness :
  status (fst (updateContact sample_env
                 (by_a "c-1" [ ("notes", JStr "likes tea"); ("id", JStr "c-2") ])
                 (fresh_store db_two_users))) = 400.
Proof.
  rewrite (@updateContact_needs_a_field sample_env
             (by_a "c-1" [ ("notes", JStr "likes tea"); ("id", JStr "c-2") ])
             (fresh_store db_two_users)
             [ ("notes", JStr "likes tea"); ("id", JStr "c-2") ]
             eq_refl eq_refl eq_refl eq_refl eq_refl).
  reflexivity.
Defined.

(** X14. The create route reports every failing field in one answer:
    when the month and the day are both integers outside their ranges,
    the 400 answer carries the range error of the month and the range
    error of the day, and nothing is sent to the store.  (For a number
    that is no integer the integer check ends the checks of its field,
    and its range error is not reported.) *)
Theorem createContact_reports_all_fields
        (e : Env) (req : Request) (s : Store) (qm qd : Q) :
  prop (body req) "birthdayMonth" = Some (JNum qm) -> is_integer qm = true ->
  (qm < 1 \/ 12 < qm)%Q ->
  prop (body req) "birthdayDay" = Some (JNum qd) -> is_integer qd = true ->
  (qd < 1 \/ 31 < qd)%Q ->
  exists errors,
    createContact e req s = (res_status 400 (JsonErrors errors), s)
    /\ In {| field := "birthdayMonth";
             message_text := Some "Month must be between 1 and 12" |} errors
    /\ In {| field := "birthdayDay";
             message_text := Some "Day must be between 1 and 31" |} errors.
Proof.
  intros Hm Im Rm Hd Id Rd.
  destruct (prop_is_object _ _ Hm) as [members Hobj].
  destruct (@int_between_rejects 1 12 month_message ["birthdayMonth"] qm Rm)
    as [im [Em [_ Him]]].
  destruct (@int_between_rejects 1 31 day_message ["birthdayDay"] qd Rd)
    as [idy [Ed [_ Hid]]].
  specialize (Him Im). specialize (Hid Id).
  assert (exists issues,
             createContactSchema (body req) = inl issues
             /\ In (custom ["birthdayMonth"] month_message) issues
             /\ In (custom ["birthdayDay"] day_message) issues) as [issues [E [H1 H2]]].
  { unfold createContactSchema. rewrite Hobj in *. rewrite Hm, Hd, Em, Ed.
    destruct (string_min1 _ _ _) as [i1|?]; destruct (optional _ _) as [i4|?];
      eexists; (split; [reflexivity|]); simpl; split;
      repeat (apply in_or_app; first [ left; assumption | right ]);
      try assumption; try (rewrite app_nil_r; assumption). }
  exists (formatZodError issues). rewrite createContact_eq, E.
  split; [reflexivity|].
  split.
  - exact (in_map (fun issue => {| field := join "." (path issue);
                                   message_text := message issue |}) _ _ H1).
  - exact (in_map (fun issue => {| field := join "." (path issue);
                                   message_text := message issue |}) _ _ H2).
Qed.

Lemma createContact_reports_all_fields_witness :
  exists errors,
    fst (createContact sample_env
           (by_b EmptyString [ ("name", JStr "Ada"); ("birthdayMonth", JNum (inject_Z 13));
                               ("birthdayDay", JNum (inject_Z 0)) ])
           (fresh_store db_two_users))
    = res_status 400 (JsonErrors errors)
    /\ In {| field := "birthdayMonth";
             message_text := Some "Month must be between 1 and 12" |} errors
    /\ In {| field := "birthdayDay";
             message_text := Some "Day must be between 1 and 31" |} errors.
Proof.
  destruct (@createContact_reports_all_fields sample_env
              (by_b EmptyString [ ("name", JStr "Ada"); ("birthdayMonth", JNum (inject_Z 13));
                                  ("birthdayDay", JNum (inject_Z 0)) ])
              (fresh_store db_two_users) (inject_Z 13) (inject_Z 0)
              eq_refl eq_refl (or_intror eq_refl) eq_refl eq_refl (or_introl eq_refl))
    as [errors [E [Hm Hd]]].
  exists errors. rewrite E. split; [reflexivity | split; assumption].
Defined.

(** ** The sync endpoint and the store *)

Lemma contactsRouter_keeps_store_ok_witness :
  store_ok (db (snd (contactsRouter POST_contacts sample_env
                       (by_b EmptyString ada_february_31)
                       (fresh_store db_two_users)))).
Proof.
  apply (@contactsRouter_keeps_store_ok POST_contacts sample_env
           (by_b EmptyString ada_february_31) (fresh_store db_two_users)).
  exact db_two_users_ok.
Defined.

Lemma syncUser_keeps_store_ok_witness :
  store_ok (db (snd (syncUser sample_env sync_by_z (fresh_store db_two_users)))).
Proof.
  apply (@syncUser_keeps_store_ok sample_env sync_by_z (fresh_store db_two_users)).
  exact db_two_users_ok.
Defined.

Lemma others_on_conflict (cid : string) (em : option string) (t : Timestamp)
      (l : list User) :
  others cid (map (on_conflict cid em t) l) = others cid l.
Proof.
  unfold others. apply filter_map_fixed.
  - intro x. now rewrite on_conflict_keeps_match.
  - intros x Hx. unfold on_conflict. apply negb_true_iff in Hx. now rewrite Hx.
Qed.

(** X17. A sync call touches nothing but the caller's own user row:
    whatever the request, the rows of the other external ids and the
    whole contacts table are as before, no statement is sent on the
    contacts table, and unless the answer is the success answer the
    store's rows are all as before. *)
Theorem syncUser_touches_own_row_only (e : Env) (req : Request) (s : Store) :
  others (or_else (auth_userId req) EmptyString) (users (db (snd (syncUser e req s))))
  = others (or_else (auth_userId req) EmptyString) (users (db s))
  /\ contactsBirthdays (db (snd (syncUser e req s))) = contactsBirthdays (db s)
  /\ (exists extra,
         log (snd (syncUser e req s)) = (log s ++ extra)%list
         /\ Forall (fun st => on_contacts st = false) extra)
  /\ (fst (syncUser e req s) <> res_json JsonSuccess ->
      db (snd (syncUser e req s)) = db s).
Proof.
  unfold syncUser.
  destruct (no_identity (auth_userId req)).
  { simpl. repeat split; auto. exists []. now rewrite app_nil_r. }
  unfold try_catch.
  destruct (clerk_emailAddresses e _) as [emailAddresses|].
  2:{ simpl. repeat split; auto. exists []. now rewrite app_nil_r. }
  unfold bind, upsert_user, bind, sent, read_db, write_db, throw, ret. simpl.
  destruct (existsb (eq_clerkUserId _) (users (db s))) eqn:Ecl; simpl.
  - split; [apply others_on_conflict | split; [reflexivity | split]].
    + exists [Insert TUsers]. split; [reflexivity | now constructor].
    + intro H. exfalso. now apply H.
  - destruct (existsb (fun u => String.eqb (user_id u) (random_uuid e)) (users (db s)));
      simpl.
    + split; [reflexivity | split; [reflexivity | split; [| reflexivity]]].
      exists [Insert TUsers]. split; [reflexivity | now constructor].
    + split; [| split; [reflexivity | split]].
      * unfold others. rewrite filter_app. simpl.
        unfold eq_clerkUserId at 2. simpl. rewrite String.eqb_refl. simpl.
        apply app_nil_r.
      * exists [Insert TUsers]. split; [reflexivity | now constructor].
      * intro H. exfalso. now apply H.
Qed.

Lemma no_identity_false_some (a : option string) :
  no_identity a = false -> exists cid, a = Some cid /\ cid <> EmptyString.
Proof.
  destruct a as [cid|]; simpl; [|discriminate].
  intro H. exists cid. split; [reflexivity|].
  apply truthy_string_true. now apply negb_false_iff in H.
Qed.

(** X18. For an external id that has no user row yet, in a store
    that satisfies the constraints of the schema, the list route answers
    404 [User not found]; once a sync call by that id has been answered
    with success, the list route answers that same caller 200 with the
    empty list. *)
Theorem first_sync_opens_contacts
        (e e2 : Env) (req : Request) (s : Store) (cid : string) :
  db_constraints (db s) ->
  auth_userId req = Some cid ->
  (forall u, In u (users (db s)) -> clerkUserId u <> cid) ->
  fst (syncUser e req s) = res_json JsonSuccess ->
  fst (getContacts e2 req s) = res_status 404 (JsonError "User not found")
  /\ fst (getContacts e2 req (snd (syncUser e req s))) = res_json (JsonContacts []).
Proof.
  intros [_ _ _ Hfk] Hauth Hnone Hok.
  assert (cid <> EmptyString) as Hne.
  { intro E. subst cid. unfold syncUser in Hok. rewrite Hauth in Hok.
    simpl in Hok. discriminate Hok. }
  assert (existsb (eq_clerkUserId cid) (users (db s)) = false) as Hex.
  { apply existsb_none. intros u Hu. apply String.eqb_neq. now apply Hnone. }
  split.
  - rewrite getContacts_eq, Hauth, (no_identity_some Hne).
    unfold resolved_user. rewrite Hauth. simpl or_else.
    now rewrite (existsb_false_filter _ _ Hex).
  - rewrite (syncUser_absent e req s Hauth Hne Hex) in *.
    destruct (clerk_emailAddresses e cid) as [emailAddresses|]; [|discriminate Hok].
    destruct (existsb (fun u => String.eqb (user_id u) (random_uuid e)) (users (db s)))
      eqn:Eid; [discriminate Hok|].
    simpl. rewrite getContacts_eq, Hauth, (no_identity_some Hne).
    unfold resolved_user. rewrite Hauth. simpl.
    rewrite filter_app, (existsb_false_filter _ _ Hex). simpl.
    unfold eq_clerkUserId at 1. simpl. rewrite String.eqb_refl. simpl.
    rewrite filter_none; [reflexivity|].
    intros c Hc. unfold eq_userId. apply String.eqb_neq. intro E.
    apply (existsb_false_not_in user_id _ _ Eid). rewrite <- E. now apply Hfk.
Qed.

Lemma first_sync_opens_contacts_witness :
  fst (getContacts later_env sync_by_z
         (snd (syncUser sample_env sync_by_z (fresh_store db_two_users))))
  = res_json (JsonContacts []).
Proof.
  apply (@first_sync_opens_contacts sample_env later_env sync_by_z
           (fresh_store db_two_users) "clerk_z").
  - exact db_two_users_constraints.
  - reflexivity.
  - simpl. intros u [<- | [<- | []]]; discriminate.
  - reflexivity.
Defined.

(** ** The assistant and the contacts controller *)


(** X19. The chat handler and the contacts controller resolve a
    caller to the same user: for a request with an identity, the id
    [getUserId] returns is the id of the row [getAuthenticatedUser]
    hands back, and it is null exactly when that helper answers 404
    [User not found]. *)
Theorem getUserId_agrees_with_helper (req : Request) (s : Store) :
  no_identity (auth_userId req) = false ->
  (forall u, fst (getAuthenticatedUser req s) = Returned (inr u) ->
             fst (getUserId (or_else (auth_userId req) EmptyString) s)
             = Returned (Some (user_id u)))
  /\ (fst (getAuthenticatedUser req s)
      = Returned (inl (res_status 404 (JsonError "User not found")))
      <-> fst (getUserId (or_else (auth_userId req) EmptyString) s) = Returned None).
Proof.
  intro Hid. rewrite getAuthenticatedUser_eq, getUserId_eq, Hid.
  destruct (resolved_user req (db s)) as [u|]; simpl.
  - split.
    + intros u' H. injection H as <-. reflexivity.
    + split; discriminate.
  - split.
    + intros u' H. discriminate H.
    + split; reflexivity.
Qed.

Lemma getUserId_agrees_with_helper_witness :
  fst (getUserId "clerk_a" (fresh_store db_two_users)) = Returned (Some "u-a").
Proof.
  apply (proj1 (@getUserId_agrees_with_helper (by_a EmptyString [])
                  (fresh_store db_two_users) eq_refl) user_a).
  reflexivity.
Defined.

(** X20. A chat request with a message list and an identity that has
    no user row is not turned away: the completion call is made after
    the one select on the users table, with the lookup tool bound to no
    user id, so that every call of the tool returns the sentence saying
    the user is not recognized, without reading the store. *)
Theorem chat_without_user_row
        (ModelMessage : Type)
        (convertToModelMessages : list json -> option (list ModelMessage))
        (startup_date : string)
        (req : Request) (s : Store) (cid : string) (modelMessages : list ModelMessage) :
  isArray (prop (body req) "messages") = true ->
  auth_userId req = Some cid -> cid <> EmptyString ->
  (forall u, In u (users (db s)) -> clerkUserId u <> cid) ->
  convertToModelMessages (array_items (prop (body req) "messages")) = Some modelMessages ->
  exists call,
    chatWithAssistant convertToModelMessages startup_date req s
    = (Piped call, logged s [Select TUsers])
    /\ tools call = createTools None
    /\ forall t s0, In t (map snd (tools call)) ->
                    execute t s0
                    = (Returned "User not found. Please ensure you are logged in.", s0).
Proof.
  intros Harr Hauth Hne Hnone Hconv.
  rewrite (chatWithAssistant_list_eq _ _ _ _ Harr), Hauth, (no_identity_some Hne), Hconv.
  simpl.
  assert (resolved_user req (db s) = None) as Hr.
  { unfold resolved_user. rewrite Hauth. simpl.
    rewrite filter_none; [reflexivity|].
    intros u Hu. apply String.eqb_neq. now apply Hnone. }
  rewrite Hr. simpl.
  eexists. split; [reflexivity | split; [reflexivity|]].
  simpl. intros t s0 [<- | []]. reflexivity.
Qed.

Lemma chat_without_user_row_witness :
  exists call,
    fst (chatWithAssistant keep_messages "November 3, 2026" (chat_by "clerk_z")
           (fresh_store db_two_users)) = Piped call
    /\ tools call = createTools None.
Proof.
  destruct (@chat_without_user_row json keep_messages "November 3, 2026"
              (chat_by "clerk_z") (fresh_store db_two_users) "clerk_z"
              [ JStr "what are my birthdays" ]
              eq_refl eq_refl ltac:(discriminate)
              ltac:(simpl; intros u [<- | [<- | []]]; discriminate)
              eq_refl)
    as [call [E [Ht _]]].
  exists call. rewrite E. split; [reflexivity | exact Ht].
Defined.

(** X21. The chat handler never writes the store: whatever the
    request, the rows are as before and at most one statement was sent,
    a select on the users table; and when the message conversion throws
    for a request that passed both checks the answer is 500 with the
    generic error. *)
Theorem chat_never_writes
        (ModelMessage : Type)
        (convertToModelMessages : list json -> option (list ModelMessage))
        (startup_date : string)
        (req : Request) (s : Store) :
  db (snd (chatWithAssistant convertToModelMessages startup_date req s)) = db s
  /\ (log (snd (chatWithAssistant convertToModelMessages startup_date req s)) = log s
      \/ log (snd (chatWithAssistant convertToModelMessages startup_date req s))
         = (log s ++ [Select TUsers])%list)
  /\ (isArray (prop (body req) "messages") = true ->
      no_identity (auth_userId req) = false ->
      convertToModelMessages (array_items (prop (body req) "messages")) = None ->
      fst (chatWithAssistant convertToModelMessages startup_date req s)
      = Responded (res_status 500 (JsonError "Internal server error"))).
Proof.
  destruct (isArray (prop (body req) "messages")) eqn:Harr.
  - rewrite (chatWithAssistant_list_eq _ _ _ _ Harr).
    destruct (no_identity (auth_userId req)); simpl.
    + repeat split; auto. intros _ H. discriminate H.
    + destruct (convertToModelMessages _); simpl.
      * repeat split; auto. intros _ _ H. discriminate H.
      * repeat split; auto.
  - rewrite chatWithAssistant_eq, Harr.
    destruct (parsed_body req); simpl; repeat split; auto; intro H; discriminate H.
Qed.

(** X22. What the assistant's tool tells the model is the rendering
    of the list the contacts endpoint gives the same caller: when a chat
    request leads to a completion call and the list route answers that
    request 200 with the rows [rows], the tool bound by the call, run on
    that store, returns the no-contacts sentence if [rows] is empty and
    otherwise the count line followed by one rendered line per row of
    [rows], in order.  (User ids are taken not to be the empty text.) *)
Theorem tool_renders_the_callers_list
        (ModelMessage : Type)
        (convertToModelMessages : list json -> option (list ModelMessage))
        (startup_date : string)
        (e : Env) (req : Request) (s s' : Store)
        (call : StreamCall ModelMessage) (rows : list Contact) :
  (forall u, In u (users (db s)) -> user_id u <> EmptyString) ->
  chatWithAssistant convertToModelMessages startup_date req s = (Piped call, s') ->
  fst (getContacts e req s) = res_json (JsonContacts rows) ->
  forall t, In t (map snd (tools call)) ->
            fst (execute t s) = Returned (contacts_text rows)
            /\ db (snd (execute t s)) = db s.
Proof.
  intros Hids Hchat Hlist t Ht.
  rewrite chatWithAssistant_eq in Hchat. rewrite getContacts_eq in Hlist.
  destruct (parsed_body req); try discriminate Hchat;
    (destruct (negb (isArray (prop (body req) "messages"))); [discriminate Hchat|]);
    (destruct (no_identity (auth_userId req)); [discriminate Hchat|]);
    (destruct (resolved_user req (db s)) as [u|] eqn:Hu; [|discriminate Hlist]);
    (destruct (convertToModelMessages _) as [modelMessages|]; [|discriminate Hchat]);
    injection Hchat as <- _; simpl in Hlist; injection Hlist as <-;
    simpl in Ht; destruct Ht as [<- | []]; simpl execute;
    destruct (resolved_user_in req _ Hu) as [Hin _];
    rewrite (getContacts_execute_eq s (Hids u Hin)); split; reflexivity.
Qed.

Lemma tool_renders_the_callers_list_witness :
  fst (getContacts_execute (Some "u-a") (fresh_store db_two_users))
  = Returned (contacts_text [contact_of_a]).
Proof.
  apply (@tool_renders_the_callers_list json keep_messages "November 3, 2026"
           sample_env (chat_by "clerk_a") (fresh_store db_two_users)
           (logged (fresh_store db_two_users) [Select TUsers])
           {| model := MODEL;
              system := SYSTEM_PROMPT "November 3, 2026";
              messages := [ JStr "what are my birthdays" ];
              stopWhen := stepCountIs 3;
              tools := createTools (Some "u-a") |}
           [contact_of_a]
           ltac:(simpl; intros u [<- | [<- | []]]; discriminate)
           eq_refl eq_refl
           {| description := "Get all contacts and their birthdays. Use when user asks about birthdays, contacts, upcoming celebrations, or specific people.";
              inputSchema := [];
              execute := getContacts_execute (Some "u-a") |}
           (or_introl eq_refl)).
Defined.

(** ** Edges of the rendering *)

(** X23. A row whose month is outside 1..12 is still rendered,
    without error: the place of the month name is taken by the text
    [undefined], the rest of the line being as for any other row. *)
Theorem formatContact_month_out_of_range (c : Contact) :
  birthdayMonth c < 1 \/ 12 < birthdayMonth c ->
  formatContact (selected c)
  = "- " ++ name c ++ ": " ++ "undefined" ++ " " ++ show_int (birthdayDay c)
        ++ year_suffix c.
Proof.
  intro Hout.
  assert (month_name_at (birthdayMonth c - 1) = "undefined") as Hname.
  { unfold month_name_at. destruct (birthdayMonth c - 1 <? 0) eqn:E; [reflexivity|].
    apply Z.ltb_ge in E. apply nth_overflow. simpl. lia. }
  unfold formatContact, birthday_text, notes_suffix, selected. simpl.
  rewrite Hname, append_nil_r. reflexivity.
Qed.

Lemma formatContact_month_out_of_range_witness :
  formatContact (selected ada_month_13) = "- Ada: undefined 10".
Proof.
  rewrite (formatContact_month_out_of_range ada_month_13); [reflexivity|].
  simpl. lia.
Defined.

(** X24. The rendering does not tell a birth year 0 from no birth
    year: the year suffix is empty exactly when the year is absent or
    0, so a row with year 0 is rendered as the same row without year. *)
Theorem formatContact_year_zero (c : Contact) :
  (year_suffix c = EmptyString <-> birthdayYear c = None \/ birthdayYear c = Some 0)
  /\ formatContact (selected (with_year c (Some 0)))
     = formatContact (selected (with_year c None)).
Proof.
  split; [| reflexivity].
  unfold year_suffix, truthy_int.
  destruct (birthdayYear c) as [y|]; [| split; auto].
  destruct (y =? 0) eqn:E; simpl.
  - apply Z.eqb_eq in E. subst y. split; auto.
  - apply Z.eqb_neq in E. split.
    + discriminate.
    + intros [H | H]; [discriminate H|]. injection H as ->. contradiction.
Qed.

(** ** What the update schema accepts *)

Lemma optional_text_inv (m : string) (p : list string) (v : option json)
      (r : option string) :
  optional (string_min1 m p) v = inr r <-> text_accepted v /\ r = given_text v.
Proof.
  unfold optional, text_accepted. split.
  - destruct v as [j|].
    + destruct (string_min1 m p (Some j)) as [?|n] eqn:E; [discriminate|].
      intro H. injection H as <-. apply string_min1_inv in E. destruct E as [E Hne].
      injection E as ->. split; [right; eauto | reflexivity].
    + intro H. injection H as <-. auto.
  - intros [[-> | [n [-> Hne]]] ->]; [reflexivity|].
    now rewrite (string_min1_accepts m p Hne).
Qed.

Lemma optional_int_inv (lo hi : Z) (m : string) (p : list string) (v : option json)
      (r : option Z) :
  - MAX_SAFE_INTEGER <= lo -> hi <= MAX_SAFE_INTEGER ->
  optional (int_between lo hi m p) v = inr r <-> int_accepted lo hi v /\ r = given_int v.
Proof.
  intros Slo Shi. unfold optional, int_accepted. split.
  - destruct v as [j|].
    + destruct (int_between lo hi m p (Some j)) as [?|z] eqn:E; [discriminate|].
      intro H. injection H as <-. apply int_between_inv in E; [|assumption..].
      destruct E as [q [E [Ei [Hr ->]]]]. injection E as ->.
      split; [right; eauto | reflexivity].
    + intro H. injection H as <-. auto.
  - intros [[-> | [q [-> [Ei Hr]]]] ->]; [reflexivity|].
    rewrite (proj2 (int_between_inv m p (Some (JNum q)) (integer_value q) Slo Shi));
      [reflexivity|]. exists q. auto.
Qed.

Lemma present_given_text (v : option json) :
  text_accepted v -> (present (given_text v) = 0%nat <-> v = None).
Proof.
  intros [-> | [n [-> _]]]; simpl; split; (reflexivity || discriminate).
Qed.

Lemma present_given_int (lo hi : Z) (v : option json) :
  int_accepted lo hi v -> (present (given_int v) = 0%nat <-> v = None).
Proof.
  intros [-> | [q [-> _]]]; simpl; split; (reflexivity || discriminate).
Qed.

Lemma present_given_year (v : option json) :
  year_accepted v -> (present (given_year v) = 0%nat <-> v = None).
Proof.
  intros [-> | [-> | [q [-> _]]]]; simpl; split; (reflexivity || discriminate).
Qed.

(** X25. The update schema accepts a body exactly when the body is an
    object in which each of name, month, day and year is either absent
    or valid as for a create (a non-empty text; an integral number in
    1..12; one in 1..31; null or an integral number of the safe range),
    and at least one of the four keys is there; the parsed data are
    then the values supplied. *)
Theorem updateContactSchema_accepts_iff (b : json) (data : UpdateData) :
  updateContactSchema b = inr data <-> update_accepts b data.
Proof.
  unfold update_accepts. split.
  - intro H. unfold updateContactSchema in H.
    destruct b as [| | | | |members]; try discriminate.
    destruct (optional (string_min1 _ _) _) as [?|n] eqn:En;
      destruct (optional (int_between 1 12 _ _) _) as [?|m] eqn:Em;
      destruct (optional (int_between 1 31 _ _) _) as [?|d] eqn:Ed;
      destruct (optional (nullable _) _) as [?|y] eqn:Ey; try discriminate.
    destruct month_day_bounds_safe as [S1 [S12 S31]].
    apply optional_text_inv in En. destruct En as [An ->].
    apply optional_int_inv in Em; [|assumption..]. destruct Em as [Am ->].
    apply optional_int_inv in Ed; [|assumption..]. destruct Ed as [Ad ->].
    apply year_parse_inv in Ey. destruct Ey as [Ay ->].
    destruct (0 <? _)%nat eqn:Ek; [|discriminate].
    injection H as <-.
    split; [eauto | repeat (split; [assumption|])].
    split; [| reflexivity].
    apply Nat.ltb_lt in Ek. unfold keys_length in Ek.
    cbn [u_name u_birthdayMonth u_birthdayDay u_birthdayYear] in Ek.
    destruct (prop (JObj members) "name"); [left; discriminate|].
    destruct (prop (JObj members) "birthdayMonth"); [right; left; discriminate|].
    destruct (prop (JObj members) "birthdayDay"); [right; right; left; discriminate|].
    destruct (prop (JObj members) "birthdayYear"); [right; right; right; discriminate|].
    simpl in Ek. lia.
  - intros [[members ->] [An [Am [Ad [Ay [Hsome ->]]]]]].
    unfold updateContactSchema.
    rewrite (proj2 (optional_text_inv _ _ _ _) (conj An eq_refl)).
    destruct month_day_bounds_safe as [S1 [S12 S31]].
    rewrite (proj2 (optional_int_inv _ _ _ _ S1 S12) (conj Am eq_refl)).
    rewrite (proj2 (optional_int_inv _ _ _ _ S1 S31) (conj Ad eq_refl)).
    rewrite (proj2 (year_parse_inv _ _ _) (conj Ay eq_refl)).
    assert ((0 <? keys_length
                   {| u_name := given_text (prop (JObj members) "name");
                      u_birthdayMonth := given_int (prop (JObj members) "birthdayMonth");
                      u_birthdayDay := given_int (prop (JObj members) "birthdayDay");
                      u_birthdayYear := given_year (prop (JObj members) "birthdayYear")
                   |})%nat = true) as Ek.
    { apply Nat.ltb_lt. unfold keys_length.
      cbn [u_name u_birthdayMonth u_birthdayDay u_birthdayYear].
      pose proof (present_given_text An) as Pn.
      pose proof (present_given_int Am) as Pm.
      pose proof (present_given_int Ad) as Pd.
      pose proof (present_given_year Ay) as Py.
      destruct Hsome as [H | [H | [H | H]]].
      - destruct (present (given_text (prop (JObj members) "name"))) eqn:E; [|lia].
        exfalso. apply H. now apply Pn.
      - destruct (present (given_int (prop (JObj members) "birthdayMonth"))) eqn:E; [|lia].
        exfalso. apply H. now apply Pm.
      - destruct (present (given_int (prop (JObj members) "birthdayDay"))) eqn:E; [|lia].
        exfalso. apply H. now apply Pd.
      - destruct (present (given_year (prop (JObj members) "birthdayYear"))) eqn:E; [|lia].
        exfalso. apply H. now apply Py. }
    now rewrite Ek.
Qed.
